(** * Cooking with Chris: the client-side logic of the recipe application

    A shallow embedding of the React front end: the recipe form of
    [CreateRecipePage] (section lists, order indices, [validateForm]), the
    axios instance with its two interceptors, [authService], the inactivity
    timer of [AuthProvider], the parameter objects built by the two list
    pages and the comment form.  Each definition carries the name of the
    JavaScript function it follows. *)

From Stdlib Require Import ZArith Ascii.
From stdpp Require Import base option list strings pretty gmap.

Open Scope Z_scope.

(** ** JavaScript values and the few built-ins the pages rely on *)
Module JS.

(** A text is held as the bytes of its UTF-8 encoding.

    [String.prototype.trim] strips white space and line terminators: TAB,
    LF, VT, FF, CR and SPACE, which take one byte each; U+00A0, which takes
    two; and U+1680, U+2000 to U+200A, U+2028, U+2029, U+202F, U+205F,
    U+3000 and U+FEFF, which take three. *)
Definition is_white_space (c : ascii) : bool :=
  let n := nat_of_ascii c in
  ((9 <=? n) && (n <=? 13) || (n =? 32))%nat.

Definition is_white_space_2 (c1 c2 : ascii) : bool :=
  ((nat_of_ascii c1 =? 194) && (nat_of_ascii c2 =? 160))%nat.

Definition is_white_space_3 (c1 c2 c3 : ascii) : bool :=
  let n1 := nat_of_ascii c1 in
  let n2 := nat_of_ascii c2 in
  let n3 := nat_of_ascii c3 in
  ((n1 =? 225) && (n2 =? 154) && (n3 =? 128)
   || (n1 =? 226) && (n2 =? 128)
      && ((128 <=? n3) && (n3 <=? 138)
          || (n3 =? 168) || (n3 =? 169) || (n3 =? 175))
   || (n1 =? 226) && (n2 =? 129) && (n3 =? 159)
   || (n1 =? 227) && (n2 =? 128) && (n3 =? 128)
   || (n1 =? 239) && (n2 =? 187) && (n3 =? 191))%nat.

Fixpoint trimStart (s : string) : string :=
  match s with
  | EmptyString => EmptyString
  | String c1 r1 =>
      if is_white_space c1 then trimStart r1
      else
        match r1 with
        | EmptyString => s
        | String c2 r2 =>
            if is_white_space_2 c1 c2 then trimStart r2
            else
              match r2 with
              | EmptyString => s
              | String c3 r3 =>
                  if is_white_space_3 c1 c2 c3 then trimStart r3 else s
              end
        end
  end.

Definition is_empty (s : string) : bool :=
  match s with EmptyString => true | String _ _ => false end.

(** The text from the first position from which only white space
    follows is dropped. *)
Fixpoint trimEnd (s : string) : string :=
  match s with
  | EmptyString => EmptyString
  | String c rest =>
      if is_empty (trimStart s) then EmptyString
      else String c (trimEnd rest)
  end.

Definition trim (s : string) : string := trimEnd (trimStart s).

(** Truthiness of a string: every string but [''] is truthy. *)
Definition truthy (s : string) : bool := negb (is_empty s).

(** Truthiness of what [localStorage.getItem] returns: [null] or a
    string. *)
Definition truthy_item (o : option string) : bool :=
  match o with
  | Some s => truthy s
  | None => false
  end.

(** *** Numbers

    What [ToNumber] and [parseInt] read in a text, before it is rounded to
    a double: not a number, an infinity, or the decimal
    [coefficient * 10 ^ exponent] with its sign ([-0] keeps its sign). *)
Inductive Number : Type :=
| NaN
| Infinite (negative : bool)
| Decimal (negative : bool) (coefficient exponent : Z).

Definition digit_of (radix : Z) (c : ascii) : option Z :=
  let n := Z.of_nat (nat_of_ascii c) in
  let d :=
    if (48 <=? n) && (n <=? 57) then Some (n - 48)
    else if (97 <=? n) && (n <=? 122) then Some (n - 87)
    else if (65 <=? n) && (n <=? 90) then Some (n - 55)
    else None in
  match d with
  | Some d => if d <? radix then Some d else None
  | None => None
  end.

(** The longest run of digits at the start of a text: its value on top of
    [acc], how many digits it has, and the rest of the text. *)
Fixpoint read_digits (radix acc : Z) (count : nat) (s : string)
    : Z * nat * string :=
  match s with
  | EmptyString => (acc, count, s)
  | String c rest =>
      match digit_of radix c with
      | Some d => read_digits radix (radix * acc + d) (S count) rest
      | None => (acc, count, s)
      end
  end.

(** A sign at the start of a text, and the rest. *)
Definition read_sign (s : string) : bool * string :=
  match s with
  | EmptyString => (false, s)
  | String c rest =>
      if Ascii.eqb c "-" then (true, rest)
      else if Ascii.eqb c "+" then (false, rest)
      else (false, s)
  end.

(** [ExponentPart], or nothing, up to the end of the text. *)
Definition read_exponent (s : string) : option Z :=
  match s with
  | EmptyString => Some 0
  | String c rest =>
      if Ascii.eqb c "e" || Ascii.eqb c "E" then
        let '(negative, rest) := read_sign rest in
        match read_digits 10 0 0 rest with
        | (e, S _, EmptyString) => Some (if negative then - e else e)
        | _ => None
        end
      else None
  end.

(** The digits of a fraction after those of the whole part, when a dot
    comes next. *)
Definition read_fraction (whole : Z) (s : string) : Z * nat * string :=
  match s with
  | EmptyString => (whole, 0%nat, s)
  | String c rest =>
      if Ascii.eqb c "." then read_digits 10 whole 0 rest
      else (whole, 0%nat, s)
  end.

(** [StrUnsignedDecimalLiteral]: [Infinity], or digits with a fraction
    (one of the two may be missing) and an exponent part. *)
Definition read_unsigned_decimal (negative : bool) (s : string) : Number :=
  if String.eqb s "Infinity" then Infinite negative
  else
    let '(whole, n1, r1) := read_digits 10 0 0 s in
    let '(coefficient, n2, r2) := read_fraction whole r1 in
    match (n1 + n2)%nat, read_exponent r2 with
    | S _, Some e => Decimal negative coefficient (e - Z.of_nat n2)
    | _, _ => NaN
    end.

(** The radix that a prefix [0x], [0o] or [0b] announces, and the rest of
    the text. *)
Definition radix_prefix (s : string) : option (Z * string) :=
  match s with
  | String c0 (String c rest) =>
      if Ascii.eqb c0 "0" then
        if Ascii.eqb c "x" || Ascii.eqb c "X" then Some (16, rest)
        else if Ascii.eqb c "o" || Ascii.eqb c "O" then Some (8, rest)
        else if Ascii.eqb c "b" || Ascii.eqb c "B" then Some (2, rest)
        else None
      else None
  | _ => None
  end.

(** [NonDecimalIntegerLiteral]: the digits after the prefix. *)
Definition read_non_decimal (radix : Z) (s : string) : Number :=
  match read_digits radix 0 0 s with
  | (n, S _, EmptyString) => Decimal false n 0
  | _ => NaN
  end.

(** [StringToNumber]: the text of a [StringNumericLiteral], with white
    space around it, or else [NaN]; a text of white space only is 0. *)
Definition ToNumber (s : string) : Number :=
  let t := trim s in
  if is_empty t then Decimal false 0 0
  else
    match radix_prefix t with
    | Some (radix, rest) => read_non_decimal radix rest
    | None =>
        let '(negative, rest) := read_sign t in
        read_unsigned_decimal negative rest
    end.

(** [m * 10 ^ e < p / 2 ^ q] and [p / 2 ^ q < m * 10 ^ e], for [0 ≤ q]. *)
Definition decimal_lt (m e p q : Z) : bool :=
  if 0 <=? e then m * 10 ^ e * 2 ^ q <? p
  else m * 2 ^ q <? p * 10 ^ (- e).

Definition decimal_gt (m e p q : Z) : bool :=
  if 0 <=? e then p <? m * 10 ^ e * 2 ^ q
  else p * 10 ^ (- e) <? m * 2 ^ q.

(** [x < 0] once [x] is rounded to the nearest double, ties to even.  The
    doubles below 0 are those up to [- 2 ^ -1074], and a value rounds to
    one of them when it is below [- 2 ^ -1075]; from there up to 0 it
    rounds to [-0], which is not below 0. *)
Definition lt_0 (x : Number) : bool :=
  match x with
  | NaN => false
  | Infinite negative => negative
  | Decimal negative m e => negative && decimal_gt m e 1 1075
  end.

(** [x < 1] once [x] is rounded.  The double before 1 is [1 - 2 ^ -53];
    a value rounds to it or lower when it is below [1 - 2 ^ -54], and to
    1 or higher from there on. *)
Definition lt_1 (x : Number) : bool :=
  match x with
  | NaN => false
  | Infinite negative => negative
  | Decimal negative m e =>
      negative || decimal_lt m e (2 ^ 54 - 1) 54
  end.

(** [parseInt(s)] without a radix: the integer at the start of the text,
    after white space and a sign, in base 16 after [0x] and in base 10
    otherwise; [None] is [NaN].  The integer is the one written, before
    it is rounded to a double. *)
Definition parseInt (s : string) : option Z :=
  let '(negative, rest) := read_sign (trimStart s) in
  let '(radix, rest) :=
    match radix_prefix rest with
    | Some (16, rest') => (16, rest')
    | _ => (10, rest)
    end in
  match read_digits radix 0 0 rest with
  | (n, S _, _) => Some (if negative then - n else n)
  | _ => None
  end.

(** [text] is a decimal numeral, a run of one or more decimal digits and
    nothing else, and [n] is its value. *)
Definition numeral (text : string) (n : Z) : Prop :=
  ∃ k, read_digits 10 0 0 text = (n, S k, EmptyString).

(** Values that travel in a parameter object. *)
Inductive Value : Type :=
| Undefined
| Null
| Num (n : Z)
| Str (s : string).

#[global] Instance Value_eq_dec : EqDecision Value.
Proof. solve_decision. Defined.

(** [v === ''] *)
Definition is_empty_string (v : Value) : bool :=
  match v with
  | Str s => is_empty s
  | _ => false
  end.

End JS.

(** ** The ingredient half of the recipe form (CreateRecipePage) *)
Module Ingredients.

Record Ingredient : Type := {
  ingredient_quantity : string;
  ingredient_uom : string;
  ingredient_name : string;
  ingredient_order : nat
}.

Record Section_ : Type := {
  section_title : string;
  section_order : nat;
  ingredients : list Ingredient
}.

(** [section.section_order = n] *)
Definition set_section_order (n : nat) (s : Section_) : Section_ :=
  {| section_title := section_title s;
     section_order := n;
     ingredients := ingredients s |}.

(** [section.ingredients = l] *)
Definition set_ingredients (l : list Ingredient) (s : Section_) : Section_ :=
  {| section_title := section_title s;
     section_order := section_order s;
     ingredients := l |}.

(** [ingredient.ingredient_order = n] *)
Definition set_ingredient_order (n : nat) (i : Ingredient) : Ingredient :=
  {| ingredient_quantity := ingredient_quantity i;
     ingredient_uom := ingredient_uom i;
     ingredient_name := ingredient_name i;
     ingredient_order := n |}.

(** [section.section_title = title] *)
Definition set_section_title (title : string) (s : Section_) : Section_ :=
  {| section_title := title;
     section_order := section_order s;
     ingredients := ingredients s |}.

(** The three text fields of an ingredient that the form writes through
    [updateIngredient]. *)
Inductive Field : Type :=
| Quantity
| Uom
| Name.

(** [ingredient[field] = value] *)
Definition set_field (field : Field) (value : string) (i : Ingredient)
    : Ingredient :=
  match field with
  | Quantity =>
      {| ingredient_quantity := value; ingredient_uom := ingredient_uom i;
         ingredient_name := ingredient_name i;
         ingredient_order := ingredient_order i |}
  | Uom =>
      {| ingredient_quantity := ingredient_quantity i; ingredient_uom := value;
         ingredient_name := ingredient_name i;
         ingredient_order := ingredient_order i |}
  | Name =>
      {| ingredient_quantity := ingredient_quantity i;
         ingredient_uom := ingredient_uom i;
         ingredient_name := value;
         ingredient_order := ingredient_order i |}
  end.

Definition blank_ingredient (order : nat) : Ingredient :=
  {| ingredient_quantity := "";
     ingredient_uom := "";
     ingredient_name := "";
     ingredient_order := order |}.

(** The initial state of [ingredientSections]. *)
Definition initial : list Section_ :=
  [ {| section_title := "Main Ingredients";
       section_order := 1;
       ingredients := [blank_ingredient 1] |} ].

End Ingredients.

(** ** The instruction half of the recipe form (CreateRecipePage) *)
Module Instructions.

Record Instruction : Type := {
  instruction_step : string;
  step_order : nat
}.

Record Section_ : Type := {
  section_title : string;
  section_order : nat;
  instructions : list Instruction
}.

Definition set_section_order (n : nat) (s : Section_) : Section_ :=
  {| section_title := section_title s;
     section_order := n;
     instructions := instructions s |}.

Definition set_instructions (l : list Instruction) (s : Section_) : Section_ :=
  {| section_title := section_title s;
     section_order := section_order s;
     instructions := l |}.

Definition set_step_order (n : nat) (i : Instruction) : Instruction :=
  {| instruction_step := instruction_step i; step_order := n |}.

(** [section.section_title = title] *)
Definition set_section_title (title : string) (s : Section_) : Section_ :=
  {| section_title := title;
     section_order := section_order s;
     instructions := instructions s |}.

(** [instruction.instruction_step = value] *)
Definition set_instruction_step (value : string) (i : Instruction)
    : Instruction :=
  {| instruction_step := value; step_order := step_order i |}.

Definition blank_instruction (order : nat) : Instruction :=
  {| instruction_step := ""; step_order := order |}.

(** The initial state of [instructionSections]. *)
Definition initial : list Section_ :=
  [ {| section_title := "Preparation";
       section_order := 1;
       instructions := [blank_instruction 1] |} ].

End Instructions.

(** ** CreateRecipePage: the handlers of the two section lists *)
Module CreateRecipePage.

(** [array.filter((_, index) => index !== k)]: the callback sees the
    position of each element in the array it filters. *)
Fixpoint filter_index_from {A : Type} (keep : nat → bool) (i : nat)
    (l : list A) : list A :=
  match l with
  | [] => []
  | x :: rest =>
      if keep i then x :: filter_index_from keep (S i) rest
      else filter_index_from keep (S i) rest
  end.

Definition filter_index_ne {A : Type} (k : nat) (l : list A) : list A :=
  filter_index_from (λ index, negb (index =? k)%nat) 0%nat l.

(** A handler that reads [updated[sectionIndex].field] throws a TypeError
    when the index is outside the array: the handlers below return [None]
    there, and [Some] of the new state otherwise. *)

Definition addIngredientSection (ingredientSections : list Ingredients.Section_)
    : list Ingredients.Section_ :=
  ingredientSections ++
    [ {| Ingredients.section_title := "";
         Ingredients.section_order := length ingredientSections + 1;
         Ingredients.ingredients := [Ingredients.blank_ingredient 1] |} ].

Definition removeIngredientSection (sectionIndex : nat)
    (ingredientSections : list Ingredients.Section_)
    : list Ingredients.Section_ :=
  let updated := filter_index_ne sectionIndex ingredientSections in
  imap (λ index section, Ingredients.set_section_order (index + 1) section)
       updated.

Definition addIngredient (sectionIndex : nat)
    (ingredientSections : list Ingredients.Section_)
    : option (list Ingredients.Section_) :=
  section ← ingredientSections !! sectionIndex;
  let pushed :=
    Ingredients.ingredients section ++
      [Ingredients.blank_ingredient
         (length (Ingredients.ingredients section) + 1)] in
  Some (<[sectionIndex := Ingredients.set_ingredients pushed section]>
          ingredientSections).

Definition removeIngredient (sectionIndex ingredientIndex : nat)
    (ingredientSections : list Ingredients.Section_)
    : option (list Ingredients.Section_) :=
  section ← ingredientSections !! sectionIndex;
  let filtered :=
    filter_index_ne ingredientIndex (Ingredients.ingredients section) in
  let reordered :=
    imap (λ index ingredient,
            Ingredients.set_ingredient_order (index + 1) ingredient)
         filtered in
  Some (<[sectionIndex := Ingredients.set_ingredients reordered section]>
          ingredientSections).

Definition addInstructionSection
    (instructionSections : list Instructions.Section_)
    : list Instructions.Section_ :=
  instructionSections ++
    [ {| Instructions.section_title := "";
         Instructions.section_order := length instructionSections + 1;
         Instructions.instructions := [Instructions.blank_instruction 1] |} ].

Definition removeInstructionSection (sectionIndex : nat)
    (instructionSections : list Instructions.Section_)
    : list Instructions.Section_ :=
  let updated := filter_index_ne sectionIndex instructionSections in
  imap (λ index section, Instructions.set_section_order (index + 1) section)
       updated.

Definition addInstruction (sectionIndex : nat)
    (instructionSections : list Instructions.Section_)
    : option (list Instructions.Section_) :=
  section ← instructionSections !! sectionIndex;
  let pushed :=
    Instructions.instructions section ++
      [Instructions.blank_instruction
         (length (Instructions.instructions section) + 1)] in
  Some (<[sectionIndex := Instructions.set_instructions pushed section]>
          instructionSections).

Definition removeInstruction (sectionIndex instructionIndex : nat)
    (instructionSections : list Instructions.Section_)
    : option (list Instructions.Section_) :=
  section ← instructionSections !! sectionIndex;
  let filtered :=
    filter_index_ne instructionIndex (Instructions.instructions section) in
  let reordered :=
    imap (λ index instruction,
            Instructions.set_step_order (index + 1) instruction)
         filtered in
  Some (<[sectionIndex := Instructions.set_instructions reordered section]>
          instructionSections).

Definition updateIngredientSectionTitle (sectionIndex : nat) (title : string)
    (ingredientSections : list Ingredients.Section_)
    : option (list Ingredients.Section_) :=
  section ← ingredientSections !! sectionIndex;
  Some (<[sectionIndex := Ingredients.set_section_title title section]>
          ingredientSections).

Definition updateIngredient (sectionIndex ingredientIndex : nat)
    (field : Ingredients.Field) (value : string)
    (ingredientSections : list Ingredients.Section_)
    : option (list Ingredients.Section_) :=
  section ← ingredientSections !! sectionIndex;
  ingredient ← Ingredients.ingredients section !! ingredientIndex;
  let written :=
    <[ingredientIndex := Ingredients.set_field field value ingredient]>
      (Ingredients.ingredients section) in
  Some (<[sectionIndex := Ingredients.set_ingredients written section]>
          ingredientSections).

Definition updateInstructionSectionTitle (sectionIndex : nat) (title : string)
    (instructionSections : list Instructions.Section_)
    : option (list Instructions.Section_) :=
  section ← instructionSections !! sectionIndex;
  Some (<[sectionIndex := Instructions.set_section_title title section]>
          instructionSections).

Definition updateInstruction (sectionIndex instructionIndex : nat)
    (value : string) (instructionSections : list Instructions.Section_)
    : option (list Instructions.Section_) :=
  section ← instructionSections !! sectionIndex;
  instruction ← Instructions.instructions section !! instructionIndex;
  let written :=
    <[instructionIndex := Instructions.set_instruction_step value instruction]>
      (Instructions.instructions section) in
  Some (<[sectionIndex := Instructions.set_instructions written section]>
          instructionSections).

(** *** The controls of the form

    What the user can do to the ingredient sections: each control of the
    rendered form calls one handler.  The form renders "Remove Section"
    only while there is more than one section, and the remove button of an
    ingredient only while its section has more than one ingredient; the
    other controls exist for every section and ingredient shown. *)
Inductive IngredientControl : Type :=
| AddIngredientSection
| RemoveIngredientSection (sectionIndex : nat)
| AddIngredient (sectionIndex : nat)
| RemoveIngredient (sectionIndex ingredientIndex : nat)
| UpdateIngredientSectionTitle (sectionIndex : nat) (title : string)
| UpdateIngredient (sectionIndex ingredientIndex : nat)
    (field : Ingredients.Field) (value : string).

(** Is the control on the page? *)
Definition ingredient_control_rendered (c : IngredientControl)
    (ingredientSections : list Ingredients.Section_) : bool :=
  match c with
  | AddIngredientSection => true
  | RemoveIngredientSection sectionIndex =>
      (sectionIndex <? length ingredientSections)%nat
      && (1 <? length ingredientSections)%nat
  | AddIngredient sectionIndex
  | UpdateIngredientSectionTitle sectionIndex _ =>
      (sectionIndex <? length ingredientSections)%nat
  | RemoveIngredient sectionIndex ingredientIndex =>
      match ingredientSections !! sectionIndex with
      | Some section =>
          (ingredientIndex <? length (Ingredients.ingredients section))%nat
          && (1 <? length (Ingredients.ingredients section))%nat
      | None => false
      end
  | UpdateIngredient sectionIndex ingredientIndex _ _ =>
      match ingredientSections !! sectionIndex with
      | Some section =>
          (ingredientIndex <? length (Ingredients.ingredients section))%nat
      | None => false
      end
  end.

(** The handler behind the control. *)
Definition ingredient_handler (c : IngredientControl)
    (ingredientSections : list Ingredients.Section_)
    : option (list Ingredients.Section_) :=
  match c with
  | AddIngredientSection => Some (addIngredientSection ingredientSections)
  | RemoveIngredientSection sectionIndex =>
      Some (removeIngredientSection sectionIndex ingredientSections)
  | AddIngredient sectionIndex => addIngredient sectionIndex ingredientSections
  | RemoveIngredient sectionIndex ingredientIndex =>
      removeIngredient sectionIndex ingredientIndex ingredientSections
  | UpdateIngredientSectionTitle sectionIndex title =>
      updateIngredientSectionTitle sectionIndex title ingredientSections
  | UpdateIngredient sectionIndex ingredientIndex field value =>
      updateIngredient sectionIndex ingredientIndex field value
        ingredientSections
  end.

(** Using a control that is on the page, and using several in a row. *)
Definition use_ingredient_control (c : IngredientControl)
    (ingredientSections : list Ingredients.Section_)
    : option (list Ingredients.Section_) :=
  if ingredient_control_rendered c ingredientSections
  then ingredient_handler c ingredientSections
  else None.

Fixpoint use_ingredient_controls (l : list IngredientControl)
    (ingredientSections : list Ingredients.Section_)
    : option (list Ingredients.Section_) :=
  match l with
  | [] => Some ingredientSections
  | c :: rest =>
      next ← use_ingredient_control c ingredientSections;
      use_ingredient_controls rest next
  end.

(** The same for the instruction sections. *)
Inductive InstructionControl : Type :=
| AddInstructionSection
| RemoveInstructionSection (sectionIndex : nat)
| AddInstruction (sectionIndex : nat)
| RemoveInstruction (sectionIndex instructionIndex : nat)
| UpdateInstructionSectionTitle (sectionIndex : nat) (title : string)
| UpdateInstruction (sectionIndex instructionIndex : nat) (value : string).

Definition instruction_control_rendered (c : InstructionControl)
    (instructionSections : list Instructions.Section_) : bool :=
  match c with
  | AddInstructionSection => true
  | RemoveInstructionSection sectionIndex =>
      (sectionIndex <? length instructionSections)%nat
      && (1 <? length instructionSections)%nat
  | AddInstruction sectionIndex
  | UpdateInstructionSectionTitle sectionIndex _ =>
      (sectionIndex <? length instructionSections)%nat
  | RemoveInstruction sectionIndex instructionIndex =>
      match instructionSections !! sectionIndex with
      | Some section =>
          (instructionIndex <? length (Instructions.instructions section))%nat
          && (1 <? length (Instructions.instructions section))%nat
      | None => false
      end
  | UpdateInstruction sectionIndex instructionIndex _ =>
      match instructionSections !! sectionIndex with
      | Some section =>
          (instructionIndex <? length (Instructions.instructions section))%nat
      | None => false
      end
  end.

Definition instruction_handler (c : InstructionControl)
    (instructionSections : list Instructions.Section_)
    : option (list Instructions.Section_) :=
  match c with
  | AddInstructionSection => Some (addInstructionSection instructionSections)
  | RemoveInstructionSection sectionIndex =>
      Some (removeInstructionSection sectionIndex instructionSections)
  | AddInstruction sectionIndex =>
      addInstruction sectionIndex instructionSections
  | RemoveInstruction sectionIndex instructionIndex =>
      removeInstruction sectionIndex instructionIndex instructionSections
  | UpdateInstructionSectionTitle sectionIndex title =>
      updateInstructionSectionTitle sectionIndex title instructionSections
  | UpdateInstruction sectionIndex instructionIndex value =>
      updateInstruction sectionIndex instructionIndex value instructionSections
  end.

Definition use_instruction_control (c : InstructionControl)
    (instructionSections : list Instructions.Section_)
    : option (list Instructions.Section_) :=
  if instruction_control_rendered c instructionSections
  then instruction_handler c instructionSections
  else None.

Fixpoint use_instruction_controls (l : list InstructionControl)
    (instructionSections : list Instructions.Section_)
    : option (list Instructions.Section_) :=
  match l with
  | [] => Some instructionSections
  | c :: rest =>
      next ← use_instruction_control c instructionSections;
      use_instruction_controls rest next
  end.

(** The shape the form keeps: at least one section, every section with at
    least one item, and order indices 1, 2, ... at both levels. *)
Definition ingredient_sections_in_shape (l : list Ingredients.Section_)
    : Prop :=
  l ≠ []
  ∧ Ingredients.section_order <$> l = seq 1 (length l)
  ∧ Forall (λ s, Ingredients.ingredients s ≠ []
                 ∧ Ingredients.ingredient_order <$> Ingredients.ingredients s
                   = seq 1 (length (Ingredients.ingredients s))) l.

Definition instruction_sections_in_shape (l : list Instructions.Section_)
    : Prop :=
  l ≠ []
  ∧ Instructions.section_order <$> l = seq 1 (length l)
  ∧ Forall (λ s, Instructions.instructions s ≠ []
                 ∧ Instructions.step_order <$> Instructions.instructions s
                   = seq 1 (length (Instructions.instructions s))) l.

(** The [formData] state.  The two times and the servings are the texts
    that the number inputs hold.  The image takes no part in
    validation. *)
Record FormData : Type := {
  recipe_name : string;
  recipe_description : string;
  course_type : string;
  recipe_type : string;
  primary_protein : string;
  ethnic_style : string;
  prep_time : string;
  cook_time : string;
  number_servings : string
}.

Definition initialFormData : FormData :=
  {| recipe_name := ""; recipe_description := "";
     course_type := ""; recipe_type := "";
     primary_protein := ""; ethnic_style := "";
     prep_time := ""; cook_time := "";
     number_servings := "" |}.

(** [!s.trim()] *)
Definition blank (s : string) : bool := negb (JS.truthy (JS.trim s)).

(** [!v || v < k], where [lt_k] is the comparison with the number [k]:
    the text is converted to a number for it. *)
Definition missing_or_below (v : string) (lt_k : JS.Number → bool) : bool :=
  negb (JS.truthy v) || lt_k (JS.ToNumber v).

(** What [validateForm] leaves behind: [true] with the error state
    untouched, or [false] after [setError(message)]. *)
Inductive Validation : Type :=
| Valid
| Invalid (message : string).

Definition returns (v : Validation) : bool :=
  match v with Valid => true | Invalid _ => false end.

(** The messages a validation outcome shows to the user. *)
Definition shown (v : Validation) : list string :=
  match v with Valid => [] | Invalid message => [message] end.

(** The inner loop [for (const ingredient of section.ingredients)]:
    the first failing ingredient ends the whole function. *)
Fixpoint check_ingredients (l : list Ingredients.Ingredient) : Validation :=
  match l with
  | [] => Valid
  | ingredient :: rest =>
      if blank (Ingredients.ingredient_name ingredient)
      then Invalid "All ingredients must have a name"
      else check_ingredients rest
  end.

(** [for (const section of ingredientSections)] *)
Fixpoint check_ingredient_sections (l : list Ingredients.Section_)
    : Validation :=
  match l with
  | [] => Valid
  | section :: rest =>
      if blank (Ingredients.section_title section)
      then Invalid "All ingredient sections must have a title"
      else if (length (Ingredients.ingredients section) =? 0)%nat
      then Invalid "Each ingredient section must have at least one ingredient"
      else match check_ingredients (Ingredients.ingredients section) with
           | Invalid message => Invalid message
           | Valid => check_ingredient_sections rest
           end
  end.

Fixpoint check_instructions (l : list Instructions.Instruction) : Validation :=
  match l with
  | [] => Valid
  | instruction :: rest =>
      if blank (Instructions.instruction_step instruction)
      then Invalid "All instruction steps must have text"
      else check_instructions rest
  end.

(** [for (const section of instructionSections)] *)
Fixpoint check_instruction_sections (l : list Instructions.Section_)
    : Validation :=
  match l with
  | [] => Valid
  | section :: rest =>
      if blank (Instructions.section_title section)
      then Invalid "All instruction sections must have a title"
      else if (length (Instructions.instructions section) =? 0)%nat
      then Invalid "Each instruction section must have at least one step"
      else match check_instructions (Instructions.instructions section) with
           | Invalid message => Invalid message
           | Valid => check_instruction_sections rest
           end
  end.

Definition validateForm (formData : FormData)
    (ingredientSections : list Ingredients.Section_)
    (instructionSections : list Instructions.Section_) : Validation :=
  if blank (recipe_name formData)
  then Invalid "Recipe name is required"
  else if blank (recipe_description formData)
  then Invalid "Recipe description is required"
  else if negb (JS.truthy (course_type formData))
  then Invalid "Course type is required"
  else if negb (JS.truthy (recipe_type formData))
  then Invalid "Recipe type is required"
  else if negb (JS.truthy (primary_protein formData))
  then Invalid "Primary protein is required"
  else if negb (JS.truthy (ethnic_style formData))
  then Invalid "Ethnic style is required"
  else if missing_or_below (prep_time formData) JS.lt_0
  then Invalid "Valid prep time is required"
  else if missing_or_below (cook_time formData) JS.lt_0
  then Invalid "Valid cook time is required"
  else if missing_or_below (number_servings formData) JS.lt_1
  then Invalid "Number of servings must be at least 1"
  else match check_ingredient_sections ingredientSections with
       | Invalid message => Invalid message
       | Valid => check_instruction_sections instructionSections
       end.

(** *** Every violated field, for comparison with [validateForm]

    The list of all the violations of a form, one message per violated
    field, found by running each test of [validateForm] on its own and
    in the order [validateForm] runs them. *)
Definition when (b : bool) (message : string) : list string :=
  if b then [message] else [].

Definition ingredient_violations (i : Ingredients.Ingredient) : list string :=
  when (blank (Ingredients.ingredient_name i))
       "All ingredients must have a name".

Definition ingredient_section_violations (s : Ingredients.Section_)
    : list string :=
  when (blank (Ingredients.section_title s))
       "All ingredient sections must have a title"
  ++ when (length (Ingredients.ingredients s) =? 0)%nat
       "Each ingredient section must have at least one ingredient"
  ++ concat (ingredient_violations <$> Ingredients.ingredients s).

Definition instruction_violations (i : Instructions.Instruction)
    : list string :=
  when (blank (Instructions.instruction_step i))
       "All instruction steps must have text".

Definition instruction_section_violations (s : Instructions.Section_)
    : list string :=
  when (blank (Instructions.section_title s))
       "All instruction sections must have a title"
  ++ when (length (Instructions.instructions s) =? 0)%nat
       "Each instruction section must have at least one step"
  ++ concat (instruction_violations <$> Instructions.instructions s).

Definition field_violations (formData : FormData) : list string :=
  when (blank (recipe_name formData)) "Recipe name is required"
  ++ when (blank (recipe_description formData))
       "Recipe description is required"
  ++ when (negb (JS.truthy (course_type formData))) "Course type is required"
  ++ when (negb (JS.truthy (recipe_type formData))) "Recipe type is required"
  ++ when (negb (JS.truthy (primary_protein formData)))
       "Primary protein is required"
  ++ when (negb (JS.truthy (ethnic_style formData)))
       "Ethnic style is required"
  ++ when (missing_or_below (prep_time formData) JS.lt_0)
       "Valid prep time is required"
  ++ when (missing_or_below (cook_time formData) JS.lt_0)
       "Valid cook time is required"
  ++ when (missing_or_below (number_servings formData) JS.lt_1)
       "Number of servings must be at least 1".

Definition violations (formData : FormData)
    (ingredientSections : list Ingredients.Section_)
    (instructionSections : list Instructions.Section_) : list string :=
  field_violations formData
  ++ concat (ingredient_section_violations <$> ingredientSections)
  ++ concat (instruction_section_violations <$> instructionSections).

End CreateRecipePage.

(** ** The browser as the pages see it

    [localStorage], [window.location.href], the timers of the event loop, the
    listeners on [window] and the HTTP exchanges.  A computation threads the
    world and writes down, in order, the effects that leave the page. *)
Module Browser.

(** The body of a request: none, a JSON object, or multipart form data. *)
Inductive Body : Type :=
| NoBody
| Json (fields : gmap string JS.Value)
| FormData (fields : list (string * string)).

(** An axios request configuration, with the [_retry] mark the response
    interceptor puts on it. *)
Record Config : Type := {
  method : string;
  url : string;
  params : gmap string JS.Value;
  data : Body;
  Authorization : option string;
  Content_Type : option string;
  timeout : Z;
  _retry : bool
}.

Definition set_Authorization (v : string) (c : Config) : Config :=
  {| method := method c; url := url c; params := params c; data := data c;
     Authorization := Some v; Content_Type := Content_Type c;
     timeout := timeout c; _retry := _retry c |}.

Definition set_Content_Type (v : string) (c : Config) : Config :=
  {| method := method c; url := url c; params := params c; data := data c;
     Authorization := Authorization c; Content_Type := Some v;
     timeout := timeout c; _retry := _retry c |}.

Definition set_retry (b : bool) (c : Config) : Config :=
  {| method := method c; url := url c; params := params c; data := data c;
     Authorization := Authorization c; Content_Type := Content_Type c;
     timeout := timeout c; _retry := b |}.

Record Response : Type := {
  status : Z;
  response_data : gmap string string
}.

(** What the network does with one request: it answers, or it does not
    (connection refused, timeout). *)
Inductive Outcome : Type :=
| Answer (r : Response)
| NoAnswer.

(** An axios error: the configuration of the failed request and the
    response, when there was one. *)
Record Error : Type := {
  config : Config;
  response : option Response
}.

(** A settled promise. *)
Inductive Settled (A : Type) : Type :=
| Resolved (a : A)
| Rejected (e : Error).
Arguments Resolved {A} a.
Arguments Rejected {A} e.

(** Which axios instance sent a request: [api], with its interceptors, or
    the bare [axios]. *)
Inductive Client : Type := ViaApi | ViaAxios.

Inductive Event : Type :=
| SetItem (key value : string)
| RemoveItem (key : string)
| Send (client : Client) (c : Config)
| Navigate (target : string).

Record World : Type := {
  storage : gmap string string;
  href : option string;
  network : list Outcome;
  now : Z;
  timers : list (positive * Z);
  next_timer : positive;
  listeners : list string
}.

Definition set_storage (f : gmap string string → gmap string string)
    (w : World) : World :=
  {| storage := f (storage w); href := href w; network := network w;
     now := now w; timers := timers w; next_timer := next_timer w;
     listeners := listeners w |}.

Definition set_href (target : string) (w : World) : World :=
  {| storage := storage w; href := Some target; network := network w;
     now := now w; timers := timers w; next_timer := next_timer w;
     listeners := listeners w |}.

Definition set_network (l : list Outcome) (w : World) : World :=
  {| storage := storage w; href := href w; network := l;
     now := now w; timers := timers w; next_timer := next_timer w;
     listeners := listeners w |}.

Definition set_now (t : Z) (w : World) : World :=
  {| storage := storage w; href := href w; network := network w;
     now := t; timers := timers w; next_timer := next_timer w;
     listeners := listeners w |}.

Definition set_timers (l : list (positive * Z)) (n : positive) (w : World)
    : World :=
  {| storage := storage w; href := href w; network := network w;
     now := now w; timers := l; next_timer := n;
     listeners := listeners w |}.

Definition set_listeners (l : list string) (w : World) : World :=
  {| storage := storage w; href := href w; network := network w;
     now := now w; timers := timers w; next_timer := next_timer w;
     listeners := l |}.

(** State and output: the new world and the events of the step. *)
Definition M (A : Type) : Type := World → A * World * list Event.

#[global] Instance M_ret : MRet M := λ A a w, (a, w, []).

#[global] Instance M_bind : MBind M := λ A B f m w,
  let '(a, w1, ev1) := m w in
  let '(b, w2, ev2) := f a w1 in
  (b, w2, ev1 ++ ev2).

Definition result {A} (r : A * World * list Event) : A := r.1.1.
Definition world {A} (r : A * World * list Event) : World := r.1.2.
Definition events {A} (r : A * World * list Event) : list Event := r.2.

(** *** localStorage *)
Definition getItem (key : string) : M (option string) :=
  λ w, (storage w !! key, w, []).

Definition setItem (key value : string) : M unit :=
  λ w, (tt, set_storage (insert key value) w, [SetItem key value]).

Definition removeItem (key : string) : M unit :=
  λ w, (tt, set_storage (delete key) w, [RemoveItem key]).

(** *** window.location.href = target *)
Definition assign_href (target : string) : M unit :=
  λ w, (tt, set_href target w, [Navigate target]).

(** *** Timers.  The handle [setTimeout] returns is a positive integer, so
    a stored handle is always truthy; each call hands out the successor of
    the handle before. *)
Definition setTimeout (delay : Z) : M positive :=
  λ w, let id := Pos.succ (next_timer w) in
       (id, set_timers (timers w ++ [(id, now w + delay)]) id w, []).

Definition clearTimeout (id : positive) : M unit :=
  λ w, (tt,
        set_timers (filter (λ t, t.1 ≠ id) (timers w)) (next_timer w) w,
        []).

(** *** window.addEventListener / removeEventListener, for the one handler
    the application registers *)
Definition add_listener (l : list string) (type : string) : list string :=
  if decide (type ∈ l) then l else l ++ [type].

Definition addEventListener (type : string) : M unit :=
  λ w, (tt, set_listeners (add_listener (listeners w) type) w, []).

Definition removeEventListener (type : string) : M unit :=
  λ w, (tt, set_listeners (filter (λ t, t ≠ type) (listeners w)) w, []).

(** *** One HTTP exchange: the request leaves, the next outcome of the
    network comes back.  axios resolves on a 2xx status and rejects on
    every other status and when there is no response at all. *)
Definition ok_status (s : Z) : bool := (200 <=? s) && (s <? 300).

Definition settle (c : Config) (o : Outcome) : Settled Response :=
  match o with
  | Answer r =>
      if ok_status (status r) then Resolved r
      else Rejected {| config := c; response := Some r |}
  | NoAnswer => Rejected {| config := c; response := None |}
  end.

(** The outcome of the [n]-th exchange from now; a network with nothing
    left to say does not answer. *)
Definition outcome (n : nat) (w : World) : Outcome :=
  default NoAnswer (network w !! n).

(** The world once an exchange has used up an outcome, and once the three
    keys of the session are gone. *)
Definition sent (w : World) : World := set_network (tail (network w)) w.

Definition cleared (w : World) : World :=
  set_storage (delete "user")
    (set_storage (delete "refresh_token")
       (set_storage (delete "access_token") w)).

Definition exchange (client : Client) (c : Config) : M (Settled Response) :=
  λ w, (settle c (outcome 0 w), sent w, [Send client c]).

(** The answers that make axios reject with [error.response.status === 401],
    and those that make it resolve. *)
Definition unauthorized (o : Outcome) : bool :=
  match o with
  | Answer r => status r =? 401
  | NoAnswer => false
  end.

Definition succeeds (o : Outcome) : bool :=
  match o with
  | Answer r => ok_status (status r)
  | NoAnswer => false
  end.

End Browser.

(** ** services/api.js: the axios instance and its interceptors *)
Module Api.
Import Browser.

(** [import.meta.env.VITE_API_URL], unset in a development build. *)
Definition VITE_API_URL : option string := None.

Definition API_BASE_URL : string :=
  match VITE_API_URL with
  | Some v => if JS.truthy v then v else "http://localhost:8000/api/v1"
  | None => "http://localhost:8000/api/v1"
  end.

(** A request as a caller hands it to [api.get], [api.post], ... *)
Definition request (m u : string) (p : gmap string JS.Value) (d : Body)
    : Config :=
  {| method := m; url := u; params := p; data := d;
     Authorization := None; Content_Type := None;
     timeout := 15000; _retry := false |}.

Definition is_FormData (d : Body) : bool :=
  match d with FormData _ => true | _ => false end.

(** Request interceptor: the bearer token from storage, and a JSON
    content type unless the body is form data. *)
Definition request_interceptor (c : Config) : M Config :=
  token ← getItem "access_token";
  let c1 :=
    match token with
    | Some t => if JS.truthy t then set_Authorization ("Bearer " +:+ t) c
                else c
    | None => c
    end in
  let c2 :=
    if negb (is_FormData (data c1)) then set_Content_Type "application/json" c1
    else c1 in
  mret c2.

(** The request as it leaves the request interceptor. *)
Definition intercepted (c : Config) (w : World) : Config :=
  result (request_interceptor c w).

(** Two configurations of one request: they differ at most in the headers
    and in the [_retry] mark. *)
Definition same_request (c' c : Config) : Prop :=
  method c' = method c ∧ url c' = url c
  ∧ params c' = params c ∧ data c' = data c.

(** [error.response?.status === 401] *)
Definition status_is_401 (e : Error) : bool :=
  match response e with
  | Some r => status r =? 401
  | None => false
  end.

(** The string a template literal or [setItem] makes of a field that may
    be missing from the response. *)
Definition to_string (o : option string) : string :=
  match o with
  | Some s => s
  | None => "undefined"
  end.

(** The three [removeItem] calls of a forced logout. *)
Definition clear_session : M unit :=
  removeItem "access_token";;
  removeItem "refresh_token";;
  removeItem "user".

(** [axios.post(url, { refresh }, { timeout: 15000 })] on the bare axios:
    no interceptor of [api] sees this request. *)
Definition refresh_request (refreshToken : string) : Config :=
  {| method := "post";
     url := API_BASE_URL +:+ "/auth/refresh/";
     params := ∅;
     data := Json {[ "refresh" := JS.Str refreshToken ]};
     Authorization := None; Content_Type := None;
     timeout := 15000; _retry := false |}.

Definition axios_post_refresh (refreshToken : string)
    : M (Settled Response) :=
  exchange ViaAxios (refresh_request refreshToken).

(** Response interceptor, rejection side.  [self] is [api], which the
    handler calls to retry the original request. *)
Definition on_rejected (self : Config → M (Settled Response)) (error : Error)
    : M (Settled Response) :=
  let originalRequest := config error in
  if status_is_401 error && negb (_retry originalRequest) then
    let originalRequest := set_retry true originalRequest in
    let error := {| config := originalRequest; response := response error |} in
    refreshToken ← getItem "refresh_token";
    if JS.truthy_item refreshToken then
      refreshed ← axios_post_refresh (to_string refreshToken);
      match refreshed with
      | Resolved r =>
          let access := to_string (response_data r !! "access") in
          setItem "access_token" access;;
          self (set_Authorization ("Bearer " +:+ access) originalRequest)
      | Rejected refreshError =>
          clear_session;;
          assign_href "/login?reason=session_expired";;
          mret (Rejected refreshError)
      end
    else
      clear_session;;
      assign_href "/login?reason=no_session";;
      mret (Rejected error)
  else mret (Rejected error).

(** One pass of a request through the instance: request interceptor,
    exchange, response interceptor. *)
Definition api_with (self : Config → M (Settled Response)) (c : Config)
    : M (Settled Response) :=
  sent ← request_interceptor c;
  settled ← exchange ViaApi sent;
  match settled with
  | Resolved r => mret (Resolved r)
  | Rejected error => on_rejected self error
  end.

(** [api] calls itself from its own response interceptor, and only with a
    request it has just marked [_retry]; a marked request is never handed
    to [self] again.  Two passes therefore tie the knot, and
    [api_unfold] below shows that [api] solves the recursive equation
    [api c = api_with api c] of the source. *)
Definition no_third_pass (c : Config) : M (Settled Response) :=
  mret (Rejected {| config := c; response := None |}).

Definition api (c : Config) : M (Settled Response) :=
  api_with (api_with no_third_pass) c.

Definition get (u : string) (p : gmap string JS.Value) : M (Settled Response) :=
  api (request "get" u p NoBody).

Definition post (u : string) (d : Body) : M (Settled Response) :=
  api (request "post" u ∅ d).

(** [api.delete(url)]; the name [delete] is that of the map operation. *)
Definition delete_ (u : string) : M (Settled Response) :=
  api (request "delete" u ∅ NoBody).

(** *** Reading the events of a run *)
Definition is_refresh (e : Event) : bool :=
  match e with
  | Send ViaAxios _ => true
  | _ => false
  end.

Definition is_send_via_api (e : Event) : bool :=
  match e with
  | Send ViaApi _ => true
  | _ => false
  end.

(** How many token refreshes a run attempted, and how often it sent a
    request through [api]. *)
Definition refreshes (l : list Event) : nat :=
  length (List.filter is_refresh l).

Definition sends (l : list Event) : nat :=
  length (List.filter is_send_via_api l).

(** The three removals of a forced logout, the login routes it may go to,
    and the property that every redirect among the events of a run goes to
    one of these routes and comes right after the three removals. *)
Definition session_removals : list Event :=
  [RemoveItem "access_token"; RemoveItem "refresh_token"; RemoveItem "user"].

Definition forced_logout_targets : list string :=
  [ "/login?reason=session_expired";
    "/login?reason=no_session";
    "/login?reason=inactivity" ].

Definition redirects_after_clearing (l : list Event) : Prop :=
  ∀ before target after,
    l = before ++ Navigate target :: after →
    target ∈ forced_logout_targets
    ∧ ∃ earlier, before = earlier ++ session_removals.

End Api.

(** ** services/authService.js *)
Module AuthService.
Import Browser.

Definition USER_KEY : string := "user".
Definition ACCESS_KEY : string := "access_token".
Definition REFRESH_KEY : string := "refresh_token".

Definition clearCurrentUser : M unit := removeItem USER_KEY.

(** [logout]: the request to the server is made only with a refresh
    token; whatever it does, the [finally] block runs. *)
Definition logout : M unit :=
  refreshToken ← getItem REFRESH_KEY;
  (if JS.truthy_item refreshToken then
     Api.post "/auth/logout/"
       (Json {[ "refresh" := JS.Str (Api.to_string refreshToken) ]});;
     mret tt
   else mret tt);;
  removeItem ACCESS_KEY;;
  removeItem REFRESH_KEY;;
  clearCurrentUser.

(** The earlier revision of the file, with the three keys written out. *)
Definition logout_v1 : M unit :=
  refreshToken ← getItem "refresh_token";
  (if JS.truthy_item refreshToken then
     Api.post "/auth/logout/"
       (Json {[ "refresh" := JS.Str (Api.to_string refreshToken) ]});;
     mret tt
   else mret tt);;
  removeItem "access_token";;
  removeItem "refresh_token";;
  removeItem "user".

Section WithJSON.
(** The user object and the two JSON built-ins.  [JSON_parse] gives
    [None] where [JSON.parse] throws and where the parsed value is
    falsy: [getCurrentUser] turns the first into [null], and its callers
    only test the result for truthiness. *)
Context {User : Type}.
Variable JSON_parse : string → option User.
Variable JSON_stringify : User → string.

Definition getCurrentUser : M (option User) :=
  userStr ← getItem USER_KEY;
  if JS.truthy_item userStr then mret (JSON_parse (Api.to_string userStr))
  else mret None.

(** The user that [getCurrentUser] finds in a given world. *)
Definition currentUser (w : World) : option User :=
  result (getCurrentUser w).

Definition setCurrentUser (user : option User) : M unit :=
  match user with
  | None => mret tt
  | Some u => setItem USER_KEY (JSON_stringify u)
  end.

(** [!!localStorage.getItem(ACCESS_KEY)] *)
Definition isAuthenticated : M bool :=
  token ← getItem ACCESS_KEY;
  mret (JS.truthy_item token).

(** [String.prototype.toLowerCase], and the [user] field of the data of a
    login response: [None] when the field is missing or falsy. *)
Variable toLowerCase : string → string.
Variable user_of : Response → option User.

(** [login]: a rejected request throws out of the function before anything
    is stored. *)
Definition login (email password : string) : M (Settled (option User)) :=
  response ←
    Api.post "/auth/login/"
      (Json {[ "email" := JS.Str (JS.trim (toLowerCase email));
               "password" := JS.Str password ]});
  match response with
  | Resolved r =>
      setItem ACCESS_KEY (Api.to_string (response_data r !! "access"));;
      setItem REFRESH_KEY (Api.to_string (response_data r !! "refresh"));;
      setCurrentUser (user_of r);;
      mret (Resolved (user_of r))
  | Rejected e => mret (Rejected e)
  end.
End WithJSON.

End AuthService.

(** ** context/AuthContext.jsx: AuthProvider and its inactivity timer *)
Module AuthContext.
Import Browser.

(** 12 hours in milliseconds. *)
Definition INACTIVITY_TIMEOUT : Z := 12 * 60 * 60 * 1000.

Definition activityEvents : list string :=
  ["mousedown"; "keydown"; "scroll"; "touchstart"; "click"].

(** The state of the provider: the two [useState] cells and the
    [useRef] that holds the timer handle. *)
Record State (User : Type) : Type := {
  user : option User;
  loading : bool;
  inactivityTimerRef : option positive
}.
Arguments user {User} s.
Arguments loading {User} s.
Arguments inactivityTimerRef {User} s.

Definition isAuthenticated {User} (s : State User) : bool :=
  match user s with Some _ => true | None => false end.

Section Provider.
Context {User : Type}.
Variable JSON_parse : string → option User.
Variable JSON_stringify : User → string.

Definition initialState : State User :=
  {| user := None; loading := true; inactivityTimerRef := None |}.

Definition setUserState (u : option User) (s : State User) : State User :=
  {| user := u; loading := loading s;
     inactivityTimerRef := inactivityTimerRef s |}.

Definition setLoading (b : bool) (s : State User) : State User :=
  {| user := user s; loading := b;
     inactivityTimerRef := inactivityTimerRef s |}.

Definition set_current (h : option positive) (s : State User)
    : State User :=
  {| user := user s; loading := loading s; inactivityTimerRef := h |}.

Definition clearInactivityTimer (s : State User) : M (State User) :=
  match inactivityTimerRef s with
  | Some id => clearTimeout id;; mret (set_current None s)
  | None => mret s
  end.

Definition handleInactivityLogout (s : State User) : M (State User) :=
  AuthService.logout;;
  let s := setUserState None s in
  assign_href "/login?reason=inactivity";;
  mret s.

Definition resetInactivityTimer (s : State User) : M (State User) :=
  s ← clearInactivityTimer s;
  current ← AuthService.getCurrentUser JSON_parse;
  match current with
  | Some _ =>
      id ← setTimeout INACTIVITY_TIMEOUT;
      mret (set_current (Some id) s)
  | None => mret s
  end.

Definition setUser (nextUser : option User) (s : State User)
    : M (State User) :=
  let s := setUserState nextUser s in
  match nextUser with
  | Some _ =>
      AuthService.setCurrentUser JSON_stringify nextUser;;
      resetInactivityTimer s
  | None =>
      AuthService.clearCurrentUser;;
      clearInactivityTimer s
  end.

Definition handleActivity (s : State User) : M (State User) :=
  current ← AuthService.getCurrentUser JSON_parse;
  match current with
  | Some _ => resetInactivityTimer s
  | None => mret s
  end.

Fixpoint forEach (f : string → M unit) (l : list string) : M unit :=
  match l with
  | [] => mret tt
  | x :: rest => f x;; forEach f rest
  end.

(** The body of [useEffect], run when the provider mounts. *)
Definition mount (s : State User) : M (State User) :=
  currentUser ← AuthService.getCurrentUser JSON_parse;
  s ← match currentUser with
      | Some _ => resetInactivityTimer (setUserState currentUser s)
      | None => mret s
      end;
  let s := setLoading false s in
  forEach addEventListener activityEvents;;
  mret s.

(** The cleanup function that [useEffect] returns. *)
Definition unmount (s : State User) : M (State User) :=
  s ← clearInactivityTimer s;
  forEach removeEventListener activityEvents;;
  mret s.

Definition logout (s : State User) : M (State User) :=
  s ← clearInactivityTimer s;
  AuthService.logout;;
  setUser None s.

(** *** The event loop around the provider *)

(** An event of the given type reaches [window]: [handleActivity] runs
    when it is registered for that type. *)
Definition dispatchEvent (type : string) (s : State User)
    : M (State User) :=
  λ w, if decide (type ∈ listeners w) then handleActivity s w
       else (s, w, []).

Fixpoint dispatchAll (types : list string) (s : State User)
    : M (State User) :=
  match types with
  | [] => mret s
  | type :: rest => s ← dispatchEvent type s; dispatchAll rest s
  end.

Fixpoint fire (due : list (positive * Z)) (s : State User)
    : M (State User) :=
  match due with
  | [] => mret s
  | _ :: rest => s ← handleInactivityLogout s; fire rest s
  end.

(** [dt] milliseconds pass with no event: the timers whose time has
    come leave the table and their callback, which is always
    [handleInactivityLogout], runs. *)
Definition advance (dt : Z) (s : State User) : M (State User) :=
  λ w,
    let t := now w + dt in
    let due := filter (λ x, x.2 ≤ t) (timers w) in
    let pending := filter (λ x, ¬ x.2 ≤ t) (timers w) in
    fire due s (set_now t (set_timers pending (next_timer w) w)).

(** [logout] with user activity while the logout request is in flight:
    the events of [arrivals] reach the window after the synchronous
    start of [logout] and before the server has answered, when the
    stored user is still there. *)
Definition logout_interleaved (arrivals : list string) (s : State User)
    : M (State User) :=
  s ← clearInactivityTimer s;
  s ← dispatchAll arrivals s;
  AuthService.logout;;
  setUser None s.

(** Code outside the provider (the services, the interceptors, another
    tab) may change the storage, the location and the network; it owns
    no timer and no listener, and the clock is not its to move. *)
Definition elsewhere (w w' : World) : Prop :=
  timers w' = timers w ∧ next_timer w' = next_timer w
  ∧ listeners w' = listeners w ∧ now w' = now w.

(** A page freshly loaded: nothing pending, nothing registered. *)
Definition fresh (w : World) : Prop :=
  timers w = [] ∧ listeners w = [].

(** The states the provider can be in. *)
Inductive reachable : State User → World → Prop :=
| reach_mount w r :
    fresh w → r = mount initialState w →
    reachable (result r) (world r)
| reach_event s w type r :
    reachable s w → r = dispatchEvent type s w →
    reachable (result r) (world r)
| reach_advance s w dt r :
    reachable s w → 0 ≤ dt → r = advance dt s w →
    reachable (result r) (world r)
| reach_setUser s w u r :
    reachable s w → r = setUser u s w →
    reachable (result r) (world r)
| reach_logout s w arrivals r :
    reachable s w → r = logout_interleaved arrivals s w →
    reachable (result r) (world r)
| reach_unmount s w r :
    reachable s w → r = unmount s w →
    reachable (result r) (world r)
| reach_elsewhere s w w' :
    reachable s w → elsewhere w w' → reachable s w'.

(** The states of the provider while it is mounted: those it reaches
    without running the cleanup of its effect. *)
Inductive active : State User → World → Prop :=
| active_mount w r :
    fresh w → r = mount initialState w →
    active (result r) (world r)
| active_event s w type r :
    active s w → r = dispatchEvent type s w →
    active (result r) (world r)
| active_advance s w dt r :
    active s w → 0 ≤ dt → r = advance dt s w →
    active (result r) (world r)
| active_setUser s w u r :
    active s w → r = setUser u s w →
    active (result r) (world r)
| active_logout s w arrivals r :
    active s w → r = logout_interleaved arrivals s w →
    active (result r) (world r)
| active_elsewhere s w w' :
    active s w → elsewhere w w' → active s w'.

(** Every pending timer is the one the ref points to. *)
Definition timer_tracked (s : State User) (w : World) : Prop :=
  timers w = [] ∨
  ∃ id d, timers w = [(id, d)] ∧ inactivityTimerRef s = Some id.

Definition logged_in (w : World) : Prop :=
  is_Some (AuthService.currentUser JSON_parse w).

Definition session_cleared (w : World) : Prop :=
  storage w !! "access_token" = None
  ∧ storage w !! "refresh_token" = None
  ∧ storage w !! "user" = None.

(** [login] of the provider: the service logs in, then the write-through
    setter takes the user; a rejected login throws before [setUser]. *)
Variable toLowerCase : string → string.
Variable user_of : Response → option User.

Definition login (email password : string) (s : State User)
    : M (Settled (option User) * State User) :=
  settled ← AuthService.login JSON_stringify toLowerCase user_of email password;
  match settled with
  | Resolved loggedInUser =>
      s ← setUser loggedInUser s;
      mret (Resolved loggedInUser, s)
  | Rejected e => mret (Rejected e, s)
  end.

(** Every pending timer is due after now and at most [INACTIVITY_TIMEOUT]
    from now. *)
Definition timers_within_timeout (w : World) : Prop :=
  ∀ id due, (id, due) ∈ timers w →
    now w < due ∧ due ≤ now w + INACTIVITY_TIMEOUT.

End Provider.

End AuthContext.

(** ** services/recipeService.js and services/commentService.js *)
Module RecipeService.
Import Browser.

Definition getRecipes (p : gmap string JS.Value) : M (Settled Response) :=
  Api.get "/recipes/" p.

(** The object that [handleSubmit] of CreateRecipePage hands to
    [createRecipe].  The three numbers come out of [parseInt]: [None] is
    [NaN], and an integer is the one [parseInt] read, before it is rounded
    to a double.  The image is the chosen file, if there is one. *)
Record RecipeData : Type := {
  recipe_name : string;
  recipe_description : string;
  course_type : string;
  recipe_type : string;
  primary_protein : string;
  ethnic_style : string;
  prep_time : option Z;
  cook_time : option Z;
  number_servings : option Z;
  recipe_image : option string;
  ingredient_sections : list Ingredients.Section_;
  instruction_sections : list Instructions.Section_
}.

Section WithJSON.
(** [JSON.stringify] on the two section lists. *)
Variable stringify_ingredient_sections : list Ingredients.Section_ → string.
Variable stringify_instruction_sections
  : list Instructions.Section_ → string.

(** The text [FormData.append] makes of a number: [NaN], or the decimal
    numeral of an integer that a double holds exactly.  Beyond [2 ^ 53]
    the number is the nearest double and the text is the one that
    [Number.prototype.toString] gives for it, which [large_number_text]
    stands for. *)
Variable large_number_text : Z → string.

Definition number_text (n : option Z) : string :=
  match n with
  | Some n => if Z.abs n <=? 2 ^ 53 then pretty n else large_number_text n
  | None => "NaN"
  end.

(** The fields of the multipart body, in the order of the [append]
    calls. *)
Definition form_fields (recipeData : RecipeData) : list (string * string) :=
  [ ("recipe_name", recipe_name recipeData);
    ("recipe_description", recipe_description recipeData);
    ("course_type", course_type recipeData);
    ("recipe_type", recipe_type recipeData);
    ("primary_protein", primary_protein recipeData);
    ("ethnic_style", ethnic_style recipeData);
    ("prep_time", number_text (prep_time recipeData));
    ("cook_time", number_text (cook_time recipeData));
    ("number_servings", number_text (number_servings recipeData)) ]
  ++ match recipe_image recipeData with
     | Some file => [("recipe_image", file)]
     | None => []
     end
  ++ [ ("ingredient_sections",
        stringify_ingredient_sections (ingredient_sections recipeData));
       ("instruction_sections",
        stringify_instruction_sections (instruction_sections recipeData)) ].

(** [createRecipe], in the revision with image upload that the page is
    written for. *)
Definition createRecipe (recipeData : RecipeData) : M (Settled Response) :=
  Api.post "/recipes/" (FormData (form_fields recipeData)).
End WithJSON.

End RecipeService.

Module CommentService.
Import Browser.

(** The text of a value inside a template literal, for the values a
    recipe id takes. *)
Definition template (v : JS.Value) : string :=
  match v with
  | JS.Str s => s
  | JS.Num n => pretty n
  | JS.Null => "null"
  | JS.Undefined => "undefined"
  end.

Definition getComments (recipeId : JS.Value) : M (Settled Response) :=
  Api.get ("/recipes/comments/?recipe=" +:+ template recipeId) ∅.

Definition createComment (recipeId : JS.Value) (commentText : string)
    : M (Settled Response) :=
  Api.post "/recipes/comments/"
    (Json {[ "recipe" := recipeId; "comment_text" := JS.Str commentText ]}).

Definition deleteComment (commentId : JS.Value) : M (Settled Response) :=
  Api.delete_ ("/recipes/comments/" +:+ template commentId +:+ "/").

End CommentService.

(** ** pages/RecipeListPage.jsx and pages/MyRecipesPage.jsx: the parameter
    object of the list request *)
Module RecipeListPage.
Import Browser.

Record Filters : Type := {
  course_type : string;
  recipe_type : string;
  primary_protein : string;
  ethnic_style : string
}.

(** [{ ...filters }] *)
Definition spread_filters (filters : Filters) : gmap string JS.Value :=
  <[ "ethnic_style" := JS.Str (ethnic_style filters) ]>
  (<[ "primary_protein" := JS.Str (primary_protein filters) ]>
  (<[ "recipe_type" := JS.Str (recipe_type filters) ]>
  (<[ "course_type" := JS.Str (course_type filters) ]> ∅))).

(** [...(searchTerm && { search: searchTerm })]: spreading [''] adds
    nothing. *)
Definition spread_search (searchTerm : string)
    (o : gmap string JS.Value) : gmap string JS.Value :=
  if JS.truthy searchTerm then <[ "search" := JS.Str searchTerm ]> o else o.

(** [Object.keys(params)]: the keys the object has before the loop
    starts. *)
Definition keys (o : gmap string JS.Value) : list string :=
  (map_to_list o).*1.

(** [if (params[key] === '') delete params[key]] *)
Definition delete_if_empty (o : gmap string JS.Value) (key : string)
    : gmap string JS.Value :=
  match o !! key with
  | Some v => if JS.is_empty_string v then delete key o else o
  | None => o
  end.

(** What the loop leaves of the entry of a key it visits. *)
Definition kept (entry : option JS.Value) : option JS.Value :=
  match entry with
  | Some v => if JS.is_empty_string v then None else Some v
  | None => None
  end.

(** [Object.keys(params).forEach(...)] *)
Definition remove_empty (o : gmap string JS.Value) : gmap string JS.Value :=
  foldl delete_if_empty o (keys o).

(** What a request carries for a filter or a search term of the given
    value: nothing for [''], the value itself otherwise. *)
Definition carried (value : string) : option JS.Value :=
  if JS.is_empty value then None else Some (JS.Str value).

(** The [params] of [fetchRecipes] when the request is made. *)
Definition params_of (filters : Filters) (searchTerm : string)
    : gmap string JS.Value :=
  remove_empty (spread_search searchTerm (spread_filters filters)).

(** The request of [fetchRecipes]; what the page does with the answer
    changes no request. *)
Definition fetchRecipes (filters : Filters) (searchTerm : string)
    : M (Settled Response) :=
  RecipeService.getRecipes (params_of filters searchTerm).

(** The names the four selects of the page pass to [handleFilterChange],
    and the key each of them stands for. *)
Inductive FilterName : Type :=
| CourseType
| RecipeType
| PrimaryProtein
| EthnicStyle.

Definition key_of (filterName : FilterName) : string :=
  match filterName with
  | CourseType => "course_type"
  | RecipeType => "recipe_type"
  | PrimaryProtein => "primary_protein"
  | EthnicStyle => "ethnic_style"
  end.

(** [{ ...prev, [filterName]: value }] *)
Definition handleFilterChange (filterName : FilterName) (value : string)
    (prev : Filters) : Filters :=
  match filterName with
  | CourseType =>
      {| course_type := value; recipe_type := recipe_type prev;
         primary_protein := primary_protein prev;
         ethnic_style := ethnic_style prev |}
  | RecipeType =>
      {| course_type := course_type prev; recipe_type := value;
         primary_protein := primary_protein prev;
         ethnic_style := ethnic_style prev |}
  | PrimaryProtein =>
      {| course_type := course_type prev; recipe_type := recipe_type prev;
         primary_protein := value; ethnic_style := ethnic_style prev |}
  | EthnicStyle =>
      {| course_type := course_type prev; recipe_type := recipe_type prev;
         primary_protein := primary_protein prev; ethnic_style := value |}
  end.

(** [clearFilters]: the new filters and the new search term.  Both list
    pages have the same two handlers. *)
Definition clearFilters : Filters * string :=
  ({| course_type := ""; recipe_type := "";
      primary_protein := ""; ethnic_style := "" |}, "").

End RecipeListPage.

Module MyRecipesPage.
Import Browser.

(** [user?.id] is whatever the stored user carries as its id, or
    [undefined] without a user. *)
Definition params_of (filters : RecipeListPage.Filters) (user_id : JS.Value)
    (searchTerm : string) : gmap string JS.Value :=
  RecipeListPage.remove_empty
    (RecipeListPage.spread_search searchTerm
       (<[ "uploaded_by" := user_id ]>
          (RecipeListPage.spread_filters filters))).

Definition fetchMyRecipes (filters : RecipeListPage.Filters)
    (user_id : JS.Value) (searchTerm : string) : M (Settled Response) :=
  RecipeService.getRecipes (params_of filters user_id searchTerm).

End MyRecipesPage.

(** ** CreateRecipePage: submitting the form *)
Module CreateRecipeSubmit.
Import Browser.

(** The [loading] and [error] states of the page. *)
Record State : Type := {
  loading : bool;
  error : string
}.

Definition setLoading (b : bool) (s : State) : State :=
  {| loading := b; error := error s |}.

Definition setError (e : string) (s : State) : State :=
  {| loading := loading s; error := e |}.

(** The [recipeData] that [handleSubmit] prepares. *)
Definition recipeData_of (formData : CreateRecipePage.FormData)
    (recipe_image : option string)
    (ingredientSections : list Ingredients.Section_)
    (instructionSections : list Instructions.Section_)
    : RecipeService.RecipeData :=
  {| RecipeService.recipe_name :=
       JS.trim (CreateRecipePage.recipe_name formData);
     RecipeService.recipe_description :=
       JS.trim (CreateRecipePage.recipe_description formData);
     RecipeService.course_type := CreateRecipePage.course_type formData;
     RecipeService.recipe_type := CreateRecipePage.recipe_type formData;
     RecipeService.primary_protein :=
       CreateRecipePage.primary_protein formData;
     RecipeService.ethnic_style := CreateRecipePage.ethnic_style formData;
     RecipeService.prep_time :=
       JS.parseInt (CreateRecipePage.prep_time formData);
     RecipeService.cook_time :=
       JS.parseInt (CreateRecipePage.cook_time formData);
     RecipeService.number_servings :=
       JS.parseInt (CreateRecipePage.number_servings formData);
     RecipeService.recipe_image := recipe_image;
     RecipeService.ingredient_sections := ingredientSections;
     RecipeService.instruction_sections := instructionSections |}.

Section WithJSON.
Variable stringify_ingredient_sections : list Ingredients.Section_ → string.
Variable stringify_instruction_sections
  : list Instructions.Section_ → string.
Variable large_number_text : Z → string.
(** The message that the [catch] block takes out of the data of an error
    response. *)
Variable first_error : Response → string.

Definition error_message (err : Error) : string :=
  match response err with
  | Some r => first_error r
  | None => "Failed to create recipe. Please try again."
  end.

(** [handleSubmit]; the second component of the result is the route that
    [navigate] was called with, if it was called. *)
Definition handleSubmit (formData : CreateRecipePage.FormData)
    (recipe_image : option string)
    (ingredientSections : list Ingredients.Section_)
    (instructionSections : list Instructions.Section_)
    (s : State) : M (State * option string) :=
  let s := setError "" s in
  match CreateRecipePage.validateForm formData ingredientSections
          instructionSections with
  | CreateRecipePage.Invalid message => mret (setError message s, None)
  | CreateRecipePage.Valid =>
      let s := setLoading true s in
      created ←
        RecipeService.createRecipe stringify_ingredient_sections
          stringify_instruction_sections large_number_text
          (recipeData_of formData recipe_image ingredientSections
             instructionSections);
      match created with
      | Resolved newRecipe =>
          mret (setLoading false s,
                Some ("/recipes/"
                      +:+ Api.to_string (response_data newRecipe !! "id")))
      | Rejected err =>
          mret (setLoading false (setError (error_message err) s), None)
      end
  end.
End WithJSON.

End CreateRecipeSubmit.

(** ** components/recipes/CommentSection.jsx *)
Module CommentSection.
Import Browser.

(** The state cells of the component that the form drives.  The list of
    comments is display data and is left out. *)
Record State : Type := {
  loading : bool;
  submitting : bool;
  commentText : string;
  error : string
}.

Definition setLoading (b : bool) (s : State) : State :=
  {| loading := b; submitting := submitting s;
     commentText := commentText s; error := error s |}.

Definition setSubmitting (b : bool) (s : State) : State :=
  {| loading := loading s; submitting := b;
     commentText := commentText s; error := error s |}.

Definition setCommentText (t : string) (s : State) : State :=
  {| loading := loading s; submitting := submitting s;
     commentText := t; error := error s |}.

Definition setError (e : string) (s : State) : State :=
  {| loading := loading s; submitting := submitting s;
     commentText := commentText s; error := e |}.

Definition fetchComments (recipeId : JS.Value) (s : State) : M State :=
  let s := setError "" (setLoading true s) in
  fetched ← CommentService.getComments recipeId;
  let s :=
    match fetched with
    | Resolved _ => s
    | Rejected _ => setError "Failed to load comments." s
    end in
  mret (setLoading false s).

(** [err.response?.data?.detail || 'Failed to post comment. ...'] *)
Definition detail_or_default (e : Error) : string :=
  match response e with
  | Some r =>
      match response_data r !! "detail" with
      | Some d => if JS.truthy d then d
                  else "Failed to post comment. Please try again."
      | None => "Failed to post comment. Please try again."
      end
  | None => "Failed to post comment. Please try again."
  end.

Definition handleSubmit (recipeId : JS.Value) (s : State) : M State :=
  if negb (JS.truthy (JS.trim (commentText s))) then
    mret (setError "Comment cannot be empty." s)
  else
    let s := setError "" (setSubmitting true s) in
    created ← CommentService.createComment recipeId (JS.trim (commentText s));
    s ← match created with
        | Resolved _ => fetchComments recipeId (setCommentText "" s)
        | Rejected err => mret (setError (detail_or_default err) s)
        end;
    mret (setSubmitting false s).

(** [err.response?.data?.detail || fallback] *)
Definition detail_or (fallback : string) (e : Error) : string :=
  match response e with
  | Some r =>
      match response_data r !! "detail" with
      | Some d => if JS.truthy d then d else fallback
      | None => fallback
      end
  | None => fallback
  end.

(** [handleDelete]; [confirmed] is what [window.confirm] returned, and the
    second component of the result is the text of the [alert], if one was
    shown. *)
Definition handleDelete (confirmed : bool) (recipeId commentId : JS.Value)
    (s : State) : M (State * option string) :=
  if negb confirmed then mret (s, None)
  else
    deleted ← CommentService.deleteComment commentId;
    match deleted with
    | Resolved _ =>
        s ← fetchComments recipeId s;
        mret (s, None)
    | Rejected err =>
        mret (s, Some (detail_or "Failed to delete comment. Please try again."
                         err))
    end.

(** What the component renders. *)
Inductive View : Type :=
| RenderNothing
| Spinner
| Thread (comment_form : bool) (login_prompt : bool).

Definition value_truthy (v : JS.Value) : bool :=
  match v with
  | JS.Undefined | JS.Null => false
  | JS.Num n => negb (n =? 0)
  | JS.Str t => JS.truthy t
  end.

Definition render (recipeId : JS.Value) (isAuthenticated : bool) (s : State)
    : View :=
  if negb (value_truthy recipeId) then RenderNothing
  else if loading s then Spinner
  else if isAuthenticated then Thread true false
  else Thread false true.

Definition shows_form (v : View) : bool :=
  match v with
  | Thread comment_form _ => comment_form
  | _ => false
  end.

(** The create requests among the events of a run. *)
Definition is_create (e : Event) : bool :=
  match e with
  | Send _ c => String.eqb (method c) "post"
                && String.eqb (url c) "/recipes/comments/"
  | _ => false
  end.

Definition comment_text_of (c : Config) : option JS.Value :=
  match data c with
  | Json fields => fields !! "comment_text"
  | _ => None
  end.

End CommentSection.

(** ** The recipe model of the backend *)
Module Backend.

(** Modelled from the spec: [computeTotalTime] belongs to the backend, whose
    sources are not among those of the front end; section 4.1 gives it as
    [prep + cook]. *)
Definition computeTotalTime (prep cook : Z) : Z := prep + cook.

(** Modelled from the spec: the two times of the payload of a nested write
    (section 4.3); the backend's serializer is not among the sources. *)
Record Payload : Type := {
  payload_prep_time : Z;
  payload_cook_time : Z
}.

(** Modelled from the spec: the stored recipe of the backend, which keeps
    [prep_time] and [cook_time] and no total of its own (section 3: the
    total is never stored independently of its inputs). *)
Record Row : Type := {
  row_prep_time : Z;
  row_cook_time : Z
}.

(** Modelled from the spec: the materialized recipe that the backend
    returns, with its computed total time (section 2). *)
Record Returned : Type := {
  prep_time : Z;
  cook_time : Z;
  total_time : Z
}.

(** Modelled from the spec: step 2 of the backend's create (section 4.3),
    for the two times. *)
Definition row_of (p : Payload) : Row :=
  {| row_prep_time := payload_prep_time p;
     row_cook_time := payload_cook_time p |}.

(** Modelled from the spec: the backend's read-back (section 4.3, step 5),
    which derives [total_time] from the two stored times. *)
Definition read_back (r : Row) : Returned :=
  {| prep_time := row_prep_time r;
     cook_time := row_cook_time r;
     total_time := computeTotalTime (row_prep_time r) (row_cook_time r) |}.

(** Modelled from the spec: the part of the backend's validation
    (section 4.1) that concerns the two times, which must not be
    negative. *)
Definition valid (p : Payload) : bool :=
  (0 <=? payload_prep_time p) && (0 <=? payload_cook_time p).

(** Modelled from the spec: the backend's create (section 4.3): a valid
    payload is stored under a new id and read back. *)
Definition create (p : Payload) (store : gmap nat Row)
    : option (nat * Returned * gmap nat Row) :=
  if valid p then
    let id := fresh (dom store) in
    Some (id, read_back (row_of p), <[ id := row_of p ]> store)
  else None.

(** Modelled from the spec: the backend's update (section 4.3): same
    validation, the stored recipe is replaced and read back. *)
Definition update (id : nat) (p : Payload) (store : gmap nat Row)
    : option (Returned * gmap nat Row) :=
  if valid p then
    match store !! id with
    | Some _ => Some (read_back (row_of p), <[ id := row_of p ]> store)
    | None => None
    end
  else None.

(** Modelled from the spec: the backend's single-recipe read
    (section 4.3). *)
Definition read (id : nat) (store : gmap nat Row) : option Returned :=
  read_back <$> store !! id.

End Backend.

(** ** Sample data *)

(** Three sections and three ingredients to try the handlers on. *)
Definition three_ingredients : list Ingredients.Ingredient :=
  [ {| Ingredients.ingredient_quantity := "200";
       Ingredients.ingredient_uom := "g";
       Ingredients.ingredient_name := "spaghetti";
       Ingredients.ingredient_order := 1 |};
    {| Ingredients.ingredient_quantity := "2";
       Ingredients.ingredient_uom := "";
       Ingredients.ingredient_name := "eggs";
       Ingredients.ingredient_order := 2 |};
    {| Ingredients.ingredient_quantity := "50";
       Ingredients.ingredient_uom := "g";
       Ingredients.ingredient_name := "pecorino";
       Ingredients.ingredient_order := 3 |} ].

Definition three_ingredient_sections : list Ingredients.Section_ :=
  [ {| Ingredients.section_title := "Main Ingredients";
       Ingredients.section_order := 1;
       Ingredients.ingredients := three_ingredients |};
    {| Ingredients.section_title := "Sauce";
       Ingredients.section_order := 2;
       Ingredients.ingredients := [Ingredients.blank_ingredient 1] |};
    {| Ingredients.section_title := "Garnish";
       Ingredients.section_order := 3;
       Ingredients.ingredients := [Ingredients.blank_ingredient 1] |} ].

Definition three_instructions : list Instructions.Instruction :=
  [ {| Instructions.instruction_step := "Boil the water";
       Instructions.step_order := 1 |};
    {| Instructions.instruction_step := "Cook the spaghetti";
       Instructions.step_order := 2 |};
    {| Instructions.instruction_step := "Stir in the eggs";
       Instructions.step_order := 3 |} ].

Definition three_instruction_sections : list Instructions.Section_ :=
  [ {| Instructions.section_title := "Preparation";
       Instructions.section_order := 1;
       Instructions.instructions := three_instructions |};
    {| Instructions.section_title := "Cooking Steps";
       Instructions.section_order := 2;
       Instructions.instructions := [Instructions.blank_instruction 1] |};
    {| Instructions.section_title := "Serving";
       Instructions.section_order := 3;
       Instructions.instructions := [Instructions.blank_instruction 1] |} ].

(** The example recipe of the specification, and the same form with a blank
    name and no servings. *)
Definition carbonara_ingredients : list Ingredients.Section_ :=
  [ {| Ingredients.section_title := "Main Ingredients";
       Ingredients.section_order := 1;
       Ingredients.ingredients :=
         [ {| Ingredients.ingredient_quantity := "";
              Ingredients.ingredient_uom := "";
              Ingredients.ingredient_name := "spaghetti";
              Ingredients.ingredient_order := 1 |} ] |} ].

Definition carbonara_instructions : list Instructions.Section_ :=
  [ {| Instructions.section_title := "Cooking Steps";
       Instructions.section_order := 1;
       Instructions.instructions :=
         [ {| Instructions.instruction_step := "Cook spaghetti...";
              Instructions.step_order := 1 |} ] |} ].

Definition carbonara : CreateRecipePage.FormData :=
  {| CreateRecipePage.recipe_name := "Spaghetti Carbonara";
     CreateRecipePage.recipe_description := "A Roman classic";
     CreateRecipePage.course_type := "Dinner";
     CreateRecipePage.recipe_type := "Main Dish";
     CreateRecipePage.primary_protein := "Pork";
     CreateRecipePage.ethnic_style := "Italian";
     CreateRecipePage.prep_time := "10";
     CreateRecipePage.cook_time := "20";
     CreateRecipePage.number_servings := "4" |}.

Definition blank_name_no_servings : CreateRecipePage.FormData :=
  {| CreateRecipePage.recipe_name := "  ";
     CreateRecipePage.recipe_description := "A Roman classic";
     CreateRecipePage.course_type := "Dinner";
     CreateRecipePage.recipe_type := "Main Dish";
     CreateRecipePage.primary_protein := "Pork";
     CreateRecipePage.ethnic_style := "Italian";
     CreateRecipePage.prep_time := "10";
     CreateRecipePage.cook_time := "20";
     CreateRecipePage.number_servings := "0" |}.

(** The no-break space U+00A0 in UTF-8, the example recipe with a name
    that holds nothing else, and the example recipe with number inputs that
    hold texts other than decimal numerals. *)
Definition no_break_space : string :=
  String (ascii_of_nat 194) (String (ascii_of_nat 160) "").

Definition no_break_space_name : CreateRecipePage.FormData :=
  {| CreateRecipePage.recipe_name := no_break_space;
     CreateRecipePage.recipe_description := "A Roman classic";
     CreateRecipePage.course_type := "Dinner";
     CreateRecipePage.recipe_type := "Main Dish";
     CreateRecipePage.primary_protein := "Pork";
     CreateRecipePage.ethnic_style := "Italian";
     CreateRecipePage.prep_time := "10";
     CreateRecipePage.cook_time := "20";
     CreateRecipePage.number_servings := "4" |}.

Definition fractional_times : CreateRecipePage.FormData :=
  {| CreateRecipePage.recipe_name := "Spaghetti Carbonara";
     CreateRecipePage.recipe_description := "A Roman classic";
     CreateRecipePage.course_type := "Dinner";
     CreateRecipePage.recipe_type := "Main Dish";
     CreateRecipePage.primary_protein := "Pork";
     CreateRecipePage.ethnic_style := "Italian";
     CreateRecipePage.prep_time := ".5e1";
     CreateRecipePage.cook_time := "1.9";
     CreateRecipePage.number_servings := "1e3" |}.

(** A request for the recipe list, and a page whose server answers 401 to
    everything: once with nothing in storage, once with a stale session. *)
Definition list_request : Browser.Config :=
  Api.request "get" "/recipes/" ∅ Browser.NoBody.

Definition answer (code : Z) : Browser.Outcome :=
  Browser.Answer {| Browser.status := code; Browser.response_data := ∅ |}.

Definition signed_out_page : Browser.World :=
  {| Browser.storage := ∅; Browser.href := None;
     Browser.network := [answer 401; answer 401];
     Browser.now := 0; Browser.timers := []; Browser.next_timer := 1%positive;
     Browser.listeners := [] |}.

Definition stale_session : gmap string string :=
  {[ "access_token" := "old-access";
     "refresh_token" := "old-refresh";
     "user" := "{}" ]}.

Definition stale_page : Browser.World :=
  {| Browser.storage := stale_session; Browser.href := None;
     Browser.network := [answer 401; answer 401];
     Browser.now := 0; Browser.timers := []; Browser.next_timer := 1%positive;
     Browser.listeners := [] |}.

(** A page whose access token has expired while the refresh token is still
    good: the server answers 401, then the refresh with a new access token,
    then the retried request with 200. *)
Definition refreshing_page : Browser.World :=
  {| Browser.storage := stale_session; Browser.href := None;
     Browser.network :=
       [ answer 401;
         Browser.Answer
           {| Browser.status := 200;
              Browser.response_data := {[ "access" := "new-access" ]} |};
         answer 200 ];
     Browser.now := 0; Browser.timers := []; Browser.next_timer := 1%positive;
     Browser.listeners := [] |}.

(** A page with nothing stored whose server accepts the login.  Users are
    kept as texts: [user_field] reads the user of a login response, and
    [same_text] stands for a [JSON.stringify] on texts and for
    [toLowerCase] on an input in lower case. *)
Definition login_response : Browser.Response :=
  {| Browser.status := 200;
     Browser.response_data :=
       {[ "access" := "new-access"; "refresh" := "new-refresh";
          "user" := "chris" ]} |}.

Definition login_page : Browser.World :=
  {| Browser.storage := ∅; Browser.href := None;
     Browser.network := [Browser.Answer login_response];
     Browser.now := 0; Browser.timers := []; Browser.next_timer := 1%positive;
     Browser.listeners := [] |}.

Definition user_field (r : Browser.Response) : option string :=
  match Browser.response_data r !! "user" with
  | Some u => if JS.truthy u then Some u else None
  | None => None
  end.

Definition same_text (s : string) : string := s.

(** A [JSON.parse] that takes every stored text for a user, and the provider
    mounted on the page with the stale session. *)
Definition accept_any (s : string) : option string := Some s.

Definition mounted
    : AuthContext.State string * Browser.World * list Browser.Event :=
  AuthContext.mount accept_any AuthContext.initialState stale_page.

(** Filters as the list page holds them after choosing "Dinner" and
    "Chicken". *)
Definition dinner_chicken : RecipeListPage.Filters :=
  {| RecipeListPage.course_type := "Dinner";
     RecipeListPage.recipe_type := "";
     RecipeListPage.primary_protein := "Chicken";
     RecipeListPage.ethnic_style := "" |}.

(** The state of the comment form with a comment typed in, and with white
    space only. *)
Definition typed_comment : CommentSection.State :=
  {| CommentSection.loading := false;
     CommentSection.submitting := false;
     CommentSection.commentText := "  Great recipe! ";
     CommentSection.error := "" |}.

Definition typed_no_break_space : CommentSection.State :=
  {| CommentSection.loading := false;
     CommentSection.submitting := false;
     CommentSection.commentText := no_break_space;
     CommentSection.error := "" |}.

Definition typed_between_no_break_spaces : CommentSection.State :=
  {| CommentSection.loading := false;
     CommentSection.submitting := false;
     CommentSection.commentText :=
       no_break_space +:+ "Great" +:+ no_break_space;
     CommentSection.error := "" |}.

Definition typed_spaces : CommentSection.State :=
  {| CommentSection.loading := false;
     CommentSection.submitting := false;
     CommentSection.commentText := "   ";
     CommentSection.error := "" |}.

(** The payload of the example recipe, and an update that halves the
    preparation. *)
Definition carbonara_payload : Backend.Payload :=
  {| Backend.payload_prep_time := 10; Backend.payload_cook_time := 20 |}.

Definition quicker_payload : Backend.Payload :=
  {| Backend.payload_prep_time := 5; Backend.payload_cook_time := 20 |}.

(** A few uses of the controls of the recipe form, starting from the form
    as it opens. *)
Definition some_ingredient_controls : list CreateRecipePage.IngredientControl :=
  [ CreateRecipePage.AddIngredientSection;
    CreateRecipePage.UpdateIngredientSectionTitle 1 "Sauce";
    CreateRecipePage.AddIngredient 1;
    CreateRecipePage.UpdateIngredient 1 1 Ingredients.Name "eggs";
    CreateRecipePage.RemoveIngredient 1 0;
    CreateRecipePage.RemoveIngredientSection 0 ].

Definition some_instruction_controls
    : list CreateRecipePage.InstructionControl :=
  [ CreateRecipePage.AddInstruction 0;
    CreateRecipePage.UpdateInstruction 0 1 "Cook the spaghetti";
    CreateRecipePage.AddInstructionSection;
    CreateRecipePage.RemoveInstruction 0 0;
    CreateRecipePage.RemoveInstructionSection 1 ].

(** * Properties *)

(** ** The recipe form: order indices *)
Section OrderIndices.
Import CreateRecipePage.
Context {A : Type} (get : A → nat) (set : nat → A → A).
Hypothesis get_set : ∀ n x, get (set n x) = n.

Lemma renumber_from (j : nat) (l : list A) :
  get <$> imap (λ index x, set (j + index + 1)%nat x) l
  = seq (j + 1) (length l).
Proof.
  revert j. induction l as [|x l IH]; intros j; [done|].
  cbn [imap fmap list_fmap length seq]. rewrite get_set. f_equal.
  - lia.
  - replace (S (j + 1)) with (S j + 1)%nat by lia. rewrite <- IH.
    f_equal. apply imap_ext. intros i y _. cbn. f_equal. lia.
Qed.

Lemma renumber_orders (l : list A) :
  get <$> imap (λ index x, set (index + 1)%nat x) l = seq 1 (length l).
Proof. exact (renumber_from 0 l). Qed.

Lemma filter_index_from_all (k i : nat) (l : list A) :
  (k < i)%nat →
  filter_index_from (λ index, negb (index =? k)%nat) i l = l.
Proof.
  revert i. induction l as [|x l IH]; intros i Hk; [done|].
  cbn. destruct (Nat.eqb_spec i k) as [->|_]; [lia|].
  cbn. f_equal. apply IH. lia.
Qed.

Lemma length_filter_index_from (k i : nat) (l : list A) :
  (i ≤ k < i + length l)%nat →
  length (filter_index_from (λ index, negb (index =? k)%nat) i l)
  = (length l - 1)%nat.
Proof.
  revert i. induction l as [|x l IH]; intros i Hk; cbn in *; [lia|].
  destruct (Nat.eqb_spec i k) as [->|Hne]; cbn.
  - rewrite filter_index_from_all by lia. lia.
  - rewrite IH by lia. lia.
Qed.

Lemma length_filter_index_ne (k : nat) (l : list A) :
  (k < length l)%nat →
  length (filter_index_ne k l) = (length l - 1)%nat.
Proof. intros Hk. apply length_filter_index_from. lia. Qed.

Lemma filter_index_ne_out_of_range (k : nat) (l : list A) :
  (length l ≤ k)%nat → filter_index_ne k l = l.
Proof.
  intros Hk. unfold filter_index_ne.
  assert (∀ i, (i + length l ≤ k)%nat →
            filter_index_from (λ index, negb (index =? k)%nat) i l = l)
    as Hall.
  { clear Hk. induction l as [|x l IH]; intros i Hi; [done|]. cbn in *.
    destruct (Nat.eqb_spec i k) as [->|_]; [lia|]. cbn. f_equal.
    apply IH. lia. }
  apply Hall. lia.
Qed.

Lemma append_orders (l : list A) (x : A) :
  get <$> l = seq 1 (length l) →
  get x = (length l + 1)%nat →
  get <$> (l ++ [x]) = seq 1 (length l + 1).
Proof.
  intros Hl Hx. rewrite fmap_app, Hl, seq_app. cbn. by rewrite Hx, Nat.add_comm.
Qed.
End OrderIndices.

Lemma ingredient_section_order_set n s :
  Ingredients.section_order (Ingredients.set_section_order n s) = n.
Proof. done. Qed.

Lemma ingredient_order_set n i :
  Ingredients.ingredient_order (Ingredients.set_ingredient_order n i) = n.
Proof. done. Qed.

Lemma instruction_section_order_set n s :
  Instructions.section_order (Instructions.set_section_order n s) = n.
Proof. done. Qed.

Lemma step_order_set n i :
  Instructions.step_order (Instructions.set_step_order n i) = n.
Proof. done. Qed.

(** C2.  Removing the element at a position of a list of sections, or of
    the ingredients or instructions of a section, and renumbering leaves
    the order indices of the N-1 remaining elements equal to the sequence
    1, 2, ..., N-1: contiguous, with no gap and no duplicate.  This holds
    whatever the indices were before the removal, so in particular when
    they were 1..N. *)
Theorem removal_renumbers_contiguously :
  (∀ (k : nat) (sections : list Ingredients.Section_),
      (k < length sections)%nat →
      Ingredients.section_order
        <$> CreateRecipePage.removeIngredientSection k sections
      = seq 1 (length sections - 1))
  ∧ (∀ (k : nat) (sections : list Instructions.Section_),
      (k < length sections)%nat →
      Instructions.section_order
        <$> CreateRecipePage.removeInstructionSection k sections
      = seq 1 (length sections - 1))
  ∧ (∀ (at_section k : nat) (sections : list Ingredients.Section_) section,
      sections !! at_section = Some section →
      (k < length (Ingredients.ingredients section))%nat →
      ∃ section',
        CreateRecipePage.removeIngredient at_section k sections
        = Some (<[at_section := section']> sections)
        ∧ Ingredients.ingredient_order <$> Ingredients.ingredients section'
          = seq 1 (length (Ingredients.ingredients section) - 1))
  ∧ (∀ (at_section k : nat) (sections : list Instructions.Section_) section,
      sections !! at_section = Some section →
      (k < length (Instructions.instructions section))%nat →
      ∃ section',
        CreateRecipePage.removeInstruction at_section k sections
        = Some (<[at_section := section']> sections)
        ∧ Instructions.step_order <$> Instructions.instructions section'
          = seq 1 (length (Instructions.instructions section) - 1)).
Proof.
  repeat split.
  - intros k sections Hk. unfold CreateRecipePage.removeIngredientSection.
    rewrite (renumber_orders _ _ ingredient_section_order_set).
    by rewrite length_filter_index_ne.
  - intros k sections Hk. unfold CreateRecipePage.removeInstructionSection.
    rewrite (renumber_orders _ _ instruction_section_order_set).
    by rewrite length_filter_index_ne.
  - intros at_section k sections section Hsec Hk.
    unfold CreateRecipePage.removeIngredient. rewrite Hsec. cbn.
    eexists. split; [reflexivity|]. cbn.
    rewrite (renumber_orders _ _ ingredient_order_set).
    by rewrite length_filter_index_ne.
  - intros at_section k sections section Hsec Hk.
    unfold CreateRecipePage.removeInstruction. rewrite Hsec. cbn.
    eexists. split; [reflexivity|]. cbn.
    rewrite (renumber_orders _ _ step_order_set).
    by rewrite length_filter_index_ne.
Qed.

(** C9.  Adding keeps the invariant too: when the order indices of a list
    of sections (or of the ingredients or instructions of a section) are
    1..N, the element that is added goes last, carries the index N+1, the
    length of the list plus one, and the indices of the new list are
    1..N+1. *)
Theorem adding_assigns_next_order :
  (∀ sections : list Ingredients.Section_,
      Ingredients.section_order <$> sections = seq 1 (length sections) →
      ∃ added,
        CreateRecipePage.addIngredientSection sections = sections ++ [added]
        ∧ Ingredients.section_order added = (length sections + 1)%nat
        ∧ Ingredients.section_order
            <$> CreateRecipePage.addIngredientSection sections
          = seq 1 (length sections + 1))
  ∧ (∀ sections : list Instructions.Section_,
      Instructions.section_order <$> sections = seq 1 (length sections) →
      ∃ added,
        CreateRecipePage.addInstructionSection sections = sections ++ [added]
        ∧ Instructions.section_order added = (length sections + 1)%nat
        ∧ Instructions.section_order
            <$> CreateRecipePage.addInstructionSection sections
          = seq 1 (length sections + 1))
  ∧ (∀ (at_section : nat) (sections : list Ingredients.Section_) section,
      sections !! at_section = Some section →
      Ingredients.ingredient_order <$> Ingredients.ingredients section
      = seq 1 (length (Ingredients.ingredients section)) →
      ∃ section' added,
        CreateRecipePage.addIngredient at_section sections
        = Some (<[at_section := section']> sections)
        ∧ Ingredients.ingredients section'
          = Ingredients.ingredients section ++ [added]
        ∧ Ingredients.ingredient_order added
          = (length (Ingredients.ingredients section) + 1)%nat
        ∧ Ingredients.ingredient_order <$> Ingredients.ingredients section'
          = seq 1 (length (Ingredients.ingredients section) + 1))
  ∧ (∀ (at_section : nat) (sections : list Instructions.Section_) section,
      sections !! at_section = Some section →
      Instructions.step_order <$> Instructions.instructions section
      = seq 1 (length (Instructions.instructions section)) →
      ∃ section' added,
        CreateRecipePage.addInstruction at_section sections
        = Some (<[at_section := section']> sections)
        ∧ Instructions.instructions section'
          = Instructions.instructions section ++ [added]
        ∧ Instructions.step_order added
          = (length (Instructions.instructions section) + 1)%nat
        ∧ Instructions.step_order <$> Instructions.instructions section'
          = seq 1 (length (Instructions.instructions section) + 1)).
Proof.
  repeat split.
  - intros sections Hseq. eexists. split; [reflexivity|]. split; [done|].
    unfold CreateRecipePage.addIngredientSection.
    by apply (append_orders Ingredients.section_order).
  - intros sections Hseq. eexists. split; [reflexivity|]. split; [done|].
    unfold CreateRecipePage.addInstructionSection.
    by apply (append_orders Instructions.section_order).
  - intros at_section sections section Hsec Hseq.
    unfold CreateRecipePage.addIngredient. rewrite Hsec. cbn.
    eexists _, _. split; [reflexivity|]. cbn. split; [reflexivity|].
    split; [done|]. by apply (append_orders Ingredients.ingredient_order).
  - intros at_section sections section Hsec Hseq.
    unfold CreateRecipePage.addInstruction. rewrite Hsec. cbn.
    eexists _, _. split; [reflexivity|]. cbn. split; [reflexivity|].
    split; [done|]. by apply (append_orders Instructions.step_order).
Qed.

(** The form starts with one section of each kind holding one item, all
    with order index 1. *)
Example initial_orders_are_contiguous :
  Ingredients.section_order <$> Ingredients.initial = seq 1 1
  ∧ Instructions.section_order <$> Instructions.initial = seq 1 1
  ∧ (λ s, Ingredients.ingredient_order <$> Ingredients.ingredients s)
      <$> Ingredients.initial = [seq 1 1]
  ∧ (λ s, Instructions.step_order <$> Instructions.instructions s)
      <$> Instructions.initial = [seq 1 1].
Proof. repeat split. Qed.

Lemma removal_renumbers_contiguously_witness :
  Ingredients.section_order
    <$> CreateRecipePage.removeIngredientSection 1 three_ingredient_sections
  = [1; 2]%nat
  ∧ Instructions.section_order
    <$> CreateRecipePage.removeInstructionSection 0 three_instruction_sections
  = [1; 2]%nat
  ∧ (∃ section',
      CreateRecipePage.removeIngredient 0 1 three_ingredient_sections
      = Some (<[0%nat := section']> three_ingredient_sections)
      ∧ Ingredients.ingredient_order <$> Ingredients.ingredients section'
        = [1; 2]%nat)
  ∧ (∃ section',
      CreateRecipePage.removeInstruction 0 2 three_instruction_sections
      = Some (<[0%nat := section']> three_instruction_sections)
      ∧ Instructions.step_order <$> Instructions.instructions section'
        = [1; 2]%nat).
Proof.
  destruct removal_renumbers_contiguously as (H1 & H2 & H3 & H4).
  split; [|split; [|split]].
  - apply (H1 1%nat three_ingredient_sections). cbn. lia.
  - apply (H2 0%nat three_instruction_sections). cbn. lia.
  - apply (H3 0%nat 1%nat three_ingredient_sections _ eq_refl). cbn. lia.
  - apply (H4 0%nat 2%nat three_instruction_sections _ eq_refl). cbn. lia.
Defined.

Lemma adding_assigns_next_order_witness :
  (∃ added,
      CreateRecipePage.addIngredientSection three_ingredient_sections
      = three_ingredient_sections ++ [added]
      ∧ Ingredients.section_order added = 4%nat
      ∧ Ingredients.section_order
          <$> CreateRecipePage.addIngredientSection three_ingredient_sections
        = [1; 2; 3; 4]%nat)
  ∧ (∃ added,
      CreateRecipePage.addInstructionSection three_instruction_sections
      = three_instruction_sections ++ [added]
      ∧ Instructions.section_order added = 4%nat
      ∧ Instructions.section_order
          <$> CreateRecipePage.addInstructionSection three_instruction_sections
        = [1; 2; 3; 4]%nat)
  ∧ (∃ section' added,
      CreateRecipePage.addIngredient 0 three_ingredient_sections
      = Some (<[0%nat := section']> three_ingredient_sections)
      ∧ Ingredients.ingredients section' = three_ingredients ++ [added]
      ∧ Ingredients.ingredient_order added = 4%nat
      ∧ Ingredients.ingredient_order <$> Ingredients.ingredients section'
        = [1; 2; 3; 4]%nat)
  ∧ (∃ section' added,
      CreateRecipePage.addInstruction 0 three_instruction_sections
      = Some (<[0%nat := section']> three_instruction_sections)
      ∧ Instructions.instructions section' = three_instructions ++ [added]
      ∧ Instructions.step_order added = 4%nat
      ∧ Instructions.step_order <$> Instructions.instructions section'
        = [1; 2; 3; 4]%nat).
Proof.
  destruct adding_assigns_next_order as (H1 & H2 & H3 & H4).
  split; [|split; [|split]].
  - apply (H1 three_ingredient_sections). reflexivity.
  - apply (H2 three_instruction_sections). reflexivity.
  - apply (H3 0%nat three_ingredient_sections _ eq_refl). reflexivity.
  - apply (H4 0%nat three_instruction_sections _ eq_refl). reflexivity.
Defined.

(** ** The recipe form: validation *)

Lemma take_1_when (b : bool) (message : string) (rest : list string) :
  take 1 (CreateRecipePage.when b message ++ rest)
  = if b then [message] else take 1 rest.
Proof. by destruct b. Qed.

Lemma take_1_app (l1 l2 : list string) :
  take 1 (l1 ++ l2) = match l1 with [] => take 1 l2 | x :: _ => [x] end.
Proof. by destruct l1. Qed.

Lemma shown_check_ingredients (l : list Ingredients.Ingredient) :
  CreateRecipePage.shown (CreateRecipePage.check_ingredients l)
  = take 1 (concat (CreateRecipePage.ingredient_violations <$> l)).
Proof.
  induction l as [|i l IH]; [done|].
  cbn [CreateRecipePage.check_ingredients fmap list_fmap concat].
  unfold CreateRecipePage.ingredient_violations at 1.
  rewrite take_1_when.
  by destruct (CreateRecipePage.blank (Ingredients.ingredient_name i)).
Qed.

Lemma shown_check_instructions (l : list Instructions.Instruction) :
  CreateRecipePage.shown (CreateRecipePage.check_instructions l)
  = take 1 (concat (CreateRecipePage.instruction_violations <$> l)).
Proof.
  induction l as [|i l IH]; [done|].
  cbn [CreateRecipePage.check_instructions fmap list_fmap concat].
  unfold CreateRecipePage.instruction_violations at 1.
  rewrite take_1_when.
  by destruct (CreateRecipePage.blank (Instructions.instruction_step i)).
Qed.

Lemma shown_check_ingredient_sections (l : list Ingredients.Section_) :
  CreateRecipePage.shown (CreateRecipePage.check_ingredient_sections l)
  = take 1 (concat (CreateRecipePage.ingredient_section_violations <$> l)).
Proof.
  induction l as [|s l IH]; [done|].
  cbn [CreateRecipePage.check_ingredient_sections fmap list_fmap concat].
  unfold CreateRecipePage.ingredient_section_violations at 1.
  rewrite <- !app_assoc, !take_1_when.
  destruct (CreateRecipePage.blank (Ingredients.section_title s)); [done|].
  destruct (length (Ingredients.ingredients s) =? 0)%nat; [done|].
  rewrite take_1_app.
  pose proof (shown_check_ingredients (Ingredients.ingredients s)) as Hin.
  destruct (CreateRecipePage.check_ingredients (Ingredients.ingredients s))
    as [|message]; cbn in Hin.
  - destruct (concat (CreateRecipePage.ingredient_violations <$> _));
      [exact IH | discriminate Hin].
  - destruct (concat (CreateRecipePage.ingredient_violations <$> _))
      as [|x rest]; [discriminate Hin|].
    cbn in Hin. by injection Hin as <-.
Qed.

Lemma shown_check_instruction_sections (l : list Instructions.Section_) :
  CreateRecipePage.shown (CreateRecipePage.check_instruction_sections l)
  = take 1 (concat (CreateRecipePage.instruction_section_violations <$> l)).
Proof.
  induction l as [|s l IH]; [done|].
  cbn [CreateRecipePage.check_instruction_sections fmap list_fmap concat].
  unfold CreateRecipePage.instruction_section_violations at 1.
  rewrite <- !app_assoc, !take_1_when.
  destruct (CreateRecipePage.blank (Instructions.section_title s)); [done|].
  destruct (length (Instructions.instructions s) =? 0)%nat; [done|].
  rewrite take_1_app.
  pose proof (shown_check_instructions (Instructions.instructions s)) as Hin.
  destruct (CreateRecipePage.check_instructions (Instructions.instructions s))
    as [|message]; cbn in Hin.
  - destruct (concat (CreateRecipePage.instruction_violations <$> _));
      [exact IH | discriminate Hin].
  - destruct (concat (CreateRecipePage.instruction_violations <$> _))
      as [|x rest]; [discriminate Hin|].
    cbn in Hin. by injection Hin as <-.
Qed.

(** C1, as the form implements it.  [validateForm] stops at the first
    test that fails: it returns [true] exactly when no field is violated,
    and otherwise shows one message, that of the first violated field in
    the order of its tests, however many fields are violated. *)
Theorem validateForm_reports_first_violation
    (formData : CreateRecipePage.FormData)
    (ingredientSections : list Ingredients.Section_)
    (instructionSections : list Instructions.Section_) :
  CreateRecipePage.shown
    (CreateRecipePage.validateForm formData ingredientSections
       instructionSections)
  = take 1 (CreateRecipePage.violations formData ingredientSections
              instructionSections)
  ∧ (CreateRecipePage.returns
       (CreateRecipePage.validateForm formData ingredientSections
          instructionSections) = true
     ↔ CreateRecipePage.violations formData ingredientSections
         instructionSections = []).
Proof.
  assert (CreateRecipePage.shown
            (CreateRecipePage.validateForm formData ingredientSections
               instructionSections)
          = take 1 (CreateRecipePage.violations formData ingredientSections
                      instructionSections)) as Hshown.
  { unfold CreateRecipePage.validateForm, CreateRecipePage.violations,
      CreateRecipePage.field_violations.
    rewrite <- !app_assoc, !take_1_when.
    repeat match goal with
           | |- context [if ?b then _ else _] => destruct b; [done|]
           end.
    rewrite take_1_app.
    pose proof (shown_check_ingredient_sections ingredientSections) as Hin.
    destruct (CreateRecipePage.check_ingredient_sections ingredientSections)
      as [|message]; cbn in Hin.
    - destruct (concat (CreateRecipePage.ingredient_section_violations <$> _));
        [|discriminate Hin].
      apply shown_check_instruction_sections.
    - destruct (concat (CreateRecipePage.ingredient_section_violations <$> _))
        as [|x rest]; [discriminate Hin|].
      cbn in Hin. by injection Hin as <-. }
  split; [exact Hshown|].
  destruct (CreateRecipePage.validateForm _ _ _) as [|message];
    cbn in Hshown |- *.
  - split; [intros _|done].
    by destruct (CreateRecipePage.violations _ _ _).
  - split; [done|]. intros Hnil. by rewrite Hnil in Hshown.
Qed.

(** C1, as stated, fails on the form: with a blank recipe name and
    [number_servings] 0 two fields are violated, and [validateForm] shows
    the first of the two messages only. *)
Lemma validateForm_shows_one_of_two_violations :
  CreateRecipePage.violations blank_name_no_servings carbonara_ingredients
    carbonara_instructions
  = ["Recipe name is required"; "Number of servings must be at least 1"]
  ∧ CreateRecipePage.validateForm blank_name_no_servings carbonara_ingredients
      carbonara_instructions
    = CreateRecipePage.Invalid "Recipe name is required"
  ∧ CreateRecipePage.shown
      (CreateRecipePage.validateForm blank_name_no_servings
         carbonara_ingredients carbonara_instructions)
    ≠ CreateRecipePage.violations blank_name_no_servings carbonara_ingredients
        carbonara_instructions.
Proof. split; [|split]; [reflexivity | reflexivity | discriminate]. Qed.

Example validateForm_accepts_carbonara :
  CreateRecipePage.validateForm carbonara carbonara_ingredients
    carbonara_instructions = CreateRecipePage.Valid.
Proof. reflexivity. Qed.

Example trim_strips_both_ends :
  JS.trim (String (ascii_of_nat 9) " Great  recipe! ") = "Great  recipe!".
Proof. reflexivity. Qed.

(** ** The axios instance: one pass, and the retry *)
Import Browser.

Ltac unfold_M := unfold mbind, M_bind, mret, M_ret.

Lemma request_interceptor_run c w :
  Api.request_interceptor c w = (Api.intercepted c w, w, []).
Proof. reflexivity. Qed.

Lemma intercepted_retry c w : _retry (Api.intercepted c w) = _retry c.
Proof.
  unfold Api.intercepted, Api.request_interceptor, result, getItem.
  unfold_M. cbn.
  destruct (storage w !! "access_token") as [t|]; [destruct (JS.truthy t)|];
    cbn; by destruct (data c).
Qed.

Lemma api_with_run self c w :
  Api.api_with self c w
  = match settle (Api.intercepted c w) (outcome 0 w) with
    | Resolved r => (Resolved r, sent w, [Send ViaApi (Api.intercepted c w)])
    | Rejected e =>
        let r := Api.on_rejected self e (sent w) in
        (result r, world r, Send ViaApi (Api.intercepted c w) :: events r)
    end.
Proof.
  unfold Api.api_with. unfold mbind at 1. unfold M_bind.
  rewrite request_interceptor_run.
  unfold mbind at 1. unfold M_bind. unfold exchange. 
  destruct (settle _ _) as [r|e]; [reflexivity|].
  by destruct (Api.on_rejected self e _) as [[b w2] ev].
Qed.

Lemma on_rejected_run self e w :
  Api.on_rejected self e w
  = if Api.status_is_401 e && negb (_retry (config e)) then
      let original := set_retry true (config e) in
      let token := storage w !! "refresh_token" in
      if JS.truthy_item token then
        match settle (Api.refresh_request (Api.to_string token)) (outcome 0 w) with
        | Resolved r =>
            let access := Api.to_string (response_data r !! "access") in
            let run :=
              self (set_Authorization ("Bearer " +:+ access) original)
                   (set_storage (insert "access_token" access) (sent w)) in
            (result run, world run,
             Send ViaAxios (Api.refresh_request (Api.to_string token))
               :: SetItem "access_token" access :: events run)
        | Rejected refreshError =>
            (Rejected refreshError,
             set_href "/login?reason=session_expired" (cleared (sent w)),
             [Send ViaAxios (Api.refresh_request (Api.to_string token));
              RemoveItem "access_token"; RemoveItem "refresh_token";
              RemoveItem "user"; Navigate "/login?reason=session_expired"])
        end
      else
        (Rejected {| config := original; response := response e |},
         set_href "/login?reason=no_session" (cleared w),
         [RemoveItem "access_token"; RemoveItem "refresh_token";
          RemoveItem "user"; Navigate "/login?reason=no_session"])
    else (Rejected e, w, []).
Proof.
  unfold Api.on_rejected.
  destruct (Api.status_is_401 e && negb (_retry (config e))); [|reflexivity].
  unfold getItem, Api.axios_post_refresh, exchange, Api.clear_session,
    removeItem, assign_href, setItem.
  unfold_M. cbn.
  destruct (JS.truthy_item (storage w !! "refresh_token")); [|reflexivity].
  destruct (settle _ _) as [r|refreshError]; [|reflexivity].
  cbn. by destruct (self _ _) as [[b w2] ev].
Qed.

Lemma settle_rejected c o e :
  settle c o = Rejected e →
  config e = c ∧ Api.status_is_401 e = unauthorized o ∧ succeeds o = false.
Proof.
  unfold settle, Api.status_is_401, unauthorized, succeeds.
  destruct o as [r|]; [destruct (ok_status (status r)) eqn:Hok|];
    intros [= <-]; done.
Qed.

Lemma settle_resolved c o r :
  settle c o = Resolved r → unauthorized o = false ∧ succeeds o = true.
Proof.
  unfold settle, unauthorized, succeeds, ok_status.
  destruct o as [r'|]; [|done].
  destruct (_ && _) eqn:Hok; [|done]. intros _. split; [|done]. lia.
Qed.

Lemma outcome_sent n w : outcome n (sent w) = outcome (S n) w.
Proof. unfold outcome, sent. cbn. by rewrite lookup_tail. Qed.

Lemma api_with_marked self c w :
  _retry c = true →
  Api.api_with self c w
  = (settle (Api.intercepted c w) (outcome 0 w), sent w,
     [Send ViaApi (Api.intercepted c w)]).
Proof.
  intros Hretry. rewrite api_with_run.
  destruct (settle _ _) as [r|e] eqn:Hsettle; [reflexivity|].
  apply settle_rejected in Hsettle as (Hc & _ & _).
  rewrite on_rejected_run, Hc, intercepted_retry, Hretry, andb_false_r.
  reflexivity.
Qed.

Lemma on_rejected_ext self1 self2 e w :
  (∀ c w', _retry c = true → self1 c w' = self2 c w') →
  Api.on_rejected self1 e w = Api.on_rejected self2 e w.
Proof.
  intros Hself. rewrite !on_rejected_run.
  destruct (_ && _); [|done]. cbn.
  destruct (JS.truthy_item _); [|done].
  destruct (settle _ _); [|done]. by rewrite Hself.
Qed.

Lemma api_unfold c w : Api.api c w = Api.api_with Api.api c w.
Proof.
  unfold Api.api at 1. rewrite !(api_with_run _ c w).
  destruct (settle _ _) as [r|e]; [done|]. cbn.
  rewrite (on_rejected_ext (Api.api_with Api.no_third_pass) Api.api); [done|].
  intros c' w' Hretry. unfold Api.api. by rewrite !api_with_marked.
Qed.

(** C3, as the interceptor implements it.  A request through [api] triggers
    one token refresh exactly when its first answer is a 401, it is not
    marked [_retry] and a refresh token is stored, and no refresh otherwise:
    never more than one, and none for a request that is already marked.
    The original request is sent a second time exactly when that one
    refresh succeeds, and is never sent a third time. *)
Theorem api_refreshes_at_most_once (c : Config) (w : World) :
  Api.refreshes (events (Api.api c w))
  = (if unauthorized (outcome 0 w) && negb (_retry c)
        && JS.truthy_item (storage w !! "refresh_token")
     then 1 else 0)%nat
  ∧ Api.sends (events (Api.api c w))
    = (if unauthorized (outcome 0 w) && negb (_retry c)
          && JS.truthy_item (storage w !! "refresh_token")
          && succeeds (outcome 1 w)
       then 2 else 1)%nat
  ∧ (Api.refreshes (events (Api.api c w)) ≤ 1)%nat.
Proof.
  assert (Api.refreshes (events (Api.api c w))
          = (if unauthorized (outcome 0 w) && negb (_retry c)
                && JS.truthy_item (storage w !! "refresh_token")
             then 1 else 0)%nat
          ∧ Api.sends (events (Api.api c w))
            = (if unauthorized (outcome 0 w) && negb (_retry c)
                  && JS.truthy_item (storage w !! "refresh_token")
                  && succeeds (outcome 1 w)
               then 2 else 1)%nat) as [Hrefreshes Hsends].
  { unfold Api.api. rewrite api_with_run.
    destruct (settle _ _) as [r|e] eqn:Hsettle.
    - apply settle_resolved in Hsettle as [-> _]. done.
    - apply settle_rejected in Hsettle as (Hc & H401 & _).
      rewrite on_rejected_run, Hc, intercepted_retry, H401. cbn.
      destruct (unauthorized (outcome 0 w) && negb (_retry c)); [|done]. cbn.
      destruct (JS.truthy_item _); [|done]. rewrite outcome_sent.
      destruct (settle _ (outcome 1 w)) as [r|re] eqn:Hrefresh.
      + apply settle_resolved in Hrefresh as [_ ->].
        rewrite api_with_marked by done. done.
      + apply settle_rejected in Hrefresh as (_ & _ & ->). done. }
  split; [exact Hrefreshes|]. split; [exact Hsends|].
  rewrite Hrefreshes. destruct (_ && _); lia.
Qed.

(** C3, as stated, fails where no refresh token is stored: the request is
    answered with a 401, and the client attempts no refresh and no retry; it
    clears the session and goes to the login page. *)
Lemma unauthorized_without_refresh_token :
  unauthorized (outcome 0 signed_out_page) = true
  ∧ Api.refreshes (events (Api.api list_request signed_out_page)) = 0%nat
  ∧ Api.sends (events (Api.api list_request signed_out_page)) = 1%nat
  ∧ href (world (Api.api list_request signed_out_page))
    = Some "/login?reason=no_session".
Proof. vm_compute. done. Qed.

(** ** Forced logout *)

Lemma redirects_nil : Api.redirects_after_clearing [].
Proof. intros [|e before] target after Heq; discriminate Heq. Qed.

Lemma redirects_without_navigate (l : list Event) :
  (∀ target, Navigate target ∉ l) → Api.redirects_after_clearing l.
Proof.
  intros Hno before target after ->. destruct (Hno target).
  apply elem_of_app. right. apply list_elem_of_here.
Qed.

Lemma redirects_app (l1 l2 : list Event) :
  Api.redirects_after_clearing l1 → Api.redirects_after_clearing l2 →
  Api.redirects_after_clearing (l1 ++ l2).
Proof.
  intros H1 H2 before target after Heq.
  apply app_eq_inv in Heq as [(k & -> & Hk)|(k & -> & ->)].
  - destruct k as [|e k].
    + cbn in Hk. subst l2.
      destruct (H2 [] target after eq_refl) as (_ & earlier & Hnil).
      by destruct earlier.
    + injection Hk as <- ->.
      destruct (H1 before target k eq_refl) as (Hin & earlier & ->).
      split; [done|]. by exists earlier.
  - destruct (H2 k target after eq_refl) as (Hin & earlier & ->).
    split; [done|]. exists (l1 ++ earlier). by rewrite app_assoc.
Qed.

Lemma redirects_forced (target : string) :
  target ∈ Api.forced_logout_targets →
  Api.redirects_after_clearing (Api.session_removals ++ [Navigate target]).
Proof.
  intros Hin before target' after Heq.
  destruct before as [|e1 [|e2 [|e3 [|e4 before]]]]; simplify_eq/=.
  - split; [done|]. by exists [].
  - by destruct before.
Qed.

Lemma session_cleared_cleared (w : World) :
  AuthContext.session_cleared (cleared w).
Proof.
  unfold AuthContext.session_cleared, cleared. cbn.
  repeat split; by simplify_map_eq.
Qed.

Lemma session_cleared_set_href (target : string) (w : World) :
  AuthContext.session_cleared w →
  AuthContext.session_cleared (set_href target w).
Proof. done. Qed.

Lemma api_events (c : Config) (w : World) :
  events (Api.api c w)
  = Send ViaApi (Api.intercepted c w) ::
    if unauthorized (outcome 0 w) && negb (_retry c) then
      let token := storage w !! "refresh_token" in
      let refresh := Send ViaAxios (Api.refresh_request (Api.to_string token)) in
      if JS.truthy_item token then
        match outcome 1 w with
        | Answer r =>
            if ok_status (status r) then
              let access := Api.to_string (response_data r !! "access") in
              let again :=
                set_Authorization ("Bearer " +:+ access)
                  (set_retry true (Api.intercepted c w)) in
              [refresh; SetItem "access_token" access;
               Send ViaApi
                 (Api.intercepted again
                    (set_storage (insert "access_token" access)
                       (sent (sent w))))]
            else refresh :: Api.session_removals
                   ++ [Navigate "/login?reason=session_expired"]
        | NoAnswer =>
            refresh :: Api.session_removals
              ++ [Navigate "/login?reason=session_expired"]
        end
      else Api.session_removals ++ [Navigate "/login?reason=no_session"]
    else [].
Proof.
  unfold Api.api. rewrite api_with_run.
  destruct (settle _ _) as [r|e] eqn:Hsettle.
  - apply settle_resolved in Hsettle as [-> _]. done.
  - apply settle_rejected in Hsettle as (Hc & H401 & _).
    rewrite on_rejected_run, Hc, intercepted_retry, H401. cbn.
    destruct (unauthorized (outcome 0 w) && negb (_retry c)); [|done]. cbn.
    destruct (JS.truthy_item _); [|done]. rewrite outcome_sent.
    unfold settle. destruct (outcome 1 w) as [r|]; [|done].
    destruct (ok_status (status r)); [|done].
    rewrite api_with_marked by done. done.
Qed.

Lemma api_redirects (c : Config) (w : World) :
  Api.redirects_after_clearing (events (Api.api c w)).
Proof.
  rewrite api_events.
  assert (∀ e l, (∀ target, e ≠ Navigate target) →
            Api.redirects_after_clearing l →
            Api.redirects_after_clearing (e :: l)) as Hcons.
  { intros e l He Hl. apply (redirects_app [e] l); [|done].
    apply redirects_without_navigate. intros target Hin.
    apply list_elem_of_singleton in Hin. by destruct (He target). }
  apply Hcons; [done|].
  destruct (_ && _); [|apply redirects_nil]. cbn.
  destruct (JS.truthy_item _).
  - destruct (outcome 1 w) as [r|]; [destruct (ok_status (status r))|].
    + repeat (apply Hcons; [done|]). apply redirects_nil.
    + apply Hcons; [done|]. apply redirects_forced. set_solver.
    + apply Hcons; [done|]. apply redirects_forced. set_solver.
  - apply redirects_forced. set_solver.
Qed.

Lemma authService_logout_run (w : World) :
  AuthService.logout w
  = if JS.truthy_item (storage w !! "refresh_token") then
      let run :=
        Api.post "/auth/logout/"
          (Json {[ "refresh" :=
                     JS.Str (Api.to_string (storage w !! "refresh_token")) ]})
          w in
      (tt, cleared (world run), events run ++ Api.session_removals)
    else (tt, cleared w, Api.session_removals).
Proof.
  unfold AuthService.logout, AuthService.clearCurrentUser, getItem, removeItem,
    AuthService.REFRESH_KEY, AuthService.ACCESS_KEY,
    AuthService.USER_KEY.
  unfold_M. cbn.
  destruct (JS.truthy_item _); [|reflexivity].
  destruct (Api.post _ _ w) as [[b w2] ev]. by rewrite app_nil_r.
Qed.

Lemma authService_logout_v1 (w : World) :
  AuthService.logout_v1 w = AuthService.logout w.
Proof. reflexivity. Qed.

Lemma authService_logout_cleared (w : World) :
  AuthContext.session_cleared (world (AuthService.logout w)).
Proof.
  rewrite authService_logout_run.
  destruct (JS.truthy_item _); apply session_cleared_cleared.
Qed.

Lemma authService_logout_events (w : World) :
  ∃ earlier,
    events (AuthService.logout w) = earlier ++ Api.session_removals
    ∧ Api.redirects_after_clearing earlier.
Proof.
  rewrite authService_logout_run.
  destruct (JS.truthy_item _).
  - eexists. split; [reflexivity|]. apply api_redirects.
  - exists []. split; [reflexivity|]. apply redirects_nil.
Qed.

Lemma handleInactivityLogout_run {User} (s : AuthContext.State User)
    (w : World) :
  AuthContext.handleInactivityLogout s w
  = (AuthContext.setUserState None s,
     set_href "/login?reason=inactivity" (world (AuthService.logout w)),
     events (AuthService.logout w) ++ [Navigate "/login?reason=inactivity"]).
Proof.
  unfold AuthContext.handleInactivityLogout, assign_href. unfold_M.
  destruct (AuthService.logout w) as [[[] w2] ev]. by rewrite ?app_nil_r.
Qed.

Lemma api_run_refresh_failed (c : Config) (w : World) :
  unauthorized (outcome 0 w) = true → _retry c = false →
  JS.truthy_item (storage w !! "refresh_token") = true →
  succeeds (outcome 1 w) = false →
  world (Api.api c w)
  = set_href "/login?reason=session_expired" (cleared (sent (sent w)))
  ∧ events (Api.api c w)
    = [Send ViaApi (Api.intercepted c w);
       Send ViaAxios
         (Api.refresh_request
            (Api.to_string (storage w !! "refresh_token")))]
      ++ Api.session_removals ++ [Navigate "/login?reason=session_expired"].
Proof.
  intros H401 Hretry Htoken Hfail. unfold Api.api. rewrite api_with_run.
  destruct (settle _ _) as [r|e] eqn:Hsettle.
  { apply settle_resolved in Hsettle as [Hno _]. congruence. }
  apply settle_rejected in Hsettle as (Hc & He & _).
  rewrite on_rejected_run, Hc, intercepted_retry, He, H401, Hretry. cbn.
  rewrite Htoken, outcome_sent.
  destruct (settle _ (outcome 1 w)) as [r|re] eqn:Hrefresh.
  { apply settle_resolved in Hrefresh as [_ Hyes]. congruence. }
  done.
Qed.

Lemma api_run_no_token (c : Config) (w : World) :
  unauthorized (outcome 0 w) = true → _retry c = false →
  JS.truthy_item (storage w !! "refresh_token") = false →
  world (Api.api c w) = set_href "/login?reason=no_session" (cleared (sent w))
  ∧ events (Api.api c w)
    = [Send ViaApi (Api.intercepted c w)]
      ++ Api.session_removals ++ [Navigate "/login?reason=no_session"].
Proof.
  intros H401 Hretry Htoken. unfold Api.api. rewrite api_with_run.
  destruct (settle _ _) as [r|e] eqn:Hsettle.
  { apply settle_resolved in Hsettle as [Hno _]. congruence. }
  apply settle_rejected in Hsettle as (Hc & He & _).
  rewrite on_rejected_run, Hc, intercepted_retry, He, H401, Hretry. cbn.
  by rewrite Htoken.
Qed.

(** C6.  Every redirect that the response interceptor or the inactivity
    handler performs goes to the login route with one of the reason codes
    [session_expired], [no_session] and [inactivity], and comes right after
    the removal of the two tokens and the user from storage.  The reason is
    [session_expired] when the token refresh fails, [no_session] when a 401
    finds no refresh token in storage, and [inactivity] when the idle timer
    has fired. *)
Theorem forced_logout_clears_then_redirects {User : Type}
    (c : Config) (s : AuthContext.State User) (w : World) :
  Api.redirects_after_clearing (events (Api.api c w))
  ∧ Api.redirects_after_clearing
      (events (AuthContext.handleInactivityLogout s w))
  ∧ (unauthorized (outcome 0 w) = true → _retry c = false →
     JS.truthy_item (storage w !! "refresh_token") = true →
     succeeds (outcome 1 w) = false →
     events (Api.api c w)
     = [Send ViaApi (Api.intercepted c w);
        Send ViaAxios
          (Api.refresh_request
             (Api.to_string (storage w !! "refresh_token")))]
       ++ Api.session_removals ++ [Navigate "/login?reason=session_expired"]
     ∧ href (world (Api.api c w)) = Some "/login?reason=session_expired"
     ∧ AuthContext.session_cleared (world (Api.api c w)))
  ∧ (unauthorized (outcome 0 w) = true → _retry c = false →
     JS.truthy_item (storage w !! "refresh_token") = false →
     events (Api.api c w)
     = [Send ViaApi (Api.intercepted c w)]
       ++ Api.session_removals ++ [Navigate "/login?reason=no_session"]
     ∧ href (world (Api.api c w)) = Some "/login?reason=no_session"
     ∧ AuthContext.session_cleared (world (Api.api c w)))
  ∧ (∃ earlier,
       events (AuthContext.handleInactivityLogout s w)
       = earlier ++ Api.session_removals
         ++ [Navigate "/login?reason=inactivity"])
  ∧ href (world (AuthContext.handleInactivityLogout s w))
    = Some "/login?reason=inactivity"
  ∧ AuthContext.session_cleared
      (world (AuthContext.handleInactivityLogout s w)).
Proof.
  split; [apply api_redirects|].
  destruct (authService_logout_events w) as (earlier & Hevents & Hearlier).
  split.
  { rewrite handleInactivityLogout_run. cbn. rewrite Hevents, <- app_assoc.
    apply redirects_app; [done|]. apply redirects_forced. set_solver. }
  split.
  { intros H401 Hretry Htoken Hfail.
    destruct (api_run_refresh_failed c w H401 Hretry Htoken Hfail) as [-> ->].
    split; [done|]. split; [done|].
    apply session_cleared_set_href, session_cleared_cleared. }
  split.
  { intros H401 Hretry Htoken.
    destruct (api_run_no_token c w H401 Hretry Htoken) as [-> ->].
    split; [done|]. split; [done|].
    apply session_cleared_set_href, session_cleared_cleared. }
  rewrite handleInactivityLogout_run. cbn. split; [|split; [done|]].
  - exists earlier. by rewrite Hevents, <- app_assoc.
  - apply session_cleared_set_href, authService_logout_cleared.
Qed.

(** C10.  [authService.logout] always ends with the three keys of the
    session removed from storage: with or without a stored refresh token,
    and whatever the server and the interceptors did with the logout
    request.  Both revisions of the service behave alike. *)
Theorem logout_always_clears_storage (w : World) :
  AuthContext.session_cleared (world (AuthService.logout w))
  ∧ AuthContext.session_cleared (world (AuthService.logout_v1 w))
  ∧ ∃ earlier,
      events (AuthService.logout w) = earlier ++ Api.session_removals.
Proof.
  split; [apply authService_logout_cleared|].
  split; [exact (authService_logout_cleared w)|].
  destruct (authService_logout_events w) as (earlier & Hevents & _).
  by exists earlier.
Qed.

Example logout_without_refresh_token :
  events (AuthService.logout signed_out_page) = Api.session_removals.
Proof. vm_compute. done. Qed.

Example logout_when_the_server_refuses :
  Api.sends (events (AuthService.logout stale_page)) = 1%nat
  ∧ storage (world (AuthService.logout stale_page)) = ∅.
Proof. vm_compute. done. Qed.

(** ** The inactivity timer *)
Section InactivityTimer.
Context {User : Type}.
Variable JSON_parse : string → option User.
Variable JSON_stringify : User → string.
Implicit Types (s : AuthContext.State User) (w : World).

Abbreviation tracked := (@AuthContext.timer_tracked User).
Abbreviation elsewhere := AuthContext.elsewhere.
Abbreviation current := (AuthService.currentUser JSON_parse).

Lemma elsewhere_trans w1 w2 w3 :
  elsewhere w1 w2 → elsewhere w2 w3 → elsewhere w1 w3.
Proof. intros (?&?&?&?) (?&?&?&?). repeat split; congruence. Qed.

Lemma elsewhere_cleared w : elsewhere w (cleared w).
Proof. done. Qed.

Lemma tracked_elsewhere s w w' : tracked s w → elsewhere w w' → tracked s w'.
Proof.
  intros Htracked (Htimers & _). unfold AuthContext.timer_tracked.
  by rewrite Htimers.
Qed.

Lemma api_with_marked_elsewhere self c w :
  _retry c = true → elsewhere w (world (Api.api_with self c w)).
Proof. intros Hretry. by rewrite api_with_marked. Qed.

Lemma api_elsewhere c w : elsewhere w (world (Api.api c w)).
Proof.
  unfold Api.api. rewrite api_with_run.
  destruct (settle _ _) as [r|e]; [done|]. cbn.
  rewrite on_rejected_run.
  destruct (_ && _); [|done]. cbn.
  destruct (JS.truthy_item _); [|done].
  destruct (settle _ _); [|done]. cbn.
  eapply elsewhere_trans; [|apply api_with_marked_elsewhere; done]. done.
Qed.

Lemma authService_logout_elsewhere w :
  elsewhere w (world (AuthService.logout w)).
Proof.
  rewrite authService_logout_run.
  destruct (JS.truthy_item _); [|done]. cbn.
  eapply elsewhere_trans; [apply api_elsewhere|apply elsewhere_cleared].
Qed.

Lemma getCurrentUser_run w :
  AuthService.getCurrentUser JSON_parse w = (current w, w, []).
Proof.
  unfold AuthService.currentUser, AuthService.getCurrentUser, getItem.
  unfold_M. cbn. destruct (JS.truthy_item _); reflexivity.
Qed.

Lemma current_storage w w' : storage w' = storage w → current w' = current w.
Proof.
  intros Hst.
  unfold AuthService.currentUser, AuthService.getCurrentUser, getItem.
  unfold_M.
  cbn. rewrite Hst. destruct (JS.truthy_item _); reflexivity.
Qed.

Lemma clearInactivityTimer_run s w :
  AuthContext.clearInactivityTimer s w
  = match AuthContext.inactivityTimerRef s with
    | Some id =>
        (AuthContext.set_current None s,
         set_timers (filter (λ t, t.1 ≠ id) (timers w)) (next_timer w) w, [])
    | None => (s, w, [])
    end.
Proof.
  unfold AuthContext.clearInactivityTimer.
  by destruct (AuthContext.inactivityTimerRef s).
Qed.

Lemma set_timers_same w : set_timers (timers w) (next_timer w) w = w.
Proof. by destruct w. Qed.

Lemma set_current_same s :
  AuthContext.set_current (AuthContext.inactivityTimerRef s) s = s.
Proof. by destruct s. Qed.

Lemma clearInactivityTimer_tracked s w :
  tracked s w →
  AuthContext.clearInactivityTimer s w
  = (AuthContext.set_current None s, set_timers [] (next_timer w) w, []).
Proof.
  intros Htracked. rewrite clearInactivityTimer_run.
  destruct Htracked as [Hnil|(id & d & Hone & Href)].
  - destruct (AuthContext.inactivityTimerRef s) eqn:Href.
    + by rewrite Hnil.
    + by rewrite <- Href, set_current_same, <- Hnil, set_timers_same.
  - rewrite Href, Hone. cbn.
    rewrite decide_False by (intros Hne; by apply Hne). done.
Qed.

Lemma tracked_none s n w :
  tracked (AuthContext.set_current None s) (set_timers [] n w).
Proof. by left. Qed.

Lemma tracked_some s id d n w :
  tracked (AuthContext.set_current (Some id) s) (set_timers [(id, d)] n w).
Proof. right. by exists id, d. Qed.

Lemma resetInactivityTimer_tracked s w :
  tracked s w →
  AuthContext.resetInactivityTimer JSON_parse s w
  = match current w with
    | Some _ =>
        (AuthContext.set_current (Some (Pos.succ (next_timer w))) s,
         set_timers [(Pos.succ (next_timer w), now w + AuthContext.INACTIVITY_TIMEOUT)]
           (Pos.succ (next_timer w)) w,
         [])
    | None =>
        (AuthContext.set_current None s, set_timers [] (next_timer w) w, [])
    end.
Proof.
  intros Htracked. unfold AuthContext.resetInactivityTimer.
  unfold mbind at 1. unfold M_bind.
  rewrite (clearInactivityTimer_tracked _ _ Htracked).
  unfold mbind at 1. unfold M_bind. rewrite getCurrentUser_run.
  rewrite (current_storage w (set_timers [] (next_timer w) w)) by done.
  by destruct (current w).
Qed.

Lemma resetInactivityTimer_keeps_tracked s w :
  tracked s w →
  tracked (result (AuthContext.resetInactivityTimer JSON_parse s w))
          (world (AuthContext.resetInactivityTimer JSON_parse s w)).
Proof.
  intros Htracked. rewrite (resetInactivityTimer_tracked _ _ Htracked).
  destruct (current w); [apply tracked_some|apply tracked_none].
Qed.

Lemma handleActivity_run s w :
  AuthContext.handleActivity JSON_parse s w
  = match current w with
    | Some _ => AuthContext.resetInactivityTimer JSON_parse s w
    | None => (s, w, [])
    end.
Proof.
  unfold AuthContext.handleActivity. unfold mbind at 1. unfold M_bind.
  rewrite getCurrentUser_run. destruct (current w); [|done].
  by destruct (AuthContext.resetInactivityTimer _ _ _) as [[b w2] ev].
Qed.

Lemma dispatchEvent_keeps_tracked type s w :
  tracked s w →
  tracked (result (AuthContext.dispatchEvent JSON_parse type s w))
          (world (AuthContext.dispatchEvent JSON_parse type s w)).
Proof.
  intros Htracked. unfold AuthContext.dispatchEvent.
  destruct (decide _); [|done]. rewrite handleActivity_run.
  destruct (current w); [|done]. by apply resetInactivityTimer_keeps_tracked.
Qed.

Lemma dispatchAll_keeps_tracked types s w :
  tracked s w →
  tracked (result (AuthContext.dispatchAll JSON_parse types s w))
          (world (AuthContext.dispatchAll JSON_parse types s w)).
Proof.
  revert s w. induction types as [|type types IH]; intros s w Htracked;
    [done|].
  cbn [AuthContext.dispatchAll]. unfold mbind, M_bind.
  pose proof (dispatchEvent_keeps_tracked type s w Htracked) as Hstep.
  destruct (AuthContext.dispatchEvent _ _ _ _) as [[s1 w1] ev1].
  specialize (IH s1 w1 Hstep).
  by destruct (AuthContext.dispatchAll _ _ _ _) as [[s2 w2] ev2].
Qed.

Lemma setUser_none_run s w :
  tracked s w →
  AuthContext.setUser JSON_parse JSON_stringify None s w
  = (AuthContext.set_current None (AuthContext.setUserState None s),
     set_timers [] (next_timer w) (set_storage (delete "user") w),
     [RemoveItem "user"]).
Proof.
  intros Htracked. unfold AuthContext.setUser, AuthService.clearCurrentUser,
    removeItem. unfold mbind, M_bind.
  rewrite clearInactivityTimer_tracked; [done|].
  apply (tracked_elsewhere s w); [|done].
  destruct Htracked as [?|(id & d & ? & ?)]; [by left|right; by exists id, d].
Qed.

Lemma setUser_keeps_tracked u s w :
  tracked s w →
  tracked (result (AuthContext.setUser JSON_parse JSON_stringify u s w))
          (world (AuthContext.setUser JSON_parse JSON_stringify u s w)).
Proof.
  intros Htracked. destruct u as [u|].
  - unfold AuthContext.setUser, AuthService.setCurrentUser, setItem.
    unfold mbind, M_bind.
    pose proof (resetInactivityTimer_keeps_tracked
                  (AuthContext.setUserState (Some u) s)
                  (set_storage
                     (insert AuthService.USER_KEY (JSON_stringify u)) w))
      as Hreset.
    destruct (AuthContext.resetInactivityTimer _ _ _) as [[s1 w1] ev1].
    apply Hreset. apply (tracked_elsewhere s w); [|done].
    destruct Htracked as [?|(id & d & ? & ?)]; [by left|right; by exists id, d].
  - rewrite (setUser_none_run _ _ Htracked). apply tracked_none.
Qed.

Lemma set_listeners_same w : set_listeners (listeners w) w = w.
Proof. by destruct w. Qed.

Lemma forEach_addEventListener types w :
  AuthContext.forEach addEventListener types w
  = (tt, set_listeners (foldl add_listener (listeners w) types) w, []).
Proof.
  revert w. induction types as [|type types IH]; intros w.
  - cbn. by rewrite set_listeners_same.
  - cbn [AuthContext.forEach foldl]. unfold mbind, M_bind.
    unfold addEventListener at 1. by rewrite IH.
Qed.

Lemma forEach_removeEventListener types w :
  ∃ l, AuthContext.forEach removeEventListener types w
       = (tt, set_listeners l w, []).
Proof.
  revert w. induction types as [|type types IH]; intros w.
  - exists (listeners w). cbn. by rewrite set_listeners_same.
  - cbn [AuthContext.forEach]. unfold mbind, M_bind.
    unfold removeEventListener at 1.
    destruct (IH (set_listeners (filter (λ t, t ≠ type) (listeners w)) w))
      as [l ->].
    by exists l.
Qed.

Lemma mount_run w :
  timers w = [] →
  AuthContext.mount JSON_parse AuthContext.initialState w
  = match current w with
    | Some u =>
        (AuthContext.setLoading false
           (AuthContext.set_current (Some (Pos.succ (next_timer w)))
              (AuthContext.setUserState (Some u) AuthContext.initialState)),
         set_listeners
           (foldl add_listener (listeners w) AuthContext.activityEvents)
           (set_timers
              [(Pos.succ (next_timer w), now w + AuthContext.INACTIVITY_TIMEOUT)]
              (Pos.succ (next_timer w)) w),
         [])
    | None =>
        (AuthContext.setLoading false AuthContext.initialState,
         set_listeners
           (foldl add_listener (listeners w) AuthContext.activityEvents) w,
         [])
    end.
Proof.
  intros Hnil. unfold AuthContext.mount.
  unfold mbind at 1. unfold M_bind. rewrite getCurrentUser_run.
  destruct (current w) as [u|] eqn:Hcurrent.
  - unfold mbind at 1. unfold M_bind.
    rewrite resetInactivityTimer_tracked by (by left).
    rewrite Hcurrent. unfold mbind, M_bind.
    by rewrite forEach_addEventListener.
  - unfold mbind, M_bind, mret, M_ret.
    by rewrite forEach_addEventListener.
Qed.

Lemma mount_keeps_tracked w :
  AuthContext.fresh w →
  tracked (result (AuthContext.mount JSON_parse AuthContext.initialState w))
          (world (AuthContext.mount JSON_parse AuthContext.initialState w)).
Proof.
  intros [Hnil _]. rewrite (mount_run _ Hnil).
  destruct (current w); cbn.
  - right. by eexists _, _.
  - by left.
Qed.

Lemma unmount_keeps_tracked s w :
  tracked s w →
  tracked (result (AuthContext.unmount s w))
          (world (AuthContext.unmount s w)).
Proof.
  intros Htracked. unfold AuthContext.unmount. unfold mbind, M_bind.
  rewrite (clearInactivityTimer_tracked _ _ Htracked).
  destruct (forEach_removeEventListener AuthContext.activityEvents
              (set_timers [] (next_timer w) w)) as [l ->].
  by left.
Qed.

Lemma advance_idle dt s w :
  timers w = [] →
  AuthContext.advance dt s w = (s, set_now (now w + dt) w, []).
Proof.
  intros Hnil. unfold AuthContext.advance. rewrite Hnil. cbn.
  by rewrite <- Hnil, set_timers_same.
Qed.

Lemma advance_early dt s w id due :
  timers w = [(id, due)] → ¬ due ≤ now w + dt →
  AuthContext.advance dt s w = (s, set_now (now w + dt) w, []).
Proof.
  intros Hone Hearly. unfold AuthContext.advance. rewrite Hone.
  rewrite !filter_cons, !filter_nil. cbn.
  rewrite decide_False, decide_True by done. cbn.
  by rewrite <- Hone, set_timers_same.
Qed.

Lemma advance_due dt s w id due :
  timers w = [(id, due)] → due ≤ now w + dt →
  AuthContext.advance dt s w
  = (AuthContext.setUserState None s,
     set_href "/login?reason=inactivity"
       (world (AuthService.logout
                 (set_now (now w + dt) (set_timers [] (next_timer w) w)))),
     events (AuthService.logout
               (set_now (now w + dt) (set_timers [] (next_timer w) w)))
       ++ [Navigate "/login?reason=inactivity"]).
Proof.
  intros Hone Hdue. unfold AuthContext.advance. rewrite Hone.
  rewrite !filter_cons, !filter_nil. cbn.
  rewrite decide_True, decide_False by (try done; by intros Hno; apply Hno).
  cbn. unfold mbind, M_bind. rewrite handleInactivityLogout_run.
  unfold mret, M_ret. by rewrite app_nil_r.
Qed.

Lemma advance_keeps_tracked dt s w :
  tracked s w →
  tracked (result (AuthContext.advance dt s w))
          (world (AuthContext.advance dt s w)).
Proof.
  intros Htracked.
  destruct Htracked as [Hnil|(id & due & Hone & Href)].
  - rewrite (advance_idle _ _ _ Hnil). by left.
  - destruct (decide (due ≤ now w + dt)) as [Hdue|Hearly].
    + rewrite (advance_due _ _ _ _ _ Hone Hdue). left. cbn.
      by destruct (authService_logout_elsewhere
                     (set_now (now w + dt) (set_timers [] (next_timer w) w)))
        as (-> & _).
    + rewrite (advance_early _ _ _ _ _ Hone Hearly). right.
      by exists id, due.
Qed.

Lemma session_cleared_without_user w :
  AuthContext.session_cleared w →
  AuthContext.session_cleared (set_storage (delete "user") w).
Proof.
  intros (Ha & Hr & Hu). unfold AuthContext.session_cleared. cbn.
  repeat split; by simplify_map_eq.
Qed.

Lemma logout_interleaved_run arrivals s w :
  tracked s w →
  ∃ s' w',
    tracked s' w'
    ∧ AuthContext.logout_interleaved JSON_parse JSON_stringify arrivals s w
      = (AuthContext.set_current None (AuthContext.setUserState None s'),
         set_timers [] (next_timer (world (AuthService.logout w')))
           (set_storage (delete "user") (world (AuthService.logout w'))),
         events (AuthContext.dispatchAll JSON_parse arrivals
                   (AuthContext.set_current None s)
                   (set_timers [] (next_timer w) w))
           ++ events (AuthService.logout w') ++ [RemoveItem "user"]).
Proof.
  intros Htracked. unfold AuthContext.logout_interleaved.
  unfold mbind at 1. unfold M_bind.
  rewrite (clearInactivityTimer_tracked _ _ Htracked).
  unfold mbind at 1. unfold M_bind.
  pose proof (dispatchAll_keeps_tracked arrivals
                (AuthContext.set_current None s)
                (set_timers [] (next_timer w) w) (tracked_none _ _ _))
    as Hduring.
  destruct (AuthContext.dispatchAll _ _ _ _) as [[s1 w1] ev1]. cbn in Hduring.
  exists s1, w1. split; [done|].
  unfold mbind at 1. unfold M_bind.
  pose proof (authService_logout_elsewhere w1) as Helse.
  destruct (AuthService.logout w1) as [[[] w2] ev2]. cbn in Helse.
  rewrite setUser_none_run by (by apply (tracked_elsewhere s1 w1)).
  done.
Qed.

Lemma logout_is_logout_interleaved s w :
  AuthContext.logout JSON_parse JSON_stringify s w
  = AuthContext.logout_interleaved JSON_parse JSON_stringify [] s w.
Proof.
  unfold AuthContext.logout, AuthContext.logout_interleaved.
  cbn [AuthContext.dispatchAll]. unfold_M.
  destruct (AuthContext.clearInactivityTimer s w) as [[s1 w1] ev1].
  destruct (AuthService.logout w1) as [[[] w2] ev2].
  by destruct (AuthContext.setUser _ _ None s1 w2) as [[s3 w3] ev3].
Qed.

Lemma logout_interleaved_keeps_tracked arrivals s w :
  tracked s w →
  tracked
    (result (AuthContext.logout_interleaved JSON_parse JSON_stringify
               arrivals s w))
    (world (AuthContext.logout_interleaved JSON_parse JSON_stringify
              arrivals s w)).
Proof.
  intros Htracked.
  destruct (logout_interleaved_run arrivals s w Htracked)
    as (s' & w' & _ & ->).
  by left.
Qed.

Lemma reachable_tracked s w :
  AuthContext.reachable JSON_parse JSON_stringify s w → tracked s w.
Proof.
  induction 1 as [w r Hfresh ->|s w type r _ IH ->|s w dt r _ IH _ ->
                 |s w u r _ IH ->|s w arrivals r _ IH ->|s w r _ IH ->
                 |s w w' _ IH Helse].
  - by apply mount_keeps_tracked.
  - by apply dispatchEvent_keeps_tracked.
  - by apply advance_keeps_tracked.
  - by apply setUser_keeps_tracked.
  - by apply logout_interleaved_keeps_tracked.
  - by apply unmount_keeps_tracked.
  - by apply (tracked_elsewhere s w).
Qed.

Lemma mount_listeners w :
  AuthContext.fresh w →
  listeners (world (AuthContext.mount JSON_parse AuthContext.initialState w))
  = AuthContext.activityEvents.
Proof.
  intros [Hnil Hnone]. rewrite (mount_run _ Hnil).
  destruct (current w); cbn; by rewrite Hnone.
Qed.

Lemma dispatchEvent_resets type s w :
  tracked s w → type ∈ listeners w → AuthContext.logged_in JSON_parse w →
  AuthContext.dispatchEvent JSON_parse type s w
  = (AuthContext.set_current (Some (Pos.succ (next_timer w))) s,
     set_timers [(Pos.succ (next_timer w), now w + AuthContext.INACTIVITY_TIMEOUT)]
       (Pos.succ (next_timer w)) w,
     []).
Proof.
  intros Htracked Hregistered [u Hu]. unfold AuthContext.dispatchEvent.
  rewrite decide_True by done.
  rewrite handleActivity_run, Hu, (resetInactivityTimer_tracked _ _ Htracked).
  by rewrite Hu.
Qed.

End InactivityTimer.

Lemma forced_logout_clears_then_redirects_witness :
  (href (world (Api.api list_request stale_page))
   = Some "/login?reason=session_expired"
   ∧ AuthContext.session_cleared (world (Api.api list_request stale_page)))
  ∧ (href (world (Api.api list_request signed_out_page))
     = Some "/login?reason=no_session"
     ∧ AuthContext.session_cleared
         (world (Api.api list_request signed_out_page))).
Proof.
  split.
  - destruct (forced_logout_clears_then_redirects (User := string)
                list_request AuthContext.initialState stale_page)
      as (_ & _ & Hexpired & _).
    apply Hexpired; reflexivity.
  - destruct (forced_logout_clears_then_redirects (User := string)
                list_request AuthContext.initialState signed_out_page)
      as (_ & _ & _ & Hnone & _).
    apply Hnone; reflexivity.
Defined.

(** ** The parameter object of the list pages *)

Lemma kept_idempotent (entry : option JS.Value) :
  RecipeListPage.kept (RecipeListPage.kept entry) = RecipeListPage.kept entry.
Proof.
  destruct entry as [v|]; [|done]. cbn.
  destruct (JS.is_empty_string v) eqn:Hv; [done|]. cbn. by rewrite Hv.
Qed.

Lemma kept_not_empty (entry : option JS.Value) (v : JS.Value) :
  RecipeListPage.kept entry = Some v → JS.is_empty_string v = false.
Proof.
  destruct entry as [v'|]; [|done]. cbn.
  destruct (JS.is_empty_string v') eqn:Hv; [done|]. by intros [= <-].
Qed.

Lemma lookup_delete_if_empty (o : gmap string JS.Value) (key k : string) :
  RecipeListPage.delete_if_empty o key !! k
  = if decide (key = k) then RecipeListPage.kept (o !! k) else o !! k.
Proof.
  unfold RecipeListPage.delete_if_empty, RecipeListPage.kept.
  destruct (decide (key = k)) as [->|Hne].
  - destruct (o !! k) as [v|] eqn:Hk; [|done].
    destruct (JS.is_empty_string v); [|done]. by rewrite lookup_delete_eq.
  - destruct (o !! key) as [v|]; [|done].
    destruct (JS.is_empty_string v); [|done]. by rewrite lookup_delete_ne.
Qed.

Lemma lookup_foldl_delete_if_empty (ks : list string)
    (o : gmap string JS.Value) (k : string) :
  foldl RecipeListPage.delete_if_empty o ks !! k
  = if decide (k ∈ ks) then RecipeListPage.kept (o !! k) else o !! k.
Proof.
  revert o. induction ks as [|key ks IH]; intros o; [done|].
  cbn [foldl]. rewrite IH, lookup_delete_if_empty.
  destruct (decide (key = k)) as [->|Hne].
  - rewrite (decide_True (P := k ∈ k :: ks)) by apply list_elem_of_here.
    destruct (decide (k ∈ ks)); [apply kept_idempotent|done].
  - destruct (decide (k ∈ ks)) as [Hin|Hout].
    + by rewrite decide_True by (by apply list_elem_of_further).
    + rewrite decide_False; [done|].
      intros [Heq|Hin]%elem_of_cons; [by destruct Hne|by destruct Hout].
Qed.

Lemma lookup_remove_empty (o : gmap string JS.Value) (k : string) :
  RecipeListPage.remove_empty o !! k = RecipeListPage.kept (o !! k).
Proof.
  unfold RecipeListPage.remove_empty. rewrite lookup_foldl_delete_if_empty.
  destruct (decide _) as [Hin|Hout]; [done|].
  destruct (o !! k) as [v|] eqn:Hk; [|done].
  destruct Hout. unfold RecipeListPage.keys.
  apply list_elem_of_fmap. exists (k, v). split; [done|].
  by apply elem_of_map_to_list.
Qed.

Lemma intercepted_same (c : Config) (w : World) :
  Api.same_request (Api.intercepted c w) c.
Proof.
  unfold Api.same_request, Api.intercepted, Api.request_interceptor, result,
    getItem.
  unfold_M. cbn. destruct c as [m u p d a ct to r].
  destruct (storage w !! "access_token") as [t|]; [destruct (JS.truthy t)|];
    destruct d; cbn; repeat split; reflexivity.
Qed.

Lemma api_sends (c c' : Config) (client : Client) (w : World) :
  Send client c' ∈ events (Api.api c w) →
  (client = ViaApi ∧ Api.same_request c' c)
  ∨ (client = ViaAxios ∧ ∃ token, c' = Api.refresh_request token).
Proof.
  rewrite api_events. intros [Heq|Hin]%elem_of_cons.
  { injection Heq as -> ->. left. split; [done|]. apply intercepted_same. }
  destruct (_ && _); [|by apply elem_of_nil in Hin]. cbn in Hin.
  destruct (JS.truthy_item _).
  - destruct (outcome 1 w) as [r|]; [destruct (ok_status (status r))|].
    + repeat (apply elem_of_cons in Hin; destruct Hin as [Heq|Hin];
              [try discriminate Heq|]).
      * injection Heq as -> ->. right. split; [done|]. by eexists.
      * injection Heq as -> ->. left. split; [done|].
        unfold Api.same_request.
        destruct (intercepted_same
                    (set_Authorization
                       ("Bearer "
                        +:+ Api.to_string (response_data r !! "access"))
                       (set_retry true (Api.intercepted c w)))
                    (set_storage
                       (insert "access_token"
                          (Api.to_string (response_data r !! "access")))
                       (sent (sent w)))) as (-> & -> & -> & ->).
        apply intercepted_same.
      * by apply elem_of_nil in Hin.
    + apply elem_of_cons in Hin. destruct Hin as [Heq|Hin].
      * injection Heq as -> ->. right. split; [done|]. by eexists.
      * repeat (apply elem_of_cons in Hin; destruct Hin as [Heq|Hin];
                [discriminate Heq|]).
        by apply elem_of_nil in Hin.
    + apply elem_of_cons in Hin. destruct Hin as [Heq|Hin].
      * injection Heq as -> ->. right. split; [done|]. by eexists.
      * repeat (apply elem_of_cons in Hin; destruct Hin as [Heq|Hin];
                [discriminate Heq|]).
        by apply elem_of_nil in Hin.
  - repeat (apply elem_of_cons in Hin; destruct Hin as [Heq|Hin];
            [discriminate Heq|]).
    by apply elem_of_nil in Hin.
Qed.

Lemma api_sends_params (c c' : Config) (w : World) :
  Send ViaApi c' ∈ events (Api.api c w) → params c' = params c.
Proof.
  intros [[_ (_ & _ & Hparams & _)]|[Hno _]]%api_sends; [done|discriminate].
Qed.

Lemma lookup_spread_search (term : string) (o : gmap string JS.Value)
    (k : string) :
  RecipeListPage.spread_search term o !! k
  = if decide (k = "search") then
      (if JS.truthy term then Some (JS.Str term) else o !! k)
    else o !! k.
Proof.
  unfold RecipeListPage.spread_search.
  destruct (JS.truthy term); destruct (decide _) as [->|?];
    by simplify_map_eq.
Qed.

Lemma kept_search (term : string) :
  RecipeListPage.kept (if JS.truthy term then Some (JS.Str term) else None)
  = RecipeListPage.carried term.
Proof. by destruct term. Qed.

Lemma carried_is_Some (value : string) :
  is_Some (RecipeListPage.carried value) ↔ value ≠ "".
Proof.
  destruct value; cbn; split; done.
Qed.

(** C7.  The parameter object that the recipe list page and the
    my-recipes page send with the list request has no key whose value is
    the empty string; each of the four filters is absent when its value is
    [''] and carries its value unchanged otherwise; [search] is present
    exactly when the search term is not empty, and then carries the term.
    Each page does send the list request, a GET of [/recipes/] with this
    object as its [params], as the first thing it does, and every request
    it sends through [api] afterwards is this request again. *)
Theorem list_params_omit_empty_values
    (filters : RecipeListPage.Filters) (searchTerm : string)
    (user_id : JS.Value) (w : World) :
  let p := RecipeListPage.params_of filters searchTerm in
  let q := MyRecipesPage.params_of filters user_id searchTerm in
  ((∀ k, p !! k ≠ Some (JS.Str "")) ∧ (∀ k, q !! k ≠ Some (JS.Str "")))
  ∧ (p !! "course_type"
       = RecipeListPage.carried (RecipeListPage.course_type filters)
     ∧ p !! "recipe_type"
       = RecipeListPage.carried (RecipeListPage.recipe_type filters)
     ∧ p !! "primary_protein"
       = RecipeListPage.carried (RecipeListPage.primary_protein filters)
     ∧ p !! "ethnic_style"
       = RecipeListPage.carried (RecipeListPage.ethnic_style filters))
  ∧ (q !! "course_type"
       = RecipeListPage.carried (RecipeListPage.course_type filters)
     ∧ q !! "recipe_type"
       = RecipeListPage.carried (RecipeListPage.recipe_type filters)
     ∧ q !! "primary_protein"
       = RecipeListPage.carried (RecipeListPage.primary_protein filters)
     ∧ q !! "ethnic_style"
       = RecipeListPage.carried (RecipeListPage.ethnic_style filters)
     ∧ q !! "uploaded_by" = RecipeListPage.kept (Some user_id))
  ∧ (p !! "search" = RecipeListPage.carried searchTerm
     ∧ q !! "search" = RecipeListPage.carried searchTerm
     ∧ (is_Some (p !! "search") ↔ searchTerm ≠ "")
     ∧ (is_Some (q !! "search") ↔ searchTerm ≠ ""))
  ∧ ((∃ c rest,
        events (RecipeListPage.fetchRecipes filters searchTerm w)
        = Send ViaApi c :: rest
        ∧ method c = "get" ∧ url c = "/recipes/" ∧ params c = p
        ∧ data c = NoBody)
     ∧ (∀ c, Send ViaApi c
               ∈ events (RecipeListPage.fetchRecipes filters searchTerm w) →
             method c = "get" ∧ url c = "/recipes/" ∧ params c = p))
  ∧ ((∃ c rest,
        events (MyRecipesPage.fetchMyRecipes filters user_id searchTerm w)
        = Send ViaApi c :: rest
        ∧ method c = "get" ∧ url c = "/recipes/" ∧ params c = q
        ∧ data c = NoBody)
     ∧ (∀ c, Send ViaApi c
               ∈ events (MyRecipesPage.fetchMyRecipes filters user_id
                           searchTerm w) →
             method c = "get" ∧ url c = "/recipes/" ∧ params c = q)).
Proof.
  intros p q.
  assert (∀ k, p !! k
               = RecipeListPage.kept
                   (RecipeListPage.spread_search searchTerm
                      (RecipeListPage.spread_filters filters) !! k)) as Hp.
  { intros k. apply lookup_remove_empty. }
  assert (∀ k, q !! k
               = RecipeListPage.kept
                   (RecipeListPage.spread_search searchTerm
                      (<["uploaded_by" := user_id]>
                         (RecipeListPage.spread_filters filters)) !! k))
    as Hq.
  { intros k. apply lookup_remove_empty. }
  assert (p !! "search" = RecipeListPage.carried searchTerm) as Hps.
  { rewrite Hp, lookup_spread_search. cbn. apply kept_search. }
  assert (q !! "search" = RecipeListPage.carried searchTerm) as Hqs.
  { rewrite Hq, lookup_spread_search. cbn. apply kept_search. }
  split.
  { split; intros k Hk.
    - rewrite Hp in Hk. by apply kept_not_empty in Hk.
    - rewrite Hq in Hk. by apply kept_not_empty in Hk. }
  split.
  { rewrite !Hp, !lookup_spread_search. cbn. done. }
  split.
  { rewrite !Hq, !lookup_spread_search. cbn. done. }
  split.
  { rewrite Hps, Hqs. repeat split; try apply carried_is_Some. }
  assert (∀ o,
            (∃ c rest,
               events (RecipeService.getRecipes o w) = Send ViaApi c :: rest
               ∧ method c = "get" ∧ url c = "/recipes/" ∧ params c = o
               ∧ data c = NoBody)
            ∧ (∀ c, Send ViaApi c ∈ events (RecipeService.getRecipes o w) →
                    method c = "get" ∧ url c = "/recipes/" ∧ params c = o))
    as Hsent.
  { intros o. unfold RecipeService.getRecipes, Api.get. split.
    - rewrite api_events. eexists _, _. split; [reflexivity|].
      by destruct (intercepted_same (Api.request "get" "/recipes/" o NoBody)
                     w) as (-> & -> & -> & ->).
    - intros c [[_ (-> & -> & -> & _)]|[Hno _]]%api_sends;
        [done|discriminate]. }
  split; apply Hsent.
Qed.

Lemma list_params_omit_empty_values_witness :
  RecipeListPage.params_of dinner_chicken "pasta"
  = {[ "course_type" := JS.Str "Dinner";
       "primary_protein" := JS.Str "Chicken";
       "search" := JS.Str "pasta" ]}
  ∧ (∃ c rest,
        events (RecipeListPage.fetchRecipes dinner_chicken "pasta" stale_page)
        = Send ViaApi c :: rest
        ∧ method c = "get" ∧ url c = "/recipes/"
        ∧ params c = RecipeListPage.params_of dinner_chicken "pasta"
        ∧ data c = NoBody)
  ∧ is_Some (RecipeListPage.params_of dinner_chicken "pasta" !! "search").
Proof.
  destruct (list_params_omit_empty_values dinner_chicken "pasta"
              (JS.Num 7) stale_page)
    as (_ & _ & _ & (_ & _ & Hsearch & _) & [Hsent _] & _).
  split; [by vm_compute|]. split; [exact Hsent|].
  apply Hsearch. discriminate.
Defined.

(** ** The comment form *)

Lemma truthy_nonempty (text : string) : JS.truthy text = true ↔ text ≠ "".
Proof. by destruct text. Qed.

Lemma handleSubmit_blank (recipeId : JS.Value) (s : CommentSection.State)
    (w : World) :
  JS.trim (CommentSection.commentText s) = "" →
  CommentSection.handleSubmit recipeId s w
  = (CommentSection.setError "Comment cannot be empty." s, w, []).
Proof.
  intros Hblank. unfold CommentSection.handleSubmit. by rewrite Hblank.
Qed.

Lemma handleSubmit_events (recipeId : JS.Value) (s : CommentSection.State)
    (w : World) :
  JS.trim (CommentSection.commentText s) ≠ "" →
  ∃ rest fetch,
    events (CommentSection.handleSubmit recipeId s w)
    = events (CommentService.createComment recipeId
                (JS.trim (CommentSection.commentText s)) w) ++ rest
    ∧ (rest = []
       ∨ rest = events (CommentService.getComments recipeId fetch)).
Proof.
  intros Htext%truthy_nonempty. unfold CommentSection.handleSubmit.
  rewrite Htext. cbn [negb]. unfold mbind at 1. unfold M_bind.
  cbn [CommentSection.commentText CommentSection.setError
       CommentSection.setSubmitting].
  destruct (CommentService.createComment _ _ w) as [[created w1] ev1].
  unfold_M. destruct created as [r|err].
  - unfold CommentSection.fetchComments. unfold_M.
    exists (events (CommentService.getComments recipeId w1)), w1.
    destruct (CommentService.getComments recipeId w1) as [[fetched w2] ev2].
    cbn. split; [|by right]. by rewrite !app_nil_r.
  - exists [], w1. cbn. split; [|by left]. by rewrite !app_nil_r.
Qed.

Lemma refresh_is_not_create (token : string) :
  CommentSection.is_create (Send ViaAxios (Api.refresh_request token)) = false.
Proof. reflexivity. Qed.

(** C8.  The comment form is rendered only for an authenticated user.
    Submitting a text that is empty once trimmed issues no request at all
    and shows the error "Comment cannot be empty."; submitting any other
    text starts with the create request, and every create request that is
    issued carries the trimmed text, which is not empty. *)
Theorem comment_creation_requires_login_and_text
    (recipeId : JS.Value) (isAuthenticated : bool)
    (s : CommentSection.State) (w : World) :
  (CommentSection.shows_form
     (CommentSection.render recipeId isAuthenticated s) = true →
   isAuthenticated = true)
  ∧ (JS.trim (CommentSection.commentText s) = "" →
     events (CommentSection.handleSubmit recipeId s w) = []
     ∧ CommentSection.error
         (result (CommentSection.handleSubmit recipeId s w))
       = "Comment cannot be empty.")
  ∧ (JS.trim (CommentSection.commentText s) ≠ "" →
     ∃ c rest,
       events (CommentSection.handleSubmit recipeId s w)
       = Send ViaApi c :: rest
       ∧ CommentSection.is_create (Send ViaApi c) = true)
  ∧ (∀ client c,
       Send client c ∈ events (CommentSection.handleSubmit recipeId s w) →
       CommentSection.is_create (Send client c) = true →
       JS.trim (CommentSection.commentText s) ≠ ""
       ∧ CommentSection.comment_text_of c
         = Some (JS.Str (JS.trim (CommentSection.commentText s)))).
Proof.
  split.
  { unfold CommentSection.render.
    destruct (negb _); [done|]. destruct (CommentSection.loading s); [done|].
    by destruct isAuthenticated. }
  split.
  { intros Hblank. by rewrite (handleSubmit_blank _ _ _ Hblank). }
  split.
  { intros Htext.
    destruct (handleSubmit_events recipeId s w Htext)
      as (rest & fetch & -> & _).
    unfold CommentService.createComment, Api.post.
    rewrite api_events. eexists _, _. split; [reflexivity|].
    unfold CommentSection.is_create.
    by destruct (intercepted_same
                   (Api.request "post" "/recipes/comments/" ∅
                      (Json {[ "recipe" := recipeId;
                               "comment_text" :=
                                 JS.Str (JS.trim
                                           (CommentSection.commentText s)) ]}))
                   w) as (-> & -> & _). }
  intros client c Hin Hcreate.
  destruct (decide (JS.trim (CommentSection.commentText s) = ""))
    as [Hblank|Htext].
  { rewrite (handleSubmit_blank _ _ _ Hblank) in Hin.
    by apply elem_of_nil in Hin. }
  split; [done|].
  destruct (handleSubmit_events recipeId s w Htext)
    as (rest & fetch & Hevents & Hrest).
  rewrite Hevents in Hin. apply elem_of_app in Hin as [Hin|Hin].
  - apply api_sends in Hin as [[-> (_ & _ & _ & Hdata)]|[-> [token ->]]].
    + unfold CommentSection.comment_text_of. rewrite Hdata. cbn.
      by simplify_map_eq.
    + by rewrite refresh_is_not_create in Hcreate.
  - destruct Hrest as [->| ->]; [by apply elem_of_nil in Hin|].
    apply api_sends in Hin as [[-> (Hmethod & _)]|[-> [token ->]]].
    + unfold CommentSection.is_create in Hcreate. by rewrite Hmethod in Hcreate.
    + by rewrite refresh_is_not_create in Hcreate.
Qed.

Lemma comment_creation_requires_login_and_text_witness :
  events (CommentSection.handleSubmit (JS.Num 7) typed_spaces stale_page) = []
  ∧ (∃ c rest,
       events (CommentSection.handleSubmit (JS.Num 7) typed_comment stale_page)
       = Send ViaApi c :: rest
       ∧ CommentSection.comment_text_of c = Some (JS.Str "Great recipe!"))
  ∧ CommentSection.shows_form
      (CommentSection.render (JS.Num 7) false typed_comment) = false.
Proof.
  destruct (comment_creation_requires_login_and_text (JS.Num 7) true
              typed_spaces stale_page) as (_ & Hblank & _).
  destruct (comment_creation_requires_login_and_text (JS.Num 7) false
              typed_comment stale_page) as (Hform & _ & Hfirst & Htext).
  split; [apply Hblank; reflexivity|]. split.
  - destruct Hfirst as (c & rest & Hevents & Hcreate); [discriminate|].
    exists c, rest. split; [exact Hevents|].
    apply (Htext ViaApi c); [|exact Hcreate].
    rewrite Hevents. apply list_elem_of_here.
  - destruct (CommentSection.shows_form _) eqn:Hshown; [|reflexivity].
    discriminate (Hform eq_refl).
Defined.

(** ** The derived total time *)

(** C4.  [computeTotalTime] is the sum of its two arguments, a function
    of nothing else; the recipe returned by a create and by an update has
    [total_time] equal to the [prep_time] plus the [cook_time] it is
    returned with, which are those of the payload, so an update that
    changes either time changes the total with it; and the same holds for
    every recipe read from the store. *)
Theorem total_time_is_prep_plus_cook
    (payload : Backend.Payload) (store : gmap nat Backend.Row) (id : nat) :
  (∀ prep cook, Backend.computeTotalTime prep cook = prep + cook)
  ∧ (∀ id' returned store',
       Backend.create payload store = Some (id', returned, store') →
       Backend.total_time returned
       = Backend.prep_time returned + Backend.cook_time returned
       ∧ Backend.prep_time returned = Backend.payload_prep_time payload
       ∧ Backend.cook_time returned = Backend.payload_cook_time payload
       ∧ Backend.read id' store' = Some returned)
  ∧ (∀ returned store',
       Backend.update id payload store = Some (returned, store') →
       Backend.total_time returned
       = Backend.prep_time returned + Backend.cook_time returned
       ∧ Backend.prep_time returned = Backend.payload_prep_time payload
       ∧ Backend.cook_time returned = Backend.payload_cook_time payload
       ∧ Backend.read id store' = Some returned)
  ∧ (∀ returned,
       Backend.read id store = Some returned →
       Backend.total_time returned
       = Backend.prep_time returned + Backend.cook_time returned)
  ∧ (Backend.valid payload = true →
     is_Some (Backend.create payload store)
     ∧ (is_Some (store !! id) → is_Some (Backend.update id payload store))).
Proof.
  split; [done|]. split.
  { intros id' returned store'. unfold Backend.create.
    destruct (Backend.valid payload); [|done]. intros [= <- <- <-].
    repeat split. unfold Backend.read. by rewrite lookup_insert_eq. }
  split.
  { intros returned store'. unfold Backend.update.
    destruct (Backend.valid payload); [|done].
    destruct (store !! id); [|done]. intros [= <- <-].
    repeat split. unfold Backend.read. by rewrite lookup_insert_eq. }
  split.
  { intros returned. unfold Backend.read.
    destruct (store !! id); [|done]. by intros [= <-]. }
  intros Hvalid. unfold Backend.create, Backend.update. rewrite Hvalid.
  split; [done|]. by intros [row ->].
Qed.

Lemma total_time_is_prep_plus_cook_witness :
  (∃ id returned store,
      Backend.create carbonara_payload ∅ = Some (id, returned, store)
      ∧ Backend.total_time returned = 30
      ∧ ∃ updated store',
          Backend.update id quicker_payload store = Some (updated, store')
          ∧ Backend.total_time updated = 25).
Proof.
  destruct (total_time_is_prep_plus_cook carbonara_payload ∅ 0)
    as (_ & Hcreate & _ & _ & Hsome).
  destruct Hsome as [[[[id returned] store] Hcreated] _]; [reflexivity|].
  exists id, returned, store. split; [exact Hcreated|].
  destruct (Hcreate id returned store Hcreated) as (-> & -> & -> & Hread).
  split; [reflexivity|].
  destruct (total_time_is_prep_plus_cook quicker_payload store id)
    as (_ & _ & Hupdate & _ & Hsome').
  destruct Hsome' as [_ Hupdated]; [reflexivity|].
  destruct Hupdated as [[updated store'] Hupdated].
  { unfold Backend.read in Hread. by destruct (store !! id). }
  exists updated, store'. split; [exact Hupdated|].
  by destruct (Hupdate updated store' Hupdated) as (-> & -> & -> & _).
Defined.

(** * Further properties *)

(** ** The recipe form: what the handlers keep *)

Lemma filter_index_from_delete {A : Type} (k i : nat) (l : list A) :
  (i ≤ k)%nat →
  CreateRecipePage.filter_index_from (λ index, negb (index =? k)%nat) i l
  = delete (k - i)%nat l.
Proof.
  revert i. induction l as [|x l IH]; intros i Hi; [done|].
  cbn [CreateRecipePage.filter_index_from].
  destruct (Nat.eqb_spec i k) as [->|Hne]; cbn [negb].
  - rewrite Nat.sub_diag. cbn. apply filter_index_from_all. lia.
  - rewrite IH by lia.
    replace (k - i)%nat with (S (k - S i)) by lia. done.
Qed.

Lemma filter_index_ne_delete {A : Type} (k : nat) (l : list A) :
  CreateRecipePage.filter_index_ne k l = delete k l.
Proof.
  unfold CreateRecipePage.filter_index_ne.
  rewrite filter_index_from_delete by lia. by rewrite Nat.sub_0_r.
Qed.

Lemma imap_keeps {A B : Type} (f : nat → A → A) (g : A → B) (l : list A) :
  (∀ i x, g (f i x) = g x) → g <$> imap f l = g <$> l.
Proof.
  intros Hg. apply list_eq. intros i.
  rewrite !list_lookup_fmap, list_lookup_imap.
  destruct (l !! i); cbn; [by rewrite Hg|done].
Qed.

Lemma imap_renumber_id {A : Type} (get : A → nat) (set : nat → A → A)
    (l : list A) :
  (∀ x, set (get x) x = x) →
  get <$> l = seq 1 (length l) →
  imap (λ index x, set (index + 1)%nat x) l = l.
Proof.
  intros Hset Hseq. apply list_eq. intros i. rewrite list_lookup_imap.
  destruct (l !! i) as [x|] eqn:Hx; [|done]. cbn. f_equal.
  assert ((get <$> l) !! i = Some (get x)) as Hget
    by (by rewrite list_lookup_fmap, Hx).
  rewrite Hseq in Hget. apply lookup_seq in Hget as [Hget _].
  rewrite Nat.add_comm, <- Hget. apply Hset.
Qed.

Lemma set_ingredient_section_order_id (s : Ingredients.Section_) :
  Ingredients.set_section_order (Ingredients.section_order s) s = s.
Proof. by destruct s. Qed.

Lemma set_ingredient_order_id (i : Ingredients.Ingredient) :
  Ingredients.set_ingredient_order (Ingredients.ingredient_order i) i = i.
Proof. by destruct i. Qed.

Lemma set_instruction_section_order_id (s : Instructions.Section_) :
  Instructions.set_section_order (Instructions.section_order s) s = s.
Proof. by destruct s. Qed.

Lemma set_step_order_id (i : Instructions.Instruction) :
  Instructions.set_step_order (Instructions.step_order i) i = i.
Proof. by destruct i. Qed.

(** X2-style: removal *)
Lemma removeIngredientSection_rest (k : nat)
    (l : list Ingredients.Section_) :
  Ingredients.section_title <$> CreateRecipePage.removeIngredientSection k l
  = delete k (Ingredients.section_title <$> l)
  ∧ Ingredients.ingredients <$> CreateRecipePage.removeIngredientSection k l
    = delete k (Ingredients.ingredients <$> l).
Proof.
  unfold CreateRecipePage.removeIngredientSection.
  rewrite filter_index_ne_delete, !imap_keeps by done.
  by rewrite !list_fmap_delete.
Qed.

Lemma removeInstructionSection_rest (k : nat)
    (l : list Instructions.Section_) :
  Instructions.section_title <$> CreateRecipePage.removeInstructionSection k l
  = delete k (Instructions.section_title <$> l)
  ∧ Instructions.instructions
      <$> CreateRecipePage.removeInstructionSection k l
    = delete k (Instructions.instructions <$> l).
Proof.
  unfold CreateRecipePage.removeInstructionSection.
  rewrite filter_index_ne_delete, !imap_keeps by done.
  by rewrite !list_fmap_delete.
Qed.

Lemma ingredient_control_keeps_shape (c : CreateRecipePage.IngredientControl)
    (l : list Ingredients.Section_) :
  CreateRecipePage.ingredient_sections_in_shape l →
  CreateRecipePage.ingredient_control_rendered c l = true →
  ∃ l', CreateRecipePage.use_ingredient_control c l = Some l'
        ∧ CreateRecipePage.ingredient_sections_in_shape l'.
Proof.
  intros (Hne & Horders & Hitems) Hrendered.
  unfold CreateRecipePage.use_ingredient_control. rewrite Hrendered.
  destruct c as [|k|s|s i|s title|s i field value];
    cbn [CreateRecipePage.ingredient_control_rendered
         CreateRecipePage.ingredient_handler] in Hrendered |- *.
  - eexists. split; [reflexivity|]. split; [|split].
    + unfold CreateRecipePage.addIngredientSection. by destruct l.
    + unfold CreateRecipePage.addIngredientSection. rewrite length_app. cbn.
      by apply (append_orders Ingredients.section_order).
    + apply Forall_app. split; [done|]. by repeat constructor.
  - apply andb_true_iff in Hrendered as [Hk%Nat.ltb_lt Hmany%Nat.ltb_lt].
    eexists. split; [reflexivity|].
    unfold CreateRecipePage.removeIngredientSection.
    rewrite filter_index_ne_delete.
    assert (length (delete k l) = (length l - 1)%nat) as Hlen
      by (rewrite length_delete; [lia|by apply lookup_lt_is_Some_2]).
    split; [|split].
    + intros Hnil. apply (f_equal length) in Hnil.
      rewrite length_imap, Hlen in Hnil. cbn in Hnil. lia.
    + rewrite length_imap.
      apply (renumber_orders _ _ ingredient_section_order_set).
    + apply Forall_lookup. intros j x Hx. rewrite list_lookup_imap in Hx.
      destruct (delete k l !! j) as [y|] eqn:Hy; [|done].
      injection Hx as <-. cbn.
      apply (Forall_lookup_1 _ _ _ _ (Forall_delete _ _ k Hitems) Hy).
  - apply Nat.ltb_lt, lookup_lt_is_Some_2 in Hrendered as [section Hsection].
    unfold CreateRecipePage.addIngredient. rewrite Hsection. cbn.
    eexists. split; [reflexivity|].
    destruct (Forall_lookup_1 _ _ _ _ Hitems Hsection) as [Hsome Hseq].
    split; [|split].
    + intros Hnil. apply (f_equal length) in Hnil.
      rewrite length_insert in Hnil. by destruct l.
    + rewrite length_insert, list_fmap_insert. cbn.
      rewrite list_insert_id; [done|]. by rewrite list_lookup_fmap, Hsection.
    + apply Forall_insert; [done|]. cbn. split.
      * by destruct (Ingredients.ingredients section).
      * rewrite length_app. cbn.
        by apply (append_orders Ingredients.ingredient_order).
  - destruct (l !! s) as [section|] eqn:Hsection; [|done].
    apply andb_true_iff in Hrendered as [Hi%Nat.ltb_lt Hmany%Nat.ltb_lt].
    unfold CreateRecipePage.removeIngredient. rewrite Hsection. cbn.
    eexists. split; [reflexivity|]. rewrite filter_index_ne_delete.
    assert (length (delete i (Ingredients.ingredients section))
            = (length (Ingredients.ingredients section) - 1)%nat) as Hlen
      by (rewrite length_delete; [lia|by apply lookup_lt_is_Some_2]).
    split; [|split].
    + intros Hnil. apply (f_equal length) in Hnil.
      rewrite length_insert in Hnil. by destruct l.
    + rewrite length_insert, list_fmap_insert. cbn.
      rewrite list_insert_id; [done|]. by rewrite list_lookup_fmap, Hsection.
    + apply Forall_insert; [done|]. cbn. split.
      * intros Hnil. apply (f_equal length) in Hnil.
        rewrite length_imap, Hlen in Hnil. cbn in Hnil. lia.
      * rewrite length_imap.
        apply (renumber_orders _ _ ingredient_order_set).
  - apply Nat.ltb_lt, lookup_lt_is_Some_2 in Hrendered as [section Hsection].
    unfold CreateRecipePage.updateIngredientSectionTitle.
    rewrite Hsection. cbn. eexists. split; [reflexivity|].
    destruct (Forall_lookup_1 _ _ _ _ Hitems Hsection) as [Hsome Hseq].
    split; [|split].
    + intros Hnil. apply (f_equal length) in Hnil.
      rewrite length_insert in Hnil. by destruct l.
    + rewrite length_insert, list_fmap_insert. cbn.
      rewrite list_insert_id; [done|]. by rewrite list_lookup_fmap, Hsection.
    + by apply Forall_insert.
  - destruct (l !! s) as [section|] eqn:Hsection; [|done].
    apply Nat.ltb_lt, lookup_lt_is_Some_2 in Hrendered
      as [ingredient Hingredient].
    unfold CreateRecipePage.updateIngredient. rewrite Hsection. cbn.
    rewrite Hingredient. cbn. eexists. split; [reflexivity|].
    destruct (Forall_lookup_1 _ _ _ _ Hitems Hsection) as [Hsome Hseq].
    split; [|split].
    + intros Hnil. apply (f_equal length) in Hnil.
      rewrite length_insert in Hnil. by destruct l.
    + rewrite length_insert, list_fmap_insert. cbn.
      rewrite list_insert_id; [done|]. by rewrite list_lookup_fmap, Hsection.
    + apply Forall_insert; [done|]. cbn. split.
      * intros Hnil. apply (f_equal length) in Hnil.
        rewrite length_insert in Hnil.
        by destruct (Ingredients.ingredients section).
      * rewrite length_insert, list_fmap_insert.
        rewrite list_insert_id; [done|].
        rewrite list_lookup_fmap, Hingredient. by destruct field.
Qed.

Lemma ingredient_controls_keep_shape
    (controls : list CreateRecipePage.IngredientControl)
    (l l' : list Ingredients.Section_) :
  CreateRecipePage.ingredient_sections_in_shape l →
  CreateRecipePage.use_ingredient_controls controls l = Some l' →
  CreateRecipePage.ingredient_sections_in_shape l'.
Proof.
  revert l. induction controls as [|c controls IH]; intros l Hshape Hrun.
  - by injection Hrun as <-.
  - cbn in Hrun.
    destruct (CreateRecipePage.use_ingredient_control c l) as [next|] eqn:Hc;
      [|done].
    cbn in Hrun. apply (IH next); [|done].
    unfold CreateRecipePage.use_ingredient_control in Hc.
    destruct (CreateRecipePage.ingredient_control_rendered c l) eqn:Hr;
      [|done].
    destruct (ingredient_control_keeps_shape c l Hshape Hr)
      as (l1 & Hl1 & Hshape1).
    unfold CreateRecipePage.use_ingredient_control in Hl1.
    rewrite Hr in Hl1. congruence.
Qed.
Lemma instruction_control_keeps_shape (c : CreateRecipePage.InstructionControl)
    (l : list Instructions.Section_) :
  CreateRecipePage.instruction_sections_in_shape l →
  CreateRecipePage.instruction_control_rendered c l = true →
  ∃ l', CreateRecipePage.use_instruction_control c l = Some l'
        ∧ CreateRecipePage.instruction_sections_in_shape l'.
Proof.
  intros (Hne & Horders & Hitems) Hrendered.
  unfold CreateRecipePage.use_instruction_control. rewrite Hrendered.
  destruct c as [|k|s|s i|s title|s i value];
    cbn [CreateRecipePage.instruction_control_rendered
         CreateRecipePage.instruction_handler] in Hrendered |- *.
  - eexists. split; [reflexivity|]. split; [|split].
    + unfold CreateRecipePage.addInstructionSection. by destruct l.
    + unfold CreateRecipePage.addInstructionSection. rewrite length_app. cbn.
      by apply (append_orders Instructions.section_order).
    + apply Forall_app. split; [done|]. by repeat constructor.
  - apply andb_true_iff in Hrendered as [Hk%Nat.ltb_lt Hmany%Nat.ltb_lt].
    eexists. split; [reflexivity|].
    unfold CreateRecipePage.removeInstructionSection.
    rewrite filter_index_ne_delete.
    assert (length (delete k l) = (length l - 1)%nat) as Hlen
      by (rewrite length_delete; [lia|by apply lookup_lt_is_Some_2]).
    split; [|split].
    + intros Hnil. apply (f_equal length) in Hnil.
      rewrite length_imap, Hlen in Hnil. cbn in Hnil. lia.
    + rewrite length_imap.
      apply (renumber_orders _ _ instruction_section_order_set).
    + apply Forall_lookup. intros j x Hx. rewrite list_lookup_imap in Hx.
      destruct (delete k l !! j) as [y|] eqn:Hy; [|done].
      injection Hx as <-. cbn.
      apply (Forall_lookup_1 _ _ _ _ (Forall_delete _ _ k Hitems) Hy).
  - apply Nat.ltb_lt, lookup_lt_is_Some_2 in Hrendered as [section Hsection].
    unfold CreateRecipePage.addInstruction. rewrite Hsection. cbn.
    eexists. split; [reflexivity|].
    destruct (Forall_lookup_1 _ _ _ _ Hitems Hsection) as [Hsome Hseq].
    split; [|split].
    + intros Hnil. apply (f_equal length) in Hnil.
      rewrite length_insert in Hnil. by destruct l.
    + rewrite length_insert, list_fmap_insert. cbn.
      rewrite list_insert_id; [done|]. by rewrite list_lookup_fmap, Hsection.
    + apply Forall_insert; [done|]. cbn. split.
      * by destruct (Instructions.instructions section).
      * rewrite length_app. cbn.
        by apply (append_orders Instructions.step_order).
  - destruct (l !! s) as [section|] eqn:Hsection; [|done].
    apply andb_true_iff in Hrendered as [Hi%Nat.ltb_lt Hmany%Nat.ltb_lt].
    unfold CreateRecipePage.removeInstruction. rewrite Hsection. cbn.
    eexists. split; [reflexivity|]. rewrite filter_index_ne_delete.
    assert (length (delete i (Instructions.instructions section))
            = (length (Instructions.instructions section) - 1)%nat) as Hlen
      by (rewrite length_delete; [lia|by apply lookup_lt_is_Some_2]).
    split; [|split].
    + intros Hnil. apply (f_equal length) in Hnil.
      rewrite length_insert in Hnil. by destruct l.
    + rewrite length_insert, list_fmap_insert. cbn.
      rewrite list_insert_id; [done|]. by rewrite list_lookup_fmap, Hsection.
    + apply Forall_insert; [done|]. cbn. split.
      * intros Hnil. apply (f_equal length) in Hnil.
        rewrite length_imap, Hlen in Hnil. cbn in Hnil. lia.
      * rewrite length_imap.
        apply (renumber_orders _ _ step_order_set).
  - apply Nat.ltb_lt, lookup_lt_is_Some_2 in Hrendered as [section Hsection].
    unfold CreateRecipePage.updateInstructionSectionTitle.
    rewrite Hsection. cbn. eexists. split; [reflexivity|].
    destruct (Forall_lookup_1 _ _ _ _ Hitems Hsection) as [Hsome Hseq].
    split; [|split].
    + intros Hnil. apply (f_equal length) in Hnil.
      rewrite length_insert in Hnil. by destruct l.
    + rewrite length_insert, list_fmap_insert. cbn.
      rewrite list_insert_id; [done|]. by rewrite list_lookup_fmap, Hsection.
    + by apply Forall_insert.
  - destruct (l !! s) as [section|] eqn:Hsection; [|done].
    apply Nat.ltb_lt, lookup_lt_is_Some_2 in Hrendered
      as [instruction Hinstruction].
    unfold CreateRecipePage.updateInstruction. rewrite Hsection. cbn.
    rewrite Hinstruction. cbn. eexists. split; [reflexivity|].
    destruct (Forall_lookup_1 _ _ _ _ Hitems Hsection) as [Hsome Hseq].
    split; [|split].
    + intros Hnil. apply (f_equal length) in Hnil.
      rewrite length_insert in Hnil. by destruct l.
    + rewrite length_insert, list_fmap_insert. cbn.
      rewrite list_insert_id; [done|]. by rewrite list_lookup_fmap, Hsection.
    + apply Forall_insert; [done|]. cbn. split.
      * intros Hnil. apply (f_equal length) in Hnil.
        rewrite length_insert in Hnil.
        by destruct (Instructions.instructions section).
      * rewrite length_insert, list_fmap_insert.
        rewrite list_insert_id; [done|].
        by rewrite list_lookup_fmap, Hinstruction.
Qed.

Lemma instruction_controls_keep_shape
    (controls : list CreateRecipePage.InstructionControl)
    (l l' : list Instructions.Section_) :
  CreateRecipePage.instruction_sections_in_shape l →
  CreateRecipePage.use_instruction_controls controls l = Some l' →
  CreateRecipePage.instruction_sections_in_shape l'.
Proof.
  revert l. induction controls as [|c controls IH]; intros l Hshape Hrun.
  - by injection Hrun as <-.
  - cbn in Hrun.
    destruct (CreateRecipePage.use_instruction_control c l) as [next|] eqn:Hc;
      [|done].
    cbn in Hrun. apply (IH next); [|done].
    unfold CreateRecipePage.use_instruction_control in Hc.
    destruct (CreateRecipePage.instruction_control_rendered c l) eqn:Hr;
      [|done].
    destruct (instruction_control_keeps_shape c l Hshape Hr)
      as (l1 & Hl1 & Hshape1).
    unfold CreateRecipePage.use_instruction_control in Hl1.
    rewrite Hr in Hl1. congruence.
Qed.

Lemma initial_sections_in_shape :
  CreateRecipePage.ingredient_sections_in_shape Ingredients.initial
  ∧ CreateRecipePage.instruction_sections_in_shape Instructions.initial.
Proof. split; (split; [done|]; split; [done|]; by repeat constructor). Qed.

(** X1.  The controls of the recipe form keep the two section lists in
    shape: starting from the form as it opens, after any number of uses of
    controls that the form renders there is at least one section, every
    section has at least one item, and the order indices of the sections
    and of the items of each section are 1, 2, ...; and the handler of a
    rendered control always returns a new state (it never reads a section
    or an item that is not there). *)
Theorem form_controls_keep_sections_in_shape :
  (∀ c l,
     CreateRecipePage.ingredient_sections_in_shape l →
     CreateRecipePage.ingredient_control_rendered c l = true →
     ∃ l', CreateRecipePage.use_ingredient_control c l = Some l'
           ∧ CreateRecipePage.ingredient_sections_in_shape l')
  ∧ (∀ controls l,
       CreateRecipePage.use_ingredient_controls controls Ingredients.initial
       = Some l →
       CreateRecipePage.ingredient_sections_in_shape l)
  ∧ (∀ c l,
       CreateRecipePage.instruction_sections_in_shape l →
       CreateRecipePage.instruction_control_rendered c l = true →
       ∃ l', CreateRecipePage.use_instruction_control c l = Some l'
             ∧ CreateRecipePage.instruction_sections_in_shape l')
  ∧ (∀ controls l,
       CreateRecipePage.use_instruction_controls controls Instructions.initial
       = Some l →
       CreateRecipePage.instruction_sections_in_shape l).
Proof.
  destruct initial_sections_in_shape as [Hingredients Hinstructions].
  split; [exact ingredient_control_keeps_shape|].
  split.
  { intros controls l.
    by apply (ingredient_controls_keep_shape controls Ingredients.initial). }
  split; [exact instruction_control_keeps_shape|].
  intros controls l.
  by apply (instruction_controls_keep_shape controls Instructions.initial).
Qed.

Lemma form_controls_keep_sections_in_shape_witness :
  (∃ l,
     CreateRecipePage.use_ingredient_controls some_ingredient_controls
       Ingredients.initial = Some l
     ∧ CreateRecipePage.ingredient_sections_in_shape l)
  ∧ (∃ l,
       CreateRecipePage.use_instruction_controls some_instruction_controls
         Instructions.initial = Some l
       ∧ CreateRecipePage.instruction_sections_in_shape l).
Proof.
  destruct form_controls_keep_sections_in_shape as (_ & H1 & _ & H2).
  split.
  - eexists. split; [reflexivity|].
    apply (H1 some_ingredient_controls). reflexivity.
  - eexists. split; [reflexivity|].
    apply (H2 some_instruction_controls). reflexivity.
Defined.

(** X2.  A removal changes nothing but order indices.  The titles and the
    items of the sections that remain are, in order, those of the sections
    before with the removed one left out; and after the removal of an item
    the section keeps its title and its order index, and the quantities,
    units and names (or the step texts) of the items that remain are those
    before with the removed one left out. *)
Theorem removal_changes_only_order_indices :
  (∀ (k : nat) (l : list Ingredients.Section_),
     Ingredients.section_title <$> CreateRecipePage.removeIngredientSection k l
     = delete k (Ingredients.section_title <$> l)
     ∧ Ingredients.ingredients <$> CreateRecipePage.removeIngredientSection k l
       = delete k (Ingredients.ingredients <$> l))
  ∧ (∀ (k : nat) (l : list Instructions.Section_),
       Instructions.section_title
         <$> CreateRecipePage.removeInstructionSection k l
       = delete k (Instructions.section_title <$> l)
       ∧ Instructions.instructions
           <$> CreateRecipePage.removeInstructionSection k l
         = delete k (Instructions.instructions <$> l))
  ∧ (∀ (s k : nat) (l : list Ingredients.Section_) section,
       l !! s = Some section →
       ∃ section',
         CreateRecipePage.removeIngredient s k l = Some (<[s := section']> l)
         ∧ Ingredients.section_title section'
           = Ingredients.section_title section
         ∧ Ingredients.section_order section'
           = Ingredients.section_order section
         ∧ Ingredients.ingredient_quantity <$> Ingredients.ingredients section'
           = delete k (Ingredients.ingredient_quantity
                         <$> Ingredients.ingredients section)
         ∧ Ingredients.ingredient_uom <$> Ingredients.ingredients section'
           = delete k (Ingredients.ingredient_uom
                         <$> Ingredients.ingredients section)
         ∧ Ingredients.ingredient_name <$> Ingredients.ingredients section'
           = delete k (Ingredients.ingredient_name
                         <$> Ingredients.ingredients section))
  ∧ (∀ (s k : nat) (l : list Instructions.Section_) section,
       l !! s = Some section →
       ∃ section',
         CreateRecipePage.removeInstruction s k l = Some (<[s := section']> l)
         ∧ Instructions.section_title section'
           = Instructions.section_title section
         ∧ Instructions.section_order section'
           = Instructions.section_order section
         ∧ Instructions.instruction_step
             <$> Instructions.instructions section'
           = delete k (Instructions.instruction_step
                         <$> Instructions.instructions section)).
Proof.
  split; [exact removeIngredientSection_rest|].
  split; [exact removeInstructionSection_rest|].
  split.
  - intros s k l section Hsection.
    unfold CreateRecipePage.removeIngredient. rewrite Hsection. cbn.
    eexists. split; [reflexivity|].
    cbn [Ingredients.section_title Ingredients.section_order
         Ingredients.ingredients Ingredients.set_ingredients].
    rewrite filter_index_ne_delete. rewrite !imap_keeps by done.
    by rewrite !list_fmap_delete.
  - intros s k l section Hsection.
    unfold CreateRecipePage.removeInstruction. rewrite Hsection. cbn.
    eexists. split; [reflexivity|].
    cbn [Instructions.section_title Instructions.section_order
         Instructions.instructions Instructions.set_instructions].
    rewrite filter_index_ne_delete. rewrite !imap_keeps by done.
    by rewrite !list_fmap_delete.
Qed.

Lemma removal_changes_only_order_indices_witness :
  ∃ section',
    CreateRecipePage.removeIngredient 0 1 three_ingredient_sections
    = Some (<[0%nat := section']> three_ingredient_sections)
    ∧ Ingredients.ingredient_name <$> Ingredients.ingredients section'
      = ["spaghetti"; "pecorino"].
Proof.
  destruct removal_changes_only_order_indices as (_ & _ & H & _).
  destruct (H 0%nat 1%nat three_ingredient_sections _ eq_refl)
    as (section' & Hremoved & _ & _ & _ & _ & Hnames).
  by exists section'.
Defined.

(** X3.  Adding and then removing what was added gives the list back.
    When the order indices of the sections are 1..N, adding a section and
    removing the section at position N (the new one) restores the list
    exactly; and when the order indices of the items of a section are
    1..N, adding an item to it and removing the item at position N
    restores the whole list of sections. *)
Theorem add_then_remove_restores :
  (∀ l : list Ingredients.Section_,
     Ingredients.section_order <$> l = seq 1 (length l) →
     CreateRecipePage.removeIngredientSection (length l)
       (CreateRecipePage.addIngredientSection l) = l)
  ∧ (∀ l : list Instructions.Section_,
       Instructions.section_order <$> l = seq 1 (length l) →
       CreateRecipePage.removeInstructionSection (length l)
         (CreateRecipePage.addInstructionSection l) = l)
  ∧ (∀ (s : nat) (l : list Ingredients.Section_) section,
       l !! s = Some section →
       Ingredients.ingredient_order <$> Ingredients.ingredients section
       = seq 1 (length (Ingredients.ingredients section)) →
       ∃ l',
         CreateRecipePage.addIngredient s l = Some l'
         ∧ CreateRecipePage.removeIngredient s
             (length (Ingredients.ingredients section)) l' = Some l)
  ∧ (∀ (s : nat) (l : list Instructions.Section_) section,
       l !! s = Some section →
       Instructions.step_order <$> Instructions.instructions section
       = seq 1 (length (Instructions.instructions section)) →
       ∃ l',
         CreateRecipePage.addInstruction s l = Some l'
         ∧ CreateRecipePage.removeInstruction s
             (length (Instructions.instructions section)) l' = Some l).
Proof.
  split; [|split; [|split]].
  - intros l Hseq.
    unfold CreateRecipePage.removeIngredientSection,
      CreateRecipePage.addIngredientSection.
    rewrite filter_index_ne_delete, delete_middle, app_nil_r.
    by apply (imap_renumber_id Ingredients.section_order
                _ _ set_ingredient_section_order_id).
  - intros l Hseq.
    unfold CreateRecipePage.removeInstructionSection,
      CreateRecipePage.addInstructionSection.
    rewrite filter_index_ne_delete, delete_middle, app_nil_r.
    by apply (imap_renumber_id Instructions.section_order
                _ _ set_instruction_section_order_id).
  - intros s l section Hsection Hseq.
    unfold CreateRecipePage.addIngredient. rewrite Hsection. cbn.
    eexists. split; [reflexivity|].
    unfold CreateRecipePage.removeIngredient.
    rewrite list_lookup_insert_eq by (by apply lookup_lt_is_Some_1).
    cbn [mbind option_bind Ingredients.ingredients
         Ingredients.set_ingredients].
    rewrite filter_index_ne_delete, delete_middle, app_nil_r.
    rewrite (imap_renumber_id Ingredients.ingredient_order
               _ _ set_ingredient_order_id Hseq).
    rewrite list_insert_insert_eq. f_equal. apply list_insert_id.
    rewrite Hsection. by destruct section.
  - intros s l section Hsection Hseq.
    unfold CreateRecipePage.addInstruction. rewrite Hsection. cbn.
    eexists. split; [reflexivity|].
    unfold CreateRecipePage.removeInstruction.
    rewrite list_lookup_insert_eq by (by apply lookup_lt_is_Some_1).
    cbn [mbind option_bind Instructions.instructions
         Instructions.set_instructions].
    rewrite filter_index_ne_delete, delete_middle, app_nil_r.
    rewrite (imap_renumber_id Instructions.step_order
               _ _ set_step_order_id Hseq).
    rewrite list_insert_insert_eq. f_equal. apply list_insert_id.
    rewrite Hsection. by destruct section.
Qed.

Lemma add_then_remove_restores_witness :
  CreateRecipePage.removeIngredientSection 3
    (CreateRecipePage.addIngredientSection three_ingredient_sections)
  = three_ingredient_sections
  ∧ ∃ l',
      CreateRecipePage.addInstruction 0 three_instruction_sections = Some l'
      ∧ CreateRecipePage.removeInstruction 0 3 l'
        = Some three_instruction_sections.
Proof.
  destruct add_then_remove_restores as (H1 & _ & _ & H4).
  split.
  - apply (H1 three_ingredient_sections). reflexivity.
  - apply (H4 0%nat three_instruction_sections _ eq_refl). reflexivity.
Defined.

(** ** The recipe form: what validation accepts *)

Lemma blank_false (s : string) :
  CreateRecipePage.blank s = false ↔ JS.trim s ≠ "".
Proof. unfold CreateRecipePage.blank. by destruct (JS.trim s). Qed.

Lemma not_truthy_false (s : string) : negb (JS.truthy s) = false ↔ s ≠ "".
Proof. by destruct s. Qed.

Lemma missing_or_below_false (v : string) (lt_k : JS.Number → bool) :
  CreateRecipePage.missing_or_below v lt_k = false
  ↔ v ≠ "" ∧ lt_k (JS.ToNumber v) = false.
Proof.
  unfold CreateRecipePage.missing_or_below.
  rewrite orb_false_iff, not_truthy_false. done.
Qed.

(** *** Decimal numerals *)

Lemma digit_not_white_space (c : ascii) (d : Z) :
  JS.digit_of 10 c = Some d →
  JS.is_white_space c = false
  ∧ (∀ c2, JS.is_white_space_2 c c2 = false)
  ∧ (∀ c2 c3, JS.is_white_space_3 c c2 c3 = false)
  ∧ Ascii.eqb c "-" = false ∧ Ascii.eqb c "+" = false
  ∧ Ascii.eqb c "I" = false ∧ Ascii.eqb c "." = false
  ∧ Ascii.eqb c "x" = false ∧ Ascii.eqb c "X" = false
  ∧ Ascii.eqb c "o" = false ∧ Ascii.eqb c "O" = false
  ∧ Ascii.eqb c "b" = false ∧ Ascii.eqb c "B" = false
  ∧ 0 ≤ d.
Proof.
  destruct c as [[] [] [] [] [] [] [] []]; cbn; try discriminate;
    intros [= <-]; repeat split; done.
Qed.

Lemma read_digits_cons (acc : Z) (count : nat) (c : ascii) (rest : string)
    (n : Z) (k : nat) :
  JS.read_digits 10 acc count (String c rest) = (n, k, EmptyString) →
  ∃ d, JS.digit_of 10 c = Some d
       ∧ JS.read_digits 10 (10 * acc + d) (S count) rest
         = (n, k, EmptyString).
Proof.
  cbn [JS.read_digits]. destruct (JS.digit_of 10 c) as [d|]; [|done].
  intros Hrest. by exists d.
Qed.

Lemma read_digits_bounds (s : string) (acc : Z) (count : nat) (n : Z)
    (k : nat) (rest : string) :
  JS.read_digits 10 acc count s = (n, k, rest) →
  0 ≤ acc → 0 ≤ n ∧ (count ≤ k)%nat ∧ (n = 0 → acc = 0).
Proof.
  revert acc count. induction s as [|c s IH]; intros acc count.
  - cbn. intros [= <- <- <-] Hacc. done.
  - cbn [JS.read_digits].
    destruct (JS.digit_of 10 c) as [d|] eqn:Hd.
    + intros Hread Hacc.
      destruct (digit_not_white_space c d Hd) as (_ & _ & _ & _ & _ & _ & _ & _ & _ & _ & _ & _ & _ & Hpos).
      destruct (IH _ _ Hread) as (Hn & Hk & Hzero); [lia|].
      split; [done|]. split; [lia|]. intros ->. specialize (Hzero eq_refl). lia.
    + intros [= <- <- <-] Hacc. done.
Qed.

Lemma trimStart_digit (c : ascii) (rest : string) (d : Z) :
  JS.digit_of 10 c = Some d →
  JS.trimStart (String c rest) = String c rest.
Proof.
  intros (Hws1 & Hws2 & Hws3 & _)%digit_not_white_space.
  cbn [JS.trimStart]. rewrite Hws1.
  destruct rest as [|c2 [|c3 r3]]; [done|by rewrite Hws2|].
  by rewrite Hws2, Hws3.
Qed.

Lemma trimEnd_digits (s : string) (acc : Z) (count : nat) (n : Z) (k : nat) :
  JS.read_digits 10 acc count s = (n, k, EmptyString) →
  JS.trimEnd s = s.
Proof.
  revert acc count. induction s as [|c s IH]; intros acc count; [done|].
  intros (d & Hd & Hrest)%read_digits_cons.
  cbn [JS.trimEnd]. rewrite (trimStart_digit _ _ _ Hd). cbn.
  by rewrite (IH _ _ Hrest).
Qed.

Lemma trim_numeral (text : string) (n : Z) :
  JS.numeral text n → JS.trim text = text ∧ JS.trimStart text = text.
Proof.
  intros [k Hread]. unfold JS.trim.
  destruct text as [|c rest]; [done|].
  destruct (read_digits_cons _ _ _ _ _ _ Hread) as (d & Hd & _).
  rewrite (trimStart_digit _ _ _ Hd). split; [|done].
  by apply (trimEnd_digits _ _ _ _ _ Hread).
Qed.

Lemma radix_prefix_numeral (text : string) (n : Z) :
  JS.numeral text n → JS.radix_prefix text = None.
Proof.
  intros [k Hread]. destruct text as [|c0 [|c rest]]; [done..|].
  destruct (read_digits_cons _ _ _ _ _ _ Hread) as (d0 & Hd0 & Hrest).
  destruct (read_digits_cons _ _ _ _ _ _ Hrest) as (d & Hd & _).
  destruct (digit_not_white_space c d Hd)
    as (_ & _ & _ & _ & _ & _ & _ & Hx & HX & Ho & HO & Hb & HB & _).
  unfold JS.radix_prefix. rewrite Hx, HX, Ho, HO, Hb, HB.
  by destruct (Ascii.eqb c0 "0").
Qed.

Lemma read_sign_numeral (text : string) (n : Z) :
  JS.numeral text n → JS.read_sign text = (false, text).
Proof.
  intros [k Hread]. destruct text as [|c rest]; [done|].
  destruct (read_digits_cons _ _ _ _ _ _ Hread) as (d & Hd & _).
  destruct (digit_not_white_space c d Hd) as (_ & _ & _ & Hm & Hp & _).
  unfold JS.read_sign. by rewrite Hm, Hp.
Qed.

(** A decimal numeral converts to its value, and [parseInt] reads its
    value. *)
Lemma ToNumber_numeral (text : string) (n : Z) :
  JS.numeral text n → JS.ToNumber text = JS.Decimal false n 0.
Proof.
  intros Hnumeral. unfold JS.ToNumber. cbv zeta.
  destruct (trim_numeral _ _ Hnumeral) as [-> _].
  rewrite (radix_prefix_numeral _ _ Hnumeral),
    (read_sign_numeral _ _ Hnumeral).
  destruct Hnumeral as [k Hread].
  destruct text as [|c rest]; [done|]. cbn [JS.is_empty].
  unfold JS.read_unsigned_decimal.
  destruct (read_digits_cons _ _ _ _ _ _ Hread) as (d & Hd & _).
  destruct (digit_not_white_space c d Hd)
    as (_ & _ & _ & _ & _ & HI & _).
  assert (String.eqb (String c rest) "Infinity" = false) as ->.
  { cbn. by rewrite HI. }
  rewrite Hread. cbn. by rewrite Z.sub_0_r.
Qed.

Lemma parseInt_numeral (text : string) (n : Z) :
  JS.numeral text n → JS.parseInt text = Some n.
Proof.
  intros Hnumeral. unfold JS.parseInt.
  destruct (trim_numeral _ _ Hnumeral) as [_ ->].
  rewrite (read_sign_numeral _ _ Hnumeral),
    (radix_prefix_numeral _ _ Hnumeral).
  destruct Hnumeral as [k Hread]. by rewrite Hread.
Qed.

Lemma numeral_not_negative (text : string) (n : Z) :
  JS.numeral text n → 0 ≤ n ∧ text ≠ "".
Proof.
  intros [k Hread]. split.
  - by destruct (read_digits_bounds _ _ _ _ _ _ Hread).
  - by intros ->.
Qed.

Lemma lt_0_numeral (n : Z) : JS.lt_0 (JS.Decimal false n 0) = false.
Proof. done. Qed.

Lemma lt_1_numeral (n : Z) :
  0 ≤ n → JS.lt_1 (JS.Decimal false n 0) = bool_decide (n < 1).
Proof.
  intros Hn. cbn. unfold JS.decimal_lt. cbn [Z.leb Z.compare].
  rewrite Z.pow_0_r, Z.mul_1_r.
  destruct (bool_decide_reflect (n < 1)) as [Hlt|Hge].
  - assert (n = 0) as -> by lia. done.
  - apply Z.ltb_ge. assert (1 ≤ n) by lia. 
    assert (0 < 2 ^ 54) by (by apply Z.pow_pos_nonneg). nia.
Qed.

Lemma missing_or_below_numeral (text : string) (n : Z) :
  JS.numeral text n →
  CreateRecipePage.missing_or_below text JS.lt_0 = false
  ∧ (CreateRecipePage.missing_or_below text JS.lt_1 = false ↔ 1 ≤ n).
Proof.
  intros Hnumeral.
  destruct (numeral_not_negative _ _ Hnumeral) as [Hn Htext].
  rewrite !missing_or_below_false, (ToNumber_numeral _ _ Hnumeral),
    (lt_1_numeral _ Hn).
  split; [done|]. rewrite bool_decide_eq_false. intuition lia.
Qed.

Lemma check_ingredients_Valid (l : list Ingredients.Ingredient) :
  CreateRecipePage.check_ingredients l = CreateRecipePage.Valid
  ↔ Forall (λ i, JS.trim (Ingredients.ingredient_name i) ≠ "") l.
Proof.
  induction l as [|i l IH]; cbn; [by split|].
  rewrite Forall_cons, <- IH, <- blank_false.
  destruct (CreateRecipePage.blank _); [|tauto].
  split; [done|]. by intros [? _].
Qed.

Lemma check_instructions_Valid (l : list Instructions.Instruction) :
  CreateRecipePage.check_instructions l = CreateRecipePage.Valid
  ↔ Forall (λ i, JS.trim (Instructions.instruction_step i) ≠ "") l.
Proof.
  induction l as [|i l IH]; cbn; [by split|].
  rewrite Forall_cons, <- IH, <- blank_false.
  destruct (CreateRecipePage.blank _); [|tauto].
  split; [done|]. by intros [? _].
Qed.

Lemma check_ingredient_sections_Valid (l : list Ingredients.Section_) :
  CreateRecipePage.check_ingredient_sections l = CreateRecipePage.Valid
  ↔ Forall (λ s, JS.trim (Ingredients.section_title s) ≠ ""
                 ∧ Ingredients.ingredients s ≠ []
                 ∧ Forall (λ i, JS.trim (Ingredients.ingredient_name i) ≠ "")
                     (Ingredients.ingredients s)) l.
Proof.
  induction l as [|s l IH]; cbn; [by split|].
  rewrite Forall_cons, <- IH, <- blank_false, <- check_ingredients_Valid.
  destruct (CreateRecipePage.blank _); [split; [done|by intros [[? _] _]]|].
  destruct (Nat.eqb_spec (length (Ingredients.ingredients s)) 0)
    as [Hnone%nil_length_inv|Hsome].
  { split; [done|]. by intros [(_ & ? & _) _]. }
  assert (Ingredients.ingredients s ≠ [])
    by (by intros Hnil; rewrite Hnil in Hsome).
  destruct (CreateRecipePage.check_ingredients _); intuition congruence.
Qed.

Lemma check_instruction_sections_Valid (l : list Instructions.Section_) :
  CreateRecipePage.check_instruction_sections l = CreateRecipePage.Valid
  ↔ Forall (λ s, JS.trim (Instructions.section_title s) ≠ ""
                 ∧ Instructions.instructions s ≠ []
                 ∧ Forall (λ i, JS.trim (Instructions.instruction_step i) ≠ "")
                     (Instructions.instructions s)) l.
Proof.
  induction l as [|s l IH]; cbn; [by split|].
  rewrite Forall_cons, <- IH, <- blank_false, <- check_instructions_Valid.
  destruct (CreateRecipePage.blank _); [split; [done|by intros [[? _] _]]|].
  destruct (Nat.eqb_spec (length (Instructions.instructions s)) 0)
    as [Hnone%nil_length_inv|Hsome].
  { split; [done|]. by intros [(_ & ? & _) _]. }
  assert (Instructions.instructions s ≠ [])
    by (by intros Hnil; rewrite Hnil in Hsome).
  destruct (CreateRecipePage.check_instructions _); intuition congruence.
Qed.

(** X4.  What [validateForm] accepts.  It returns [true] exactly when the
    trimmed name and description are not empty, the four facets are chosen,
    each of the three number inputs holds a text that is not empty and
    whose number is not below 0 (for the two times) or not below 1 (for
    the servings), and every section of either kind has a title that is
    not blank, at least one item, and no item with a blank name (or step).
    For a text that is a decimal numeral this means: every time passes,
    0 included, and the servings pass from 1 on.  A form without any
    section passes: the loops only look at the sections there are. *)
Theorem validateForm_accepts_exactly (formData : CreateRecipePage.FormData)
    (ingredientSections : list Ingredients.Section_)
    (instructionSections : list Instructions.Section_) :
  (CreateRecipePage.validateForm formData ingredientSections
     instructionSections = CreateRecipePage.Valid
   ↔ (JS.trim (CreateRecipePage.recipe_name formData) ≠ ""
      ∧ JS.trim (CreateRecipePage.recipe_description formData) ≠ ""
      ∧ CreateRecipePage.course_type formData ≠ ""
      ∧ CreateRecipePage.recipe_type formData ≠ ""
      ∧ CreateRecipePage.primary_protein formData ≠ ""
      ∧ CreateRecipePage.ethnic_style formData ≠ "")
     ∧ ((CreateRecipePage.prep_time formData ≠ ""
         ∧ JS.lt_0 (JS.ToNumber (CreateRecipePage.prep_time formData))
           = false)
        ∧ (CreateRecipePage.cook_time formData ≠ ""
           ∧ JS.lt_0 (JS.ToNumber (CreateRecipePage.cook_time formData))
             = false)
        ∧ (CreateRecipePage.number_servings formData ≠ ""
           ∧ JS.lt_1
               (JS.ToNumber (CreateRecipePage.number_servings formData))
             = false))
     ∧ Forall (λ s, JS.trim (Ingredients.section_title s) ≠ ""
                    ∧ Ingredients.ingredients s ≠ []
                    ∧ Forall (λ i, JS.trim (Ingredients.ingredient_name i)
                                   ≠ "")
                        (Ingredients.ingredients s)) ingredientSections
     ∧ Forall (λ s, JS.trim (Instructions.section_title s) ≠ ""
                    ∧ Instructions.instructions s ≠ []
                    ∧ Forall (λ i, JS.trim (Instructions.instruction_step i)
                                   ≠ "")
                        (Instructions.instructions s)) instructionSections)
  ∧ (∀ text n,
       JS.numeral text n →
       text ≠ ""
       ∧ JS.lt_0 (JS.ToNumber text) = false
       ∧ (JS.lt_1 (JS.ToNumber text) = false ↔ 1 ≤ n)).
Proof.
  split.
  - rewrite <- 3!missing_or_below_false, <- !blank_false,
      <- !not_truthy_false,
      <- check_ingredient_sections_Valid, <- check_instruction_sections_Valid.
    unfold CreateRecipePage.validateForm.
    repeat match goal with
           | |- context [if ?b then CreateRecipePage.Invalid _ else _] =>
               destruct b; [split; [done|intuition congruence]|]
           end.
    destruct (CreateRecipePage.check_ingredient_sections _);
      intuition congruence.
  - intros text n Hnumeral.
    destruct (numeral_not_negative _ _ Hnumeral) as [Hn Htext].
    rewrite (ToNumber_numeral _ _ Hnumeral), (lt_1_numeral _ Hn).
    split; [done|]. split; [done|].
    rewrite bool_decide_eq_false. intuition lia.
Qed.

Lemma validateForm_accepts_exactly_witness :
  JS.lt_0 (JS.ToNumber "0") = false
  ∧ JS.lt_1 (JS.ToNumber "0") ≠ false
  ∧ JS.lt_1 (JS.ToNumber "12") = false.
Proof.
  destruct (validateForm_accepts_exactly carbonara [] []) as [_ Hnumeral].
  destruct (Hnumeral "0" 0 (ex_intro _ 0%nat eq_refl)) as (_ & Hzero & Hone).
  destruct (Hnumeral "12" 12 (ex_intro _ 1%nat eq_refl)) as (_ & _ & Htwelve).
  split; [exact Hzero|]. split.
  - intros Hpass. apply Hone in Hpass. lia.
  - apply Htwelve. lia.
Defined.

Example validateForm_accepts_zero_minutes_and_no_sections :
  CreateRecipePage.validateForm
    {| CreateRecipePage.recipe_name := "Water";
       CreateRecipePage.recipe_description := "A glass of water";
       CreateRecipePage.course_type := "Beverage";
       CreateRecipePage.recipe_type := "Drink";
       CreateRecipePage.primary_protein := "Vegetarian / None";
       CreateRecipePage.ethnic_style := "American";
       CreateRecipePage.prep_time := "0";
       CreateRecipePage.cook_time := "0";
       CreateRecipePage.number_servings := "1" |} [] []
  = CreateRecipePage.Valid.
Proof. vm_compute. reflexivity. Qed.

(** The white space that [trim] strips is that of the language: a name
    that holds nothing but a no-break space is blank, and no-break spaces
    around a text are stripped. *)
Example trim_strips_no_break_space :
  JS.trim no_break_space = ""
  ∧ JS.trim (no_break_space +:+ "Great" +:+ no_break_space) = "Great"
  ∧ CreateRecipePage.validateForm no_break_space_name carbonara_ingredients
      carbonara_instructions
    = CreateRecipePage.Invalid "Recipe name is required".
Proof. vm_compute. done. Qed.

(** The same holds for a comment: one that holds nothing but a no-break
    space is not sent, and one with no-break spaces around its text is
    sent without them. *)
Example comment_of_no_break_space :
  CommentSection.handleSubmit (JS.Num 7) typed_no_break_space stale_page
  = (CommentSection.setError "Comment cannot be empty." typed_no_break_space,
     stale_page, [])
  ∧ ∃ c rest,
      Browser.events
        (CommentSection.handleSubmit (JS.Num 7) typed_between_no_break_spaces
           stale_page)
      = Browser.Send Browser.ViaApi c :: rest
      ∧ CommentSection.comment_text_of c = Some (JS.Str "Great").
Proof.
  split; [reflexivity|]. eexists _, _. split; [vm_compute; reflexivity|].
  vm_compute. reflexivity.
Qed.

(** The texts of a number input need not be decimal numerals.  The
    conversion to a number reads a fraction and an exponent, [parseInt]
    stops at the first character that is not a digit: [.5e1] is the
    number 5 for the test and [NaN] for [parseInt], [1e3] is 1000 for the
    test and 1 for [parseInt], and [1.9] is 1. *)
Example number_texts_that_are_not_numerals :
  CreateRecipePage.validateForm fractional_times carbonara_ingredients
    carbonara_instructions = CreateRecipePage.Valid
  ∧ JS.ToNumber ".5e1" = JS.Decimal false 5 0
  ∧ JS.parseInt ".5e1" = None
  ∧ JS.ToNumber "1e3" = JS.Decimal false 1 3
  ∧ JS.parseInt "1e3" = Some 1
  ∧ JS.ToNumber "1.9" = JS.Decimal false 19 (-1)
  ∧ JS.parseInt "1.9" = Some 1.
Proof. vm_compute. done. Qed.

(** ** The axios instance: what a run does, case by case *)

Lemma api_run (c : Config) (w : World) :
  Api.api c w
  = let first := Api.intercepted c w in
    match settle first (outcome 0 w) with
    | Resolved r => (Resolved r, sent w, [Send ViaApi first])
    | Rejected e =>
        if unauthorized (outcome 0 w) && negb (_retry c) then
          let token := storage w !! "refresh_token" in
          let refresh := Api.refresh_request (Api.to_string token) in
          if JS.truthy_item token then
            match settle refresh (outcome 1 w) with
            | Resolved r =>
                let access := Api.to_string (response_data r !! "access") in
                let w' :=
                  set_storage (insert "access_token" access) (sent (sent w)) in
                let again :=
                  Api.intercepted
                    (set_Authorization ("Bearer " +:+ access)
                       (set_retry true first)) w' in
                (settle again (outcome 2 w), sent w',
                 [Send ViaApi first; Send ViaAxios refresh;
                  SetItem "access_token" access; Send ViaApi again])
            | Rejected refreshError =>
                (Rejected refreshError,
                 set_href "/login?reason=session_expired"
                   (cleared (sent (sent w))),
                 [Send ViaApi first; Send ViaAxios refresh]
                   ++ Api.session_removals
                   ++ [Navigate "/login?reason=session_expired"])
            end
          else
            (Rejected {| config := set_retry true first;
                         response := response e |},
             set_href "/login?reason=no_session" (cleared (sent w)),
             [Send ViaApi first] ++ Api.session_removals
               ++ [Navigate "/login?reason=no_session"])
        else (Rejected e, sent w, [Send ViaApi first])
    end.
Proof.
  cbv zeta. unfold Api.api. rewrite api_with_run.
  destruct (settle _ _) as [r|e] eqn:Hsettle; [done|].
  apply settle_rejected in Hsettle as (Hc & H401 & _).
  rewrite on_rejected_run, Hc, intercepted_retry, H401. cbn.
  destruct (unauthorized (outcome 0 w) && negb (_retry c)); [|done]. cbn.
  destruct (JS.truthy_item _); [|done]. rewrite outcome_sent.
  destruct (settle _ (outcome 1 w)) as [r|re]; [|done].
  rewrite api_with_marked by done. cbn.
  change (outcome 0 (set_storage ?f ?w0)) with (outcome 0 w0).
  by rewrite !outcome_sent.
Qed.

Lemma intercepted_Authorization (c : Config) (w : World) :
  Authorization (Api.intercepted c w)
  = match storage w !! "access_token" with
    | Some t => if JS.truthy t then Some ("Bearer " +:+ t) else Authorization c
    | None => Authorization c
    end.
Proof.
  unfold Api.intercepted, Api.request_interceptor, result, getItem.
  unfold_M. cbn. destruct c as [m u p d a ct to r].
  destruct (storage w !! "access_token") as [t|]; [destruct (JS.truthy t)|];
    by destruct d.
Qed.

Lemma intercepted_Content_Type (c : Config) (w : World) :
  Content_Type (Api.intercepted c w)
  = if Api.is_FormData (data c) then Content_Type c
    else Some "application/json".
Proof.
  unfold Api.intercepted, Api.request_interceptor, result, getItem.
  unfold_M. cbn. destruct c as [m u p d a ct to r].
  destruct (storage w !! "access_token") as [t|]; [destruct (JS.truthy t)|];
    by destruct d.
Qed.

Lemma settle_succeeds (c : Config) (o : Outcome) :
  settle c o
  = match o with
    | Answer r =>
        if succeeds o then Resolved r
        else Rejected {| config := c; response := Some r |}
    | NoAnswer => Rejected {| config := c; response := None |}
    end.
Proof. by destruct o. Qed.

(** X5.  The headers of what is sent.  A request leaves [api] with
    [Authorization: Bearer <token>] for the access token that is stored
    when it is sent, and with the header the caller gave it (none, for the
    services) when no token is stored; it gets the JSON content type
    unless its body is form data.  The refresh request goes out without an
    [Authorization] header and with the stored refresh token as its body.
    After a successful refresh the original request is sent again, marked
    [_retry], with the bearer token that the refresh returned. *)
Theorem requests_carry_the_stored_token (c : Config) (w : World) :
  Authorization (Api.intercepted c w)
  = match storage w !! "access_token" with
    | Some t => if JS.truthy t then Some ("Bearer " +:+ t) else Authorization c
    | None => Authorization c
    end
  ∧ Content_Type (Api.intercepted c w)
    = (if Api.is_FormData (data c) then Content_Type c
       else Some "application/json")
  ∧ (∃ rest, events (Api.api c w) = Send ViaApi (Api.intercepted c w) :: rest)
  ∧ (∀ c', Send ViaAxios c' ∈ events (Api.api c w) →
       Authorization c' = None
       ∧ data c'
         = Json {[ "refresh" :=
                     JS.Str (Api.to_string (storage w !! "refresh_token")) ]})
  ∧ (∀ r,
       unauthorized (outcome 0 w) = true → _retry c = false →
       JS.truthy_item (storage w !! "refresh_token") = true →
       outcome 1 w = Answer r → ok_status (status r) = true →
       ∃ again,
         events (Api.api c w)
         = [Send ViaApi (Api.intercepted c w);
            Send ViaAxios
              (Api.refresh_request
                 (Api.to_string (storage w !! "refresh_token")));
            SetItem "access_token"
              (Api.to_string (response_data r !! "access"));
            Send ViaApi again]
         ∧ Authorization again
           = Some ("Bearer "
                   +:+ Api.to_string (response_data r !! "access"))
         ∧ _retry again = true
         ∧ Api.same_request again c).
Proof.
  split; [apply intercepted_Authorization|].
  split; [apply intercepted_Content_Type|].
  split; [rewrite api_events; by eexists|].
  split.
  - intros c' Hin. rewrite api_events in Hin.
    apply elem_of_cons in Hin. destruct Hin as [Heq|Hin]; [done|].
    destruct (_ && _); [|by apply elem_of_nil in Hin]. cbn in Hin.
    destruct (JS.truthy_item _).
    + destruct (outcome 1 w) as [r|]; [destruct (ok_status (status r))|];
        (apply elem_of_cons in Hin; destruct Hin as [Heq|Hin];
         [by injection Heq as ->|]);
        repeat (apply elem_of_cons in Hin; destruct Hin as [Heq|Hin];
                [discriminate Heq|]);
        by apply elem_of_nil in Hin.
    + repeat (apply elem_of_cons in Hin; destruct Hin as [Heq|Hin];
              [discriminate Heq|]).
      by apply elem_of_nil in Hin.
  - intros r H401 Hretry Htoken Hanswer Hok.
    rewrite api_events, H401, Hretry. cbv zeta. cbn [andb negb].
    rewrite Htoken, Hanswer, Hok.
    eexists. split; [reflexivity|].
    rewrite intercepted_Authorization, intercepted_retry. cbn.
    rewrite lookup_insert_eq. split; [by destruct (JS.truthy _)|].
    split; [done|]. unfold Api.same_request.
    destruct (intercepted_same
                (set_Authorization
                   ("Bearer " +:+ Api.to_string (response_data r !! "access"))
                   (set_retry true (Api.intercepted c w)))
                (set_storage
                   (insert "access_token"
                      (Api.to_string (response_data r !! "access")))
                   (sent (sent w)))) as (-> & -> & -> & ->).
    apply intercepted_same.
Qed.

Lemma requests_carry_the_stored_token_witness :
  ∃ again,
    events (Api.api list_request refreshing_page)
    = [Send ViaApi (Api.intercepted list_request refreshing_page);
       Send ViaAxios (Api.refresh_request "old-refresh");
       SetItem "access_token" "new-access";
       Send ViaApi again]
    ∧ Authorization again = Some "Bearer new-access".
Proof.
  destruct (requests_carry_the_stored_token list_request refreshing_page)
    as (_ & _ & _ & _ & Hretry).
  destruct (Hretry _ eq_refl eq_refl eq_refl eq_refl eq_refl)
    as (again & Hevents & Hauth & _).
  by exists again.
Defined.

(** X6.  What a run of [api] leaves behind.  It changes the storage only
    when the first answer is a 401 and the request is not marked [_retry]:
    then a successful refresh writes the new access token and nothing else
    (the refresh token and the user stay), and in the two other cases the
    three keys of the session are removed and the location is set to the
    login route.  In every other case the storage and the location are as
    before.  Every run uses up one answer of the network per request it
    sends. *)
Theorem api_changes_storage_only_on_401 (c : Config) (w : World) :
  storage (world (Api.api c w))
  = (if unauthorized (outcome 0 w) && negb (_retry c) then
       if JS.truthy_item (storage w !! "refresh_token") then
         match outcome 1 w with
         | Answer r =>
             if ok_status (status r)
             then <["access_token" :=
                      Api.to_string (response_data r !! "access")]>
                    (storage w)
             else storage (cleared w)
         | NoAnswer => storage (cleared w)
         end
       else storage (cleared w)
     else storage w)
  ∧ href (world (Api.api c w))
    = (if unauthorized (outcome 0 w) && negb (_retry c) then
         if JS.truthy_item (storage w !! "refresh_token") then
           if succeeds (outcome 1 w) then href w
           else Some "/login?reason=session_expired"
         else Some "/login?reason=no_session"
       else href w)
  ∧ network (world (Api.api c w))
    = drop (Api.sends (events (Api.api c w))
            + Api.refreshes (events (Api.api c w))) (network w).
Proof.
  rewrite api_run. cbv zeta. rewrite !settle_succeeds.
  destruct (outcome 0 w) as [r0|] eqn:H0; cbn [unauthorized succeeds].
  - destruct (ok_status (status r0)) eqn:Hok0.
    + assert ((status r0 =? 401) = false) as ->
        by (unfold ok_status in Hok0; lia).
      cbn. by destruct (network w).
    + destruct ((status r0 =? 401) && negb (_retry c)); cbn;
        [|by destruct (network w)].
      destruct (JS.truthy_item _); cbn; [|by destruct (network w)].
      destruct (outcome 1 w) as [r1|]; cbn;
        [destruct (ok_status (status r1)); cbn|];
        by destruct (network w) as [|? [|? [|? ?]]].
  - cbn. by destruct (network w).
Qed.

Lemma unauthorized_rejected (c : Config) (o : Outcome) :
  unauthorized o = true →
  ∃ r, o = Answer r ∧ (status r =? 401) = true
       ∧ settle c o = Rejected {| config := c; response := Some r |}.
Proof.
  destruct o as [r|]; [|done]. cbn. intros H401. exists r.
  split; [done|]. split; [done|]. unfold ok_status.
  by assert ((200 <=? status r) && (status r <? 300) = false) as -> by lia.
Qed.

(** X7.  What the caller of [api] gets back.  Unless the first answer is a
    401 to a request not yet marked [_retry], [api] is one plain exchange
    of the intercepted request: every other error reaches the caller as it
    came.  After a successful refresh the caller gets the outcome of the
    retried request, whatever it is; even a second 401 is handed over as an
    error, with no removal from storage and no redirect.  When the refresh
    fails the caller gets the error of the refresh request, and with no
    refresh token stored it gets the original 401. *)
Theorem api_hands_over_the_last_outcome (c : Config) (w : World) :
  ((unauthorized (outcome 0 w) && negb (_retry c)) = false →
     Api.api c w = exchange ViaApi (Api.intercepted c w) w)
  ∧ (∀ r,
       unauthorized (outcome 0 w) = true → _retry c = false →
       JS.truthy_item (storage w !! "refresh_token") = true →
       outcome 1 w = Answer r → ok_status (status r) = true →
       ∃ again,
         result (Api.api c w) = settle again (outcome 2 w)
         ∧ _retry again = true
         ∧ Api.same_request again c
         ∧ (∀ target, Navigate target ∉ events (Api.api c w))
         ∧ (∀ key, RemoveItem key ∉ events (Api.api c w))
         ∧ href (world (Api.api c w)) = href w)
  ∧ (unauthorized (outcome 0 w) = true → _retry c = false →
     JS.truthy_item (storage w !! "refresh_token") = true →
     succeeds (outcome 1 w) = false →
     result (Api.api c w)
     = Rejected
         {| config :=
              Api.refresh_request
                (Api.to_string (storage w !! "refresh_token"));
            response :=
              match outcome 1 w with
              | Answer r => Some r
              | NoAnswer => None
              end |})
  ∧ (unauthorized (outcome 0 w) = true → _retry c = false →
     JS.truthy_item (storage w !! "refresh_token") = false →
     ∃ e,
       result (Api.api c w) = Rejected e
       ∧ Api.status_is_401 e = true
       ∧ _retry (config e) = true
       ∧ Api.same_request (config e) c).
Proof.
  repeat split.
  - intros Hpass. rewrite api_run. cbv zeta. rewrite Hpass.
    unfold exchange. by destruct (settle _ _).
  - intros r H401 Hretry Htoken Hanswer Hok.
    destruct (unauthorized_rejected (Api.intercepted c w) _ H401)
      as (r0 & _ & _ & Hfirst).
    rewrite api_run. cbv zeta.
    rewrite Hfirst, H401, Hretry, Htoken, Hanswer. cbn [andb negb settle].
    rewrite Hok. eexists. split; [reflexivity|].
    split; [apply intercepted_retry|].
    split.
    { unfold Api.same_request.
      destruct (intercepted_same
                  (set_Authorization
                     ("Bearer "
                      +:+ Api.to_string (response_data r !! "access"))
                     (set_retry true (Api.intercepted c w)))
                  (set_storage
                     (insert "access_token"
                        (Api.to_string (response_data r !! "access")))
                     (sent (sent w)))) as (-> & -> & -> & ->).
      apply intercepted_same. }
    split; [|split; [|done]]; intros x Hin; cbn in Hin;
      repeat (apply elem_of_cons in Hin; destruct Hin as [Heq|Hin];
              [discriminate Heq|]);
      by apply elem_of_nil in Hin.
  - intros H401 Hretry Htoken Hfails.
    destruct (unauthorized_rejected (Api.intercepted c w) _ H401)
      as (r0 & _ & _ & Hfirst).
    rewrite api_run. cbv zeta. rewrite Hfirst, H401, Hretry, Htoken.
    cbn [andb negb]. rewrite settle_succeeds, Hfails.
    by destruct (outcome 1 w).
  - intros H401 Hretry Htoken.
    destruct (unauthorized_rejected (Api.intercepted c w) _ H401)
      as (r0 & _ & Hstatus & Hfirst).
    rewrite api_run. cbv zeta. rewrite Hfirst, H401, Hretry, Htoken.
    cbn [andb negb]. eexists. split; [reflexivity|].
    split; [done|]. split; [done|]. apply intercepted_same.
Qed.

Lemma api_hands_over_the_last_outcome_witness :
  ∃ again,
    result (Api.api list_request refreshing_page)
    = settle again (outcome 2 refreshing_page)
    ∧ _retry again = true.
Proof.
  destruct (api_hands_over_the_last_outcome list_request refreshing_page)
    as (_ & Hretry & _).
  destruct (Hretry _ eq_refl eq_refl eq_refl eq_refl eq_refl)
    as (again & Hresult & Hmark & _).
  by exists again.
Defined.

(** ** Logging in *)
Section Login.
Context {User : Type}.
Variable JSON_parse : string → option User.
Variable JSON_stringify : User → string.
Variable toLowerCase : string → string.
Variable user_of : Response → option User.
Implicit Types (s : AuthContext.State User) (w : World).

(** The request of [authService.login]. *)
Abbreviation login_request email password :=
  (Api.request "post" "/auth/login/" ∅
     (Json {[ "email" := JS.Str (JS.trim (toLowerCase email));
              "password" := JS.Str password ]})).

Abbreviation service_login :=
  (AuthService.login JSON_stringify toLowerCase user_of).

Lemma login_run email password w :
  service_login email password w
  = let run := Api.api (login_request email password) w in
    match result run with
    | Resolved r =>
        let access := Api.to_string (response_data r !! "access") in
        let refresh := Api.to_string (response_data r !! "refresh") in
        let w2 :=
          set_storage (insert "refresh_token" refresh)
            (set_storage (insert "access_token" access) (world run)) in
        match user_of r with
        | Some u =>
            (Resolved (Some u),
             set_storage (insert "user" (JSON_stringify u)) w2,
             events run
               ++ [SetItem "access_token" access;
                   SetItem "refresh_token" refresh;
                   SetItem "user" (JSON_stringify u)])
        | None =>
            (Resolved None, w2,
             events run
               ++ [SetItem "access_token" access;
                   SetItem "refresh_token" refresh])
        end
    | Rejected e => (Rejected e, world run, events run)
    end.
Proof.
  unfold AuthService.login, Api.post, AuthService.setCurrentUser, setItem,
    AuthService.ACCESS_KEY, AuthService.REFRESH_KEY, AuthService.USER_KEY.
  unfold_M. cbv zeta.
  destruct (Api.api _ w) as [[[r|e] w1] ev1]; cbn.
  - destruct (user_of r); cbn; by rewrite ?app_nil_r.
  - by rewrite app_nil_r.
Qed.

Lemma api_run_plain (c : Config) w :
  (unauthorized (outcome 0 w) && negb (_retry c)) = false →
  Api.api c w
  = (settle (Api.intercepted c w) (outcome 0 w), sent w,
     [Send ViaApi (Api.intercepted c w)]).
Proof.
  intros Hpass. rewrite api_run. cbv zeta. rewrite Hpass.
  by destruct (settle _ _).
Qed.

Lemma succeeds_not_unauthorized (o : Outcome) :
  succeeds o = true → unauthorized o = false.
Proof.
  destruct o as [r|]; [|done]. cbn. unfold ok_status. lia.
Qed.

Lemma api_run_resolved (c : Config) w r :
  outcome 0 w = Answer r → ok_status (status r) = true →
  Api.api c w = (Resolved r, sent w, [Send ViaApi (Api.intercepted c w)]).
Proof.
  intros Hanswer Hok. rewrite api_run_plain.
  - by rewrite Hanswer; cbn; rewrite Hok.
  - rewrite succeeds_not_unauthorized; [done|]. by rewrite Hanswer.
Qed.

Lemma getCurrentUser_stored w text :
  storage w !! "user" = Some text → JS.truthy text = true →
  AuthService.currentUser JSON_parse w = JSON_parse text.
Proof.
  intros Hstored Htruthy.
  unfold AuthService.currentUser, AuthService.getCurrentUser, getItem,
    AuthService.USER_KEY.
  unfold_M. cbn. rewrite Hstored. cbn. by rewrite Htruthy.
Qed.

Lemma isAuthenticated_run w :
  result (AuthService.isAuthenticated w)
  = JS.truthy_item (storage w !! "access_token").
Proof. reflexivity. Qed.

(** X8.  A login that the server accepts.  [authService.login] sends one
    request, whose email is the lower-cased and trimmed input, and then
    stores the access token, the refresh token and the serialised user, in
    this order; it returns the user of the response.  A response without a
    user leaves the stored user as it was.  Afterwards [getCurrentUser]
    reads back what [JSON.parse] makes of the stored text, and
    [isAuthenticated] is true for every non-empty access token; a field
    missing from the response is stored as the text [undefined], which
    counts as a token. *)
Theorem login_stores_the_session email password w r :
  outcome 0 w = Answer r → ok_status (status r) = true →
  let run := service_login email password w in
  let access := Api.to_string (response_data r !! "access") in
  let refresh := Api.to_string (response_data r !! "refresh") in
  result run = Resolved (user_of r)
  ∧ (∃ c, events run
          = [Send ViaApi c; SetItem "access_token" access;
             SetItem "refresh_token" refresh]
            ++ match user_of r with
               | Some u => [SetItem "user" (JSON_stringify u)]
               | None => []
               end
          ∧ Api.same_request c (login_request email password))
  ∧ storage (world run) !! "access_token" = Some access
  ∧ storage (world run) !! "refresh_token" = Some refresh
  ∧ storage (world run) !! "user"
    = match user_of r with
      | Some u => Some (JSON_stringify u)
      | None => storage w !! "user"
      end
  ∧ (∀ u, user_of r = Some u → JS.truthy (JSON_stringify u) = true →
       AuthService.currentUser JSON_parse (world run)
       = JSON_parse (JSON_stringify u))
  ∧ result (AuthService.isAuthenticated (world run)) = JS.truthy access
  ∧ (response_data r !! "access" = None →
     result (AuthService.isAuthenticated (world run)) = true).
Proof.
  intros Hanswer Hok run access refresh. subst run.
  rewrite login_run, (api_run_resolved _ _ _ Hanswer Hok). cbv zeta.
  cbn [result world events fst snd]. rewrite !isAuthenticated_run.
  destruct (user_of r) as [u|] eqn:Huser; cbn [result world events fst snd].
  - split; [done|].
    split; [eexists; split; [reflexivity|apply intercepted_same]|].
    split; [cbn; by simplify_map_eq|].
    split; [cbn; by simplify_map_eq|].
    split; [cbn; by simplify_map_eq|].
    split.
    { intros u' [= <-] Htruthy.
      apply getCurrentUser_stored; [cbn; by simplify_map_eq|done]. }
    split; [cbn; by simplify_map_eq|].
    intros Hmissing. cbn. simplify_map_eq. subst access. by rewrite Hmissing.
  - split; [done|].
    split; [eexists; split; [reflexivity|apply intercepted_same]|].
    split; [cbn; by simplify_map_eq|].
    split; [cbn; by simplify_map_eq|].
    split; [cbn; by simplify_map_eq|].
    split; [done|].
    split; [cbn; by simplify_map_eq|].
    intros Hmissing. cbn. simplify_map_eq. subst access. by rewrite Hmissing.
Qed.

(** X9.  A login that the server refuses.  With no answer, or an answer
    whose status is neither 2xx nor 401, [authService.login] rejects with
    that error after its one request and leaves the storage and the
    location as they were.  A 401 answer on a page that holds no refresh
    token goes through the response interceptor like any other 401: the
    three keys of the session are removed and the page is sent to
    [/login?reason=no_session]; [login] rejects with the 401 and stores
    nothing. *)
Theorem refused_login_stores_nothing email password w :
  let run := service_login email password w in
  (succeeds (outcome 0 w) = false → unauthorized (outcome 0 w) = false →
     result run
     = Rejected
         {| config := Api.intercepted (login_request email password) w;
            response := match outcome 0 w with
                        | Answer r => Some r
                        | NoAnswer => None
                        end |}
     ∧ storage (world run) = storage w
     ∧ href (world run) = href w
     ∧ events run
       = [Send ViaApi (Api.intercepted (login_request email password) w)])
  ∧ (unauthorized (outcome 0 w) = true →
     JS.truthy_item (storage w !! "refresh_token") = false →
     (∃ e, result run = Rejected e ∧ Api.status_is_401 e = true)
     ∧ AuthContext.session_cleared (world run)
     ∧ href (world run) = Some "/login?reason=no_session"
     ∧ events run
       = [Send ViaApi (Api.intercepted (login_request email password) w)]
         ++ Api.session_removals
         ++ [Navigate "/login?reason=no_session"]).
Proof.
  cbv zeta. rewrite login_run. cbv zeta. split.
  - intros Hfails Hnot401. rewrite api_run_plain by (by rewrite Hnot401).
    cbn [result world events fst snd]. rewrite settle_succeeds, Hfails.
    by destruct (outcome 0 w).
  - intros H401 Htoken.
    destruct (unauthorized_rejected
                (Api.intercepted (login_request email password) w) _ H401)
      as (r0 & _ & Hstatus & Hfirst).
    rewrite api_run. cbv zeta. rewrite Hfirst, H401, Htoken.
    cbn [andb negb _retry Api.request result world events fst snd].
    split; [eexists; split; [reflexivity|done]|].
    split; [apply session_cleared_set_href, session_cleared_cleared|].
    done.
Qed.

Abbreviation provider_login :=
  (AuthContext.login JSON_parse JSON_stringify toLowerCase user_of).

Lemma service_login_elsewhere email password w :
  AuthContext.elsewhere w (world (service_login email password w)).
Proof.
  rewrite login_run. cbv zeta.
  pose proof (api_elsewhere (login_request email password) w) as Helse.
  destruct (Api.api _ w) as [[[r|e] w1] ev1]; cbn in Helse |- *; [|done].
  by destruct (user_of r).
Qed.

Lemma provider_login_run email password s w :
  provider_login email password s w
  = let run := service_login email password w in
    match result run with
    | Resolved loggedInUser =>
        let set :=
          AuthContext.setUser JSON_parse JSON_stringify loggedInUser s
            (world run) in
        ((Resolved loggedInUser, result set), world set,
         events run ++ events set)
    | Rejected e => ((Rejected e, s), world run, events run)
    end.
Proof.
  unfold AuthContext.login. unfold_M. cbv zeta.
  destruct (AuthService.login _ _ _ _ _ w) as [[[u|e] w1] ev1]; cbn.
  - destruct (AuthContext.setUser _ _ u s w1) as [[s2 w2] ev2]. cbn.
    by rewrite app_nil_r.
  - by rewrite app_nil_r.
Qed.

Lemma setUser_some_run u s w :
  AuthContext.timer_tracked s w →
  AuthContext.setUser JSON_parse JSON_stringify (Some u) s w
  = let w1 := set_storage (insert "user" (JSON_stringify u)) w in
    match AuthService.currentUser JSON_parse w1 with
    | Some _ =>
        (AuthContext.set_current (Some (Pos.succ (next_timer w)))
           (AuthContext.setUserState (Some u) s),
         set_timers
           [(Pos.succ (next_timer w), now w + AuthContext.INACTIVITY_TIMEOUT)]
           (Pos.succ (next_timer w)) w1,
         [SetItem "user" (JSON_stringify u)])
    | None =>
        (AuthContext.set_current None (AuthContext.setUserState (Some u) s),
         set_timers [] (next_timer w) w1,
         [SetItem "user" (JSON_stringify u)])
    end.
Proof.
  intros Htracked. cbv zeta.
  unfold AuthContext.setUser, AuthService.setCurrentUser, setItem,
    AuthService.USER_KEY.
  unfold mbind, M_bind.
  rewrite (resetInactivityTimer_tracked JSON_parse
             (AuthContext.setUserState (Some u) s)
             (set_storage (insert "user" (JSON_stringify u)) w)).
  - by destruct (AuthService.currentUser _ _).
  - apply (tracked_elsewhere s w); [|done].
    destruct Htracked as [?|(id & d & ? & ?)]; [by left|right; by exists id, d].
Qed.

(** X10.  [login] of the provider.  It keeps the provider among its
    reachable states.  A login that is rejected leaves the state of the
    provider and the pending timer as they were.  A login that the server
    accepts with a user makes this user the current one and arms the one
    inactivity timer, due [INACTIVITY_TIMEOUT] from now, provided the
    stored text of the user reads back as a user.  A response without a
    user ends with no current user, no stored user and no timer, although
    both tokens have been stored. *)
Theorem provider_login_arms_the_timer email password s w :
  AuthContext.reachable JSON_parse JSON_stringify s w →
  let run := provider_login email password s w in
  AuthContext.reachable JSON_parse JSON_stringify (result run).2 (world run)
  ∧ (∀ e, (result run).1 = Rejected e →
       (result run).2 = s ∧ timers (world run) = timers w)
  ∧ (∀ r u,
       outcome 0 w = Answer r → ok_status (status r) = true →
       user_of r = Some u →
       JS.truthy (JSON_stringify u) = true →
       is_Some (JSON_parse (JSON_stringify u)) →
       (result run).1 = Resolved (Some u)
       ∧ AuthContext.user (result run).2 = Some u
       ∧ AuthContext.inactivityTimerRef (result run).2
         = Some (Pos.succ (next_timer w))
       ∧ timers (world run)
         = [(Pos.succ (next_timer w),
             now w + AuthContext.INACTIVITY_TIMEOUT)])
  ∧ (∀ r,
       outcome 0 w = Answer r → ok_status (status r) = true →
       user_of r = None →
       (result run).1 = Resolved None
       ∧ AuthContext.user (result run).2 = None
       ∧ timers (world run) = []
       ∧ storage (world run) !! "user" = None
       ∧ storage (world run) !! "access_token"
         = Some (Api.to_string (response_data r !! "access"))).
Proof.
  intros Hreach. cbv zeta. rewrite provider_login_run. cbv zeta.
  pose proof (service_login_elsewhere email password w) as Helse.
  pose proof (reachable_tracked _ _ _ _ Hreach) as Htracked.
  split; [|split; [|split]].
  - destruct (service_login email password w) as [[[u|e] w1] ev1];
      cbn in Helse |- *.
    + eapply AuthContext.reach_setUser; [|reflexivity].
      by apply (AuthContext.reach_elsewhere _ _ s w).
    + by apply (AuthContext.reach_elsewhere _ _ s w).
  - intros e.
    destruct (service_login email password w) as [[[u|e'] w1] ev1];
      cbn in Helse |- *; [done|].
    intros _. split; [done|]. by destruct Helse as (-> & _).
  - intros r u Hanswer Hok Huser Htruthy Hreads.
    rewrite login_run, (api_run_resolved _ _ _ Hanswer Hok). cbv zeta.
    cbn [result world events fst snd]. rewrite Huser.
    cbn [result world events fst snd].
    rewrite setUser_some_run
      by (apply (tracked_elsewhere s w); [done|by repeat split]).
    cbv zeta.
    rewrite (getCurrentUser_stored _ (JSON_stringify u))
      by (try done; cbn; by simplify_map_eq).
    destruct Hreads as [u' ->]. done.
  - intros r Hanswer Hok Huser.
    rewrite login_run, (api_run_resolved _ _ _ Hanswer Hok). cbv zeta.
    cbn [result world events fst snd]. rewrite Huser.
    cbn [result world events fst snd].
    rewrite setUser_none_run
      by (apply (tracked_elsewhere s w); [done|by repeat split]).
    cbn. by simplify_map_eq.
Qed.
End Login.

Lemma login_stores_the_session_witness :
  storage (world (AuthService.login same_text same_text user_field
                    "chris@example.com " "secret" login_page))
    !! "access_token"
  = Some "new-access"
  ∧ AuthService.currentUser accept_any
      (world (AuthService.login same_text same_text user_field
                "chris@example.com " "secret" login_page))
    = Some "chris".
Proof.
  destruct (login_stores_the_session accept_any same_text same_text
              user_field "chris@example.com " "secret" login_page
              login_response eq_refl eq_refl)
    as (_ & _ & Haccess & _ & _ & Hcurrent & _).
  split; [exact Haccess|]. by apply (Hcurrent "chris").
Defined.

Lemma refused_login_stores_nothing_witness :
  href (world (AuthService.login same_text same_text user_field
                 "chris@example.com" "wrong" signed_out_page))
  = Some "/login?reason=no_session".
Proof.
  destruct (refused_login_stores_nothing same_text same_text user_field
              "chris@example.com" "wrong" signed_out_page) as [_ H401].
  by destruct (H401 eq_refl eq_refl) as (_ & _ & Hhref & _).
Defined.

Lemma provider_login_arms_the_timer_witness :
  let opened :=
    AuthContext.mount accept_any AuthContext.initialState login_page in
  let run :=
    AuthContext.login accept_any same_text same_text user_field
      "chris@example.com" "secret" (result opened) (world opened) in
  AuthContext.user (result run).2 = Some "chris"
  ∧ timers (world run) = [(2%positive, 43200000)].
Proof.
  cbv zeta.
  assert (AuthContext.reachable accept_any same_text
            (result (AuthContext.mount accept_any AuthContext.initialState
                       login_page))
            (world (AuthContext.mount accept_any AuthContext.initialState
                      login_page))) as Hreach.
  { by apply (AuthContext.reach_mount accept_any same_text login_page). }
  destruct (provider_login_arms_the_timer accept_any same_text same_text
              user_field "chris@example.com" "secret" _ _ Hreach)
    as (_ & _ & Haccepted & _).
  destruct (Haccepted login_response "chris" eq_refl eq_refl eq_refl eq_refl
              (ex_intro _ "chris" eq_refl))
    as (_ & Huser & _ & Htimers).
  split; [exact Huser|exact Htimers].
Defined.

(** ** The inactivity timer: when it is due, and the cleanup *)
Section TimerBounds.
Context {User : Type}.
Variable JSON_parse : string → option User.
Variable JSON_stringify : User → string.
Implicit Types (s : AuthContext.State User) (w : World).

Lemma within_none w : timers w = [] → AuthContext.timers_within_timeout w.
Proof. intros Hnil id due Hin. rewrite Hnil in Hin. by apply elem_of_nil in Hin. Qed.

Lemma within_armed w w0 id :
  timers w = [(id, now w0 + AuthContext.INACTIVITY_TIMEOUT)] →
  now w = now w0 →
  AuthContext.timers_within_timeout w.
Proof.
  intros Hone Hnow id' due Hin. rewrite Hone in Hin.
  apply list_elem_of_singleton in Hin as [= -> ->]. rewrite Hnow.
  unfold AuthContext.INACTIVITY_TIMEOUT. lia.
Qed.

Lemma within_elsewhere w w' :
  AuthContext.timers_within_timeout w → AuthContext.elsewhere w w' →
  AuthContext.timers_within_timeout w'.
Proof.
  intros Hwithin (Htimers & _ & _ & Hnow) id due Hin.
  rewrite Htimers in Hin. rewrite Hnow. exact (Hwithin id due Hin).
Qed.

Lemma resetInactivityTimer_within s w :
  AuthContext.timer_tracked s w →
  AuthContext.timers_within_timeout
    (world (AuthContext.resetInactivityTimer JSON_parse s w)).
Proof.
  intros Htracked. rewrite (resetInactivityTimer_tracked _ _ _ Htracked).
  destruct (AuthService.currentUser _ _).
  - by apply (within_armed _ w (Pos.succ (next_timer w))).
  - by apply within_none.
Qed.

Lemma unmount_run s w :
  AuthContext.timer_tracked s w →
  AuthContext.unmount s w
  = (AuthContext.set_current None s,
     set_listeners
       (filter (λ t, t ∉ AuthContext.activityEvents) (listeners w))
       (set_timers [] (next_timer w) w),
     []).
Proof.
  intros Htracked. unfold AuthContext.unmount. unfold mbind, M_bind.
  rewrite (clearInactivityTimer_tracked _ _ Htracked).
  assert (∀ types w0,
            AuthContext.forEach removeEventListener types w0
            = (tt, set_listeners (filter (λ t, t ∉ types) (listeners w0)) w0,
               [])) as Hfor.
  { induction types as [|type types IH]; intros w0.
    - assert (∀ l : list string, filter (λ t, t ∉ []) l = l) as ->.
      { induction l as [|t l IHl]; [done|].
        rewrite filter_cons_True by apply not_elem_of_nil. by f_equal. }
      cbn. by rewrite set_listeners_same.
    - cbn [AuthContext.forEach]. unfold mbind, M_bind.
      unfold removeEventListener at 1. rewrite IH. cbn.
      rewrite list_filter_filter. do 2 f_equal.
      unfold set_listeners. cbn. f_equal.
      apply list_filter_iff. intros t. rewrite not_elem_of_cons. tauto. }
  by rewrite Hfor.
Qed.

Lemma reachable_within_timeout s w :
  AuthContext.reachable JSON_parse JSON_stringify s w →
  AuthContext.timers_within_timeout w.
Proof.
  intros Hreach.
  induction Hreach as [w r [Hnil _] ->|s w type r Hreach IH ->
                      |s w dt r Hreach IH Hdt ->
                      |s w u r Hreach IH ->|s w arrivals r Hreach IH ->
                      |s w r Hreach IH ->
                      |s w w' Hreach IH Helse].
  - rewrite (mount_run _ _ Hnil).
    destruct (AuthService.currentUser _ _); cbn.
    + by apply (within_armed _ w (Pos.succ (next_timer w))).
    + by apply within_none.
  - apply (reachable_tracked JSON_parse JSON_stringify) in Hreach.
    unfold AuthContext.dispatchEvent. destruct (decide _); [|done].
    rewrite handleActivity_run.
    destruct (AuthService.currentUser _ _) eqn:Hcurrent; [|done].
    by apply resetInactivityTimer_within.
  - apply (reachable_tracked JSON_parse JSON_stringify) in Hreach.
    destruct Hreach as [Hnil|(id & due & Hone & Href)].
    + rewrite (advance_idle _ _ _ Hnil). by apply within_none.
    + destruct (decide (due ≤ now w + dt)) as [Hdue|Hearly].
      * rewrite (advance_due _ _ _ _ _ Hone Hdue). apply within_none. cbn.
        by destruct (authService_logout_elsewhere
                       (set_now (now w + dt) (set_timers [] (next_timer w) w)))
          as (-> & _).
      * rewrite (advance_early _ _ _ _ _ Hone Hearly).
        intros id' due' Hin. cbn in Hin |- *.
        destruct (IH id' due' Hin) as [_ Hupper].
        rewrite Hone in Hin. apply list_elem_of_singleton in Hin as [= -> ->].
        lia.
  - apply (reachable_tracked JSON_parse JSON_stringify) in Hreach.
    destruct u as [u|].
    + unfold AuthContext.setUser, AuthService.setCurrentUser, setItem.
      unfold mbind, M_bind.
      pose proof (resetInactivityTimer_within
                    (AuthContext.setUserState (Some u) s)
                    (set_storage
                       (insert AuthService.USER_KEY (JSON_stringify u)) w))
        as Hreset.
      destruct (AuthContext.resetInactivityTimer _ _ _) as [[s1 w1] ev1].
      apply Hreset. apply (tracked_elsewhere s w); [|done].
      destruct Hreach as [?|(id & d & ? & ?)];
        [by left|right; by exists id, d].
    + rewrite (setUser_none_run _ _ _ _ Hreach). by apply within_none.
  - apply (reachable_tracked JSON_parse JSON_stringify) in Hreach.
    destruct (logout_interleaved_run JSON_parse JSON_stringify arrivals s w
                Hreach) as (s' & w' & _ & ->).
    by apply within_none.
  - apply (reachable_tracked JSON_parse JSON_stringify) in Hreach.
    rewrite (unmount_run _ _ Hreach). by apply within_none.
  - by apply (within_elsewhere w).
Qed.

(** X11.  When the pending timer is due.  In every state the provider can
    reach, a pending timer is due later than now and at most
    [INACTIVITY_TIMEOUT] from now.  So whenever a timer is pending, a
    period of [INACTIVITY_TIMEOUT] or more without any event ends with the
    user logged out: the session is removed from storage, the page is at
    the login route with the reason [inactivity], and nothing is left
    pending. *)
Theorem idle_period_ends_the_session s w :
  AuthContext.reachable JSON_parse JSON_stringify s w →
  AuthContext.timers_within_timeout w
  ∧ (timers w ≠ [] →
     ∀ dt, AuthContext.INACTIVITY_TIMEOUT ≤ dt →
       href (world (AuthContext.advance dt s w))
       = Some "/login?reason=inactivity"
       ∧ AuthContext.session_cleared (world (AuthContext.advance dt s w))
       ∧ AuthContext.user (result (AuthContext.advance dt s w)) = None
       ∧ timers (world (AuthContext.advance dt s w)) = []).
Proof.
  intros Hreach.
  pose proof (reachable_within_timeout _ _ Hreach) as Hwithin.
  split; [done|]. intros Hpending dt Hdt.
  apply (reachable_tracked JSON_parse JSON_stringify) in Hreach.
  destruct Hreach as [Hnil|(id & due & Hone & Href)]; [done|].
  assert (due ≤ now w + dt) as Hdue.
  { destruct (Hwithin id due) as [_ Hupper]; [|lia].
    rewrite Hone. apply list_elem_of_here. }
  rewrite (advance_due _ _ _ _ _ Hone Hdue). cbn.
  split; [done|].
  split; [apply session_cleared_set_href, authService_logout_cleared|].
  split; [done|].
  by destruct (authService_logout_elsewhere
                 (set_now (now w + dt) (set_timers [] (next_timer w) w)))
    as (-> & _).
Qed.

(** X12.  The cleanup of the effect.  From every state the provider can
    reach, the cleanup leaves no pending timer and a null handle, and the
    activity handler is registered for none of the five event types; it
    touches neither the storage nor the location.  Afterwards an activity
    event does nothing, and no passage of time fires anything. *)
Theorem cleanup_removes_timer_and_listeners s w :
  AuthContext.reachable JSON_parse JSON_stringify s w →
  let run := AuthContext.unmount s w in
  timers (world run) = []
  ∧ AuthContext.inactivityTimerRef (result run) = None
  ∧ storage (world run) = storage w
  ∧ href (world run) = href w
  ∧ events run = []
  ∧ (∀ type, type ∈ AuthContext.activityEvents →
       (type ∉ listeners (world run))
       ∧ AuthContext.dispatchEvent JSON_parse type (result run) (world run)
         = (result run, world run, []))
  ∧ (∀ dt,
       events (AuthContext.advance dt (result run) (world run)) = []
       ∧ timers (world (AuthContext.advance dt (result run) (world run)))
         = []).
Proof.
  intros Hreach%(reachable_tracked JSON_parse JSON_stringify). cbv zeta.
  rewrite (unmount_run _ _ Hreach). cbn [result world events fst snd].
  do 5 (split; [done|]).
  assert (∀ type, type ∈ AuthContext.activityEvents →
            type ∉ filter (λ t, t ∉ AuthContext.activityEvents) (listeners w))
    as Hgone.
  { intros type Htype Hin. apply list_elem_of_filter in Hin as [Hno _].
    by apply Hno. }
  split.
  - intros type Htype. split; [by apply Hgone|].
    unfold AuthContext.dispatchEvent.
    by rewrite decide_False by (by apply Hgone).
  - intros dt. by rewrite advance_idle.
Qed.
End TimerBounds.

Lemma idle_period_ends_the_session_witness :
  timers (world mounted) = [(2%positive, 43200000)]
  ∧ href (world (AuthContext.advance AuthContext.INACTIVITY_TIMEOUT
                   (result mounted) (world mounted)))
    = Some "/login?reason=inactivity".
Proof.
  assert (AuthContext.reachable accept_any same_text (result mounted)
            (world mounted)) as Hreach.
  { by apply (AuthContext.reach_mount accept_any same_text stale_page). }
  destruct (idle_period_ends_the_session accept_any same_text _ _ Hreach)
    as [_ Hidle].
  split; [reflexivity|].
  by destruct (Hidle ltac:(done) AuthContext.INACTIVITY_TIMEOUT ltac:(done))
    as [Hhref _].
Defined.

Lemma cleanup_removes_timer_and_listeners_witness :
  timers (world (AuthContext.unmount (result mounted) (world mounted))) = []
  ∧ listeners (world (AuthContext.unmount (result mounted) (world mounted)))
    = [].
Proof.
  assert (AuthContext.reachable accept_any same_text (result mounted)
            (world mounted)) as Hreach.
  { by apply (AuthContext.reach_mount accept_any same_text stale_page). }
  destruct (cleanup_removes_timer_and_listeners accept_any same_text _ _
              Hreach) as (Htimers & _).
  split; [exact Htimers|reflexivity].
Defined.

(** ** The comment thread: what a submit and a delete leave behind *)

Lemma fetchComments_run (recipeId : JS.Value) (s : CommentSection.State)
    (w : World) :
  CommentSection.fetchComments recipeId s w
  = let fetch := CommentService.getComments recipeId w in
    (CommentSection.setLoading false
       (match result fetch with
        | Resolved _ =>
            CommentSection.setError "" (CommentSection.setLoading true s)
        | Rejected _ =>
            CommentSection.setError "Failed to load comments."
              (CommentSection.setError "" (CommentSection.setLoading true s))
        end),
     world fetch, events fetch).
Proof.
  unfold CommentSection.fetchComments. unfold_M. cbv zeta.
  destruct (CommentService.getComments recipeId w) as [[[r|e] w1] ev1];
    cbn; by rewrite app_nil_r.
Qed.

Lemma handleSubmit_run (recipeId : JS.Value) (s : CommentSection.State)
    (w : World) :
  JS.trim (CommentSection.commentText s) ≠ "" →
  CommentSection.handleSubmit recipeId s w
  = let create :=
      CommentService.createComment recipeId
        (JS.trim (CommentSection.commentText s)) w in
    let s1 := CommentSection.setError "" (CommentSection.setSubmitting true s) in
    match result create with
    | Resolved _ =>
        let fetch :=
          CommentSection.fetchComments recipeId
            (CommentSection.setCommentText "" s1) (world create) in
        (CommentSection.setSubmitting false (result fetch), world fetch,
         events create ++ events fetch)
    | Rejected err =>
        (CommentSection.setSubmitting false
           (CommentSection.setError (CommentSection.detail_or_default err) s1),
         world create, events create)
    end.
Proof.
  intros Htext%truthy_nonempty. unfold CommentSection.handleSubmit.
  rewrite Htext. cbn [negb]. unfold_M. cbv zeta.
  cbn [CommentSection.commentText CommentSection.setError
       CommentSection.setSubmitting].
  destruct (CommentService.createComment _ _ w) as [[[r|err] w1] ev1]; cbn.
  - destruct (CommentSection.fetchComments _ _ w1) as [[s2 w2] ev2]. cbn.
    by rewrite app_nil_r.
  - by rewrite app_nil_r.
Qed.

(** X13.  What a submitted comment leaves behind.  Whenever the text is
    not blank, [handleSubmit] ends with [submitting] false, whatever the
    server did.  When the create request is rejected the typed text is
    kept, the error shown is the [detail] of the response or else the
    default message, and no further request is made.  When it resolves
    the text is cleared and the comments are fetched again; the form ends
    not loading, and the only error it can show is that of the fetch. *)
Theorem submit_ends_not_submitting (recipeId : JS.Value)
    (s : CommentSection.State) (w : World) :
  JS.trim (CommentSection.commentText s) ≠ "" →
  let create :=
    CommentService.createComment recipeId
      (JS.trim (CommentSection.commentText s)) w in
  let run := CommentSection.handleSubmit recipeId s w in
  CommentSection.submitting (result run) = false
  ∧ match result create with
    | Rejected err =>
        CommentSection.commentText (result run) = CommentSection.commentText s
        ∧ CommentSection.error (result run)
          = CommentSection.detail_or_default err
        ∧ CommentSection.loading (result run) = CommentSection.loading s
        ∧ events run = events create
        ∧ world run = world create
    | Resolved _ =>
        let fetch := CommentService.getComments recipeId (world create) in
        CommentSection.commentText (result run) = ""
        ∧ CommentSection.loading (result run) = false
        ∧ CommentSection.error (result run)
          = match result fetch with
            | Resolved _ => ""
            | Rejected _ => "Failed to load comments."
            end
        ∧ events run = events create ++ events fetch
        ∧ world run = world fetch
    end.
Proof.
  intros Htext. cbv zeta. rewrite (handleSubmit_run _ _ _ Htext). cbv zeta.
  destruct (result (CommentService.createComment _ _ w)) as [r|err].
  - rewrite fetchComments_run. cbv zeta. cbn [result world events fst snd].
    by destruct (result (CommentService.getComments _ _)).
  - done.
Qed.

Lemma submit_ends_not_submitting_witness :
  CommentSection.submitting
    (result (CommentSection.handleSubmit (JS.Num 7) typed_comment stale_page))
  = false.
Proof.
  by destruct (submit_ends_not_submitting (JS.Num 7) typed_comment stale_page)
    as [Hsubmitting _].
Defined.

Lemma handleDelete_run (recipeId commentId : JS.Value)
    (s : CommentSection.State) (w : World) :
  CommentSection.handleDelete true recipeId commentId s w
  = let del := CommentService.deleteComment commentId w in
    match result del with
    | Resolved _ =>
        let fetch := CommentSection.fetchComments recipeId s (world del) in
        ((result fetch, None), world fetch, events del ++ events fetch)
    | Rejected err =>
        ((s, Some (CommentSection.detail_or
                     "Failed to delete comment. Please try again." err)),
         world del, events del)
    end.
Proof.
  unfold CommentSection.handleDelete. cbn [negb]. unfold_M. cbv zeta.
  destruct (CommentService.deleteComment _ w) as [[[r|err] w1] ev1]; cbn.
  - destruct (CommentSection.fetchComments _ _ w1) as [[s2 w2] ev2]. cbn.
    by rewrite app_nil_r.
  - by rewrite app_nil_r.
Qed.

(** X14.  Deleting a comment.  Without the confirmation nothing happens:
    no request, no change of state, no alert.  With it, the first request
    is the DELETE of [/recipes/comments/<id>/], without a body.  When the
    server refuses, the user gets an alert with the [detail] of the
    response or else the default message, the state is untouched and the
    comments are not fetched again; otherwise they are fetched again and
    no alert is shown. *)
Theorem delete_asks_before_it_sends (confirmed : bool)
    (recipeId commentId : JS.Value) (s : CommentSection.State) (w : World) :
  let run := CommentSection.handleDelete confirmed recipeId commentId s w in
  let del := CommentService.deleteComment commentId w in
  (confirmed = false → run = ((s, None), w, []))
  ∧ (confirmed = true →
     (∃ c rest,
        events run = Send ViaApi c :: rest
        ∧ method c = "delete"
        ∧ url c
          = "/recipes/comments/" +:+ CommentService.template commentId +:+ "/"
        ∧ data c = NoBody)
     ∧ match result del with
       | Rejected err =>
           (result run).1 = s
           ∧ (result run).2
             = Some (CommentSection.detail_or
                       "Failed to delete comment. Please try again." err)
           ∧ events run = events del
       | Resolved _ =>
           (result run).2 = None
           ∧ events run
             = events del
               ++ events (CommentService.getComments recipeId (world del))
           ∧ CommentSection.loading (result run).1 = false
       end).
Proof.
  cbv zeta. split; [by intros ->|]. intros ->.
  rewrite handleDelete_run. cbv zeta. split.
  - assert (∃ c rest,
              events (CommentService.deleteComment commentId w)
              = Send ViaApi c :: rest
              ∧ method c = "delete"
              ∧ url c
                = "/recipes/comments/" +:+ CommentService.template commentId
                  +:+ "/"
              ∧ data c = NoBody) as (c & rest & Hevents & Hc).
    { unfold CommentService.deleteComment, Api.delete_. rewrite api_events.
      eexists _, _. split; [reflexivity|].
      by destruct (intercepted_same
                     (Api.request "delete"
                        ("/recipes/comments/"
                         +:+ CommentService.template commentId +:+ "/")
                        ∅ NoBody) w) as (-> & -> & _ & ->). }
    destruct (result (CommentService.deleteComment commentId w)).
    + exists c, (rest ++ events (CommentSection.fetchComments recipeId s
                                  (world (CommentService.deleteComment
                                            commentId w)))).
      split; [|done]. cbn [events snd]. by rewrite Hevents.
    + exists c, rest. by split.
  - destruct (result (CommentService.deleteComment commentId w)); [|done].
    rewrite fetchComments_run. done.
Qed.

Lemma delete_asks_before_it_sends_witness :
  CommentSection.handleDelete false (JS.Num 7) (JS.Num 3) typed_comment
    stale_page
  = ((typed_comment, None), stale_page, [])
  ∧ ∃ c rest,
      events (CommentSection.handleDelete true (JS.Num 7) (JS.Num 3)
                typed_comment stale_page)
      = Send ViaApi c :: rest
      ∧ url c = "/recipes/comments/3/".
Proof.
  split.
  - destruct (delete_asks_before_it_sends false (JS.Num 7) (JS.Num 3)
                typed_comment stale_page) as [Hdeclined _].
    by apply Hdeclined.
  - destruct (delete_asks_before_it_sends true (JS.Num 7) (JS.Num 3)
                typed_comment stale_page) as [_ Hconfirmed].
    destruct (Hconfirmed eq_refl) as [(c & rest & Hevents & _ & Hurl & _) _].
    by exists c, rest.
Defined.

(** ** The list pages: from the handlers to the parameters *)

Lemma lookup_spread_filters (filters : RecipeListPage.Filters) (k : string) :
  RecipeListPage.spread_filters filters !! k
  = if decide (k = "course_type") then
      Some (JS.Str (RecipeListPage.course_type filters))
    else if decide (k = "recipe_type") then
      Some (JS.Str (RecipeListPage.recipe_type filters))
    else if decide (k = "primary_protein") then
      Some (JS.Str (RecipeListPage.primary_protein filters))
    else if decide (k = "ethnic_style") then
      Some (JS.Str (RecipeListPage.ethnic_style filters))
    else None.
Proof.
  unfold RecipeListPage.spread_filters.
  repeat (destruct (decide _) as [->|?]; [by simplify_map_eq|]).
  by simplify_map_eq.
Qed.

Lemma lookup_params_of (filters : RecipeListPage.Filters) (term k : string) :
  RecipeListPage.params_of filters term !! k
  = RecipeListPage.kept
      (RecipeListPage.spread_search term
         (RecipeListPage.spread_filters filters) !! k).
Proof. apply lookup_remove_empty. Qed.

Lemma kept_Str (value : string) :
  RecipeListPage.kept (Some (JS.Str value)) = RecipeListPage.carried value.
Proof. by destruct value. Qed.

(** X15.  From the handlers of the list pages to the request.  After
    [handleFilterChange] the next parameter object carries the new value
    under the key of that filter, or lacks the key when the value is
    [''], and is otherwise as before.  The object never has a key besides
    the four filters and [search].  After [clearFilters] it is empty on
    the recipe list page, and holds nothing but [uploaded_by] on the
    my-recipes page. *)
Theorem filter_change_reaches_the_params
    (filterName : RecipeListPage.FilterName) (value : string)
    (filters : RecipeListPage.Filters) (searchTerm : string)
    (user_id : JS.Value) :
  let p := RecipeListPage.params_of filters searchTerm in
  let p' :=
    RecipeListPage.params_of
      (RecipeListPage.handleFilterChange filterName value filters)
      searchTerm in
  p' !! RecipeListPage.key_of filterName = RecipeListPage.carried value
  ∧ (∀ k, k ≠ RecipeListPage.key_of filterName → p' !! k = p !! k)
  ∧ (∀ k, is_Some (p !! k) →
       k ∈ ["course_type"; "recipe_type"; "primary_protein"; "ethnic_style";
            "search"])
  ∧ RecipeListPage.params_of RecipeListPage.clearFilters.1
      RecipeListPage.clearFilters.2 = ∅
  ∧ MyRecipesPage.params_of RecipeListPage.clearFilters.1 user_id
      RecipeListPage.clearFilters.2
    = (if JS.is_empty_string user_id then ∅
       else {[ "uploaded_by" := user_id ]}).
Proof.
  cbv zeta. split; [|split; [|split; [|split]]].
  - rewrite lookup_params_of, lookup_spread_search, lookup_spread_filters.
    destruct filterName; cbn; apply kept_Str.
  - intros k Hk. rewrite !lookup_params_of, !lookup_spread_search,
      !lookup_spread_filters.
    destruct filterName; cbn in Hk |- *;
      repeat (destruct (decide _) as [->|?]; [done|]); done.
  - intros k. rewrite lookup_params_of, lookup_spread_search,
      lookup_spread_filters.
    repeat (destruct (decide _) as [->|?]; [intros _; set_solver|]).
    by intros [? ?].
  - apply map_eq. intros k.
    rewrite lookup_params_of, lookup_spread_search, lookup_spread_filters.
    cbn. repeat (destruct (decide _) as [->|?]; [done|]). done.
  - apply map_eq. intros k. unfold MyRecipesPage.params_of.
    rewrite lookup_remove_empty, lookup_spread_search. cbn.
    destruct (decide (k = "uploaded_by")) as [->|Hk].
    + rewrite lookup_insert_eq. cbn. destruct (decide _); [done|].
      unfold RecipeListPage.kept.
      destruct (JS.is_empty_string user_id); by simplify_map_eq.
    + rewrite lookup_insert_ne by done. rewrite lookup_spread_filters. cbn.
      assert ((if JS.is_empty_string user_id
               then (∅ : gmap string JS.Value)
               else {[ "uploaded_by" := user_id ]}) !! k = None) as ->.
      { destruct (JS.is_empty_string user_id); by simplify_map_eq. }
      repeat (destruct (decide _) as [->|?]; [done|]). done.
Qed.

(** ** Submitting the recipe form *)
Section SubmitRecipe.
Variable stringify_ingredient_sections : list Ingredients.Section_ → string.
Variable stringify_instruction_sections
  : list Instructions.Section_ → string.
Variable large_number_text : Z → string.
Variable first_error : Response → string.

Abbreviation createRecipe :=
  (RecipeService.createRecipe stringify_ingredient_sections
     stringify_instruction_sections large_number_text).
Abbreviation submit :=
  (CreateRecipeSubmit.handleSubmit stringify_ingredient_sections
     stringify_instruction_sections large_number_text first_error).

Lemma validateForm_Valid_fields (formData : CreateRecipePage.FormData)
    (ingredientSections : list Ingredients.Section_)
    (instructionSections : list Instructions.Section_) :
  CreateRecipePage.validateForm formData ingredientSections
    instructionSections = CreateRecipePage.Valid →
  CreateRecipePage.blank (CreateRecipePage.recipe_name formData) = false
  ∧ CreateRecipePage.blank (CreateRecipePage.recipe_description formData)
    = false
  ∧ CreateRecipePage.missing_or_below (CreateRecipePage.prep_time formData)
      JS.lt_0 = false
  ∧ CreateRecipePage.missing_or_below (CreateRecipePage.cook_time formData)
      JS.lt_0 = false
  ∧ CreateRecipePage.missing_or_below
      (CreateRecipePage.number_servings formData) JS.lt_1 = false.
Proof.
  unfold CreateRecipePage.validateForm.
  repeat match goal with
         | |- context [if ?b then CreateRecipePage.Invalid _ else _] =>
             destruct b; [done|]
         end.
  done.
Qed.

Lemma submit_run (formData : CreateRecipePage.FormData)
    (recipe_image : option string)
    (ingredientSections : list Ingredients.Section_)
    (instructionSections : list Instructions.Section_)
    (s : CreateRecipeSubmit.State) (w : World) :
  submit formData recipe_image ingredientSections instructionSections s w
  = match CreateRecipePage.validateForm formData ingredientSections
            instructionSections with
    | CreateRecipePage.Invalid message =>
        (({| CreateRecipeSubmit.loading := CreateRecipeSubmit.loading s;
             CreateRecipeSubmit.error := message |}, None), w, [])
    | CreateRecipePage.Valid =>
        let create :=
          createRecipe
            (CreateRecipeSubmit.recipeData_of formData recipe_image
               ingredientSections instructionSections) w in
        match result create with
        | Resolved newRecipe =>
            (({| CreateRecipeSubmit.loading := false;
                 CreateRecipeSubmit.error := "" |},
              Some ("/recipes/"
                    +:+ Api.to_string (response_data newRecipe !! "id"))),
             world create, events create)
        | Rejected err =>
            (({| CreateRecipeSubmit.loading := false;
                 CreateRecipeSubmit.error :=
                   CreateRecipeSubmit.error_message first_error err |},
              None),
             world create, events create)
        end
    end.
Proof.
  unfold CreateRecipeSubmit.handleSubmit. cbv zeta.
  destruct (CreateRecipePage.validateForm _ _ _); [|done].
  unfold_M.
  destruct (RecipeService.createRecipe _ _ _ _ w) as [[[r|err] w1] ev1]; cbn;
    by rewrite app_nil_r.
Qed.

(** X16.  Only a valid recipe is sent.  When [validateForm] fails,
    [handleSubmit] makes no request: it shows the message of the failed
    check, leaves [loading] as it was and does not navigate.  When the
    form is valid, the first request is the POST to [/recipes/] with a
    multipart body, for which the request interceptor sets no content
    type; the body carries the trimmed name and description, which are
    not empty, and for the two times and the servings what [parseInt]
    reads in the texts of the inputs.  Where such a text is a decimal
    numeral, the number sent is its value, and it is at least 1 for the
    servings.  The handler ends with [loading] false; it navigates to the
    new recipe exactly when the request resolved, and shows the error of
    the response otherwise. *)
Theorem only_a_valid_recipe_is_sent (formData : CreateRecipePage.FormData)
    (recipe_image : option string)
    (ingredientSections : list Ingredients.Section_)
    (instructionSections : list Instructions.Section_)
    (s : CreateRecipeSubmit.State) (w : World) :
  let run :=
    submit formData recipe_image ingredientSections instructionSections s w in
  let recipeData :=
    CreateRecipeSubmit.recipeData_of formData recipe_image ingredientSections
      instructionSections in
  (∀ message,
     CreateRecipePage.validateForm formData ingredientSections
       instructionSections = CreateRecipePage.Invalid message →
     events run = [] ∧ world run = w
     ∧ CreateRecipeSubmit.error (result run).1 = message
     ∧ CreateRecipeSubmit.loading (result run).1
       = CreateRecipeSubmit.loading s
     ∧ (result run).2 = None)
  ∧ (CreateRecipePage.validateForm formData ingredientSections
       instructionSections = CreateRecipePage.Valid →
     (∃ c rest,
        events run = Send ViaApi c :: rest
        ∧ method c = "post" ∧ url c = "/recipes/"
        ∧ data c
          = FormData
              (RecipeService.form_fields stringify_ingredient_sections
                 stringify_instruction_sections large_number_text recipeData)
        ∧ Content_Type c = None)
     ∧ (RecipeService.recipe_name recipeData
        = JS.trim (CreateRecipePage.recipe_name formData)
        ∧ RecipeService.recipe_name recipeData ≠ ""
        ∧ RecipeService.recipe_description recipeData
          = JS.trim (CreateRecipePage.recipe_description formData)
        ∧ RecipeService.recipe_description recipeData ≠ "")
     ∧ ((∀ n, JS.numeral (CreateRecipePage.prep_time formData) n →
           RecipeService.prep_time recipeData = Some n ∧ 0 ≤ n)
        ∧ (∀ n, JS.numeral (CreateRecipePage.cook_time formData) n →
             RecipeService.cook_time recipeData = Some n ∧ 0 ≤ n)
        ∧ (∀ n, JS.numeral (CreateRecipePage.number_servings formData) n →
             RecipeService.number_servings recipeData = Some n ∧ 1 ≤ n))
     ∧ CreateRecipeSubmit.loading (result run).1 = false
     ∧ match result (createRecipe recipeData w) with
       | Resolved newRecipe =>
           (result run).2
           = Some ("/recipes/"
                   +:+ Api.to_string (response_data newRecipe !! "id"))
           ∧ CreateRecipeSubmit.error (result run).1 = ""
       | Rejected err =>
           (result run).2 = None
           ∧ CreateRecipeSubmit.error (result run).1
             = CreateRecipeSubmit.error_message first_error err
       end).
Proof.
  cbv zeta. rewrite submit_run. split.
  - by intros message ->.
  - intros Hvalid. rewrite Hvalid. cbv zeta.
    destruct (validateForm_Valid_fields _ _ _ Hvalid)
      as (Hname & Hdescription & Hprep & Hcook & Hservings).
    split; [|split; [|split; [|split]]].
    + assert (∃ c rest,
                events
                  (createRecipe
                     (CreateRecipeSubmit.recipeData_of formData recipe_image
                        ingredientSections instructionSections) w)
                = Send ViaApi c :: rest
                ∧ method c = "post" ∧ url c = "/recipes/"
                ∧ data c
                  = FormData
                      (RecipeService.form_fields stringify_ingredient_sections
                         stringify_instruction_sections large_number_text
                         (CreateRecipeSubmit.recipeData_of formData
                            recipe_image ingredientSections
                            instructionSections))
                ∧ Content_Type c = None) as (c & rest & Hevents & Hc).
      { unfold RecipeService.createRecipe, Api.post. rewrite api_events.
        eexists _, _. split; [reflexivity|].
        rewrite intercepted_Content_Type.
        by destruct (intercepted_same
                       (Api.request "post" "/recipes/" ∅
                          (FormData
                             (RecipeService.form_fields
                                stringify_ingredient_sections
                                stringify_instruction_sections
                                large_number_text
                                (CreateRecipeSubmit.recipeData_of formData
                                   recipe_image ingredientSections
                                   instructionSections)))) w)
          as (-> & -> & _ & ->). }
      exists c, rest. split; [|done].
      by destruct (result (createRecipe _ w)).
    + apply blank_false in Hname, Hdescription. done.
    + cbn [CreateRecipeSubmit.recipeData_of RecipeService.prep_time
           RecipeService.cook_time RecipeService.number_servings].
      split; [|split]; intros n Hnumeral;
        rewrite (parseInt_numeral _ _ Hnumeral); (split; [done|]).
      * by destruct (numeral_not_negative _ _ Hnumeral).
      * by destruct (numeral_not_negative _ _ Hnumeral).
      * by apply (missing_or_below_numeral _ _ Hnumeral).
    + by destruct (result (createRecipe _ w)).
    + by destruct (result (createRecipe _ w)).
Qed.
End SubmitRecipe.

Lemma only_a_valid_recipe_is_sent_witness :
  let idle :=
    {| CreateRecipeSubmit.loading := false;
       CreateRecipeSubmit.error := "" |} in
  events
    (CreateRecipeSubmit.handleSubmit (λ _, "[]") (λ _, "[]")
       (λ _, "") (λ _, "Bad request") blank_name_no_servings None
       carbonara_ingredients carbonara_instructions idle stale_page)
  = []
  ∧ ∃ c rest,
      events
        (CreateRecipeSubmit.handleSubmit (λ _, "[]") (λ _, "[]")
           (λ _, "") (λ _, "Bad request") carbonara None carbonara_ingredients
           carbonara_instructions idle stale_page)
      = Send ViaApi c :: rest
      ∧ url c = "/recipes/".
Proof.
  cbv zeta. split.
  - destruct (only_a_valid_recipe_is_sent (λ _, "[]") (λ _, "[]")
                (λ _, "") (λ _, "Bad request") blank_name_no_servings None
                carbonara_ingredients carbonara_instructions
                {| CreateRecipeSubmit.loading := false;
                   CreateRecipeSubmit.error := "" |} stale_page)
      as [Hinvalid _].
    by destruct (Hinvalid "Recipe name is required" eq_refl) as [Hnone _].
  - destruct (only_a_valid_recipe_is_sent (λ _, "[]") (λ _, "[]")
                (λ _, "") (λ _, "Bad request") carbonara None
                carbonara_ingredients carbonara_instructions
                {| CreateRecipeSubmit.loading := false;
                   CreateRecipeSubmit.error := "" |} stale_page)
      as [_ Hvalid].
    destruct (Hvalid eq_refl) as [(c & rest & Hevents & _ & Hurl & _) _].
    by exists c, rest.
Defined.

(** A form that [validateForm] accepts can send [NaN]: the prep time
    [.5e1] passes the test as the number 5 and leaves [parseInt] as [NaN];
    the servings [1e3] pass as 1000 and are sent as 1. *)
Example valid_form_sends_what_parseInt_reads :
  CreateRecipePage.validateForm fractional_times carbonara_ingredients
    carbonara_instructions = CreateRecipePage.Valid
  ∧ take 3 (drop 6
      (RecipeService.form_fields (λ _, "[]") (λ _, "[]") (λ _, "")
         (CreateRecipeSubmit.recipeData_of fractional_times None
            carbonara_ingredients carbonara_instructions)))
    = [("prep_time", "NaN"); ("cook_time", "1"); ("number_servings", "1")].
Proof. vm_compute. done. Qed.

(** ** Logging out: the request *)

(** X17.  The request of a logout.  Without a stored refresh token
    [authService.logout] sends nothing and only removes the three keys.
    With one, it first posts the token to [/auth/logout/], under the
    bearer token that is stored, and the three removals come last,
    whatever the interceptors did in between.  Afterwards
    [isAuthenticated] is false and [getCurrentUser] finds no user. *)
Theorem logout_posts_the_refresh_token {User : Type}
    (JSON_parse : string → option User) (w : World) :
  let run := AuthService.logout w in
  (JS.truthy_item (storage w !! "refresh_token") = false →
     events run = Api.session_removals ∧ network (world run) = network w)
  ∧ (JS.truthy_item (storage w !! "refresh_token") = true →
     ∃ c rest,
       events run = Send ViaApi c :: rest ++ Api.session_removals
       ∧ method c = "post" ∧ url c = "/auth/logout/"
       ∧ data c
         = Json {[ "refresh" :=
                     JS.Str (Api.to_string (storage w !! "refresh_token")) ]}
       ∧ Authorization c
         = match storage w !! "access_token" with
           | Some t => if JS.truthy t then Some ("Bearer " +:+ t) else None
           | None => None
           end)
  ∧ result (AuthService.isAuthenticated (world run)) = false
  ∧ AuthService.currentUser JSON_parse (world run) = None.
Proof.
  cbv zeta. split; [|split; [|split]].
  - intros Hnone. by rewrite authService_logout_run, Hnone.
  - intros Hsome. rewrite authService_logout_run, Hsome. cbv zeta.
    cbn [events snd]. unfold Api.post. rewrite api_events.
    eexists _, _. split; [reflexivity|].
    rewrite intercepted_Authorization.
    by destruct (intercepted_same
                   (Api.request "post" "/auth/logout/" ∅
                      (Json {[ "refresh" :=
                                 JS.Str (Api.to_string
                                           (storage w !! "refresh_token")) ]}))
                   w) as (-> & -> & _ & ->).
  - destruct (authService_logout_cleared w) as (Haccess & _).
    unfold AuthService.isAuthenticated, getItem, AuthService.ACCESS_KEY.
    unfold_M. cbn. by rewrite Haccess.
  - destruct (authService_logout_cleared w) as (_ & _ & Huser).
    unfold AuthService.currentUser, AuthService.getCurrentUser, getItem,
      AuthService.USER_KEY.
    unfold_M. cbn. by rewrite Huser.
Qed.

Lemma logout_posts_the_refresh_token_witness :
  ∃ c rest,
    events (AuthService.logout stale_page)
    = Send ViaApi c :: rest ++ Api.session_removals
    ∧ Authorization c = Some "Bearer old-access".
Proof.
  destruct (logout_posts_the_refresh_token accept_any stale_page)
    as (_ & Hsent & _).
  destruct (Hsent eq_refl) as (c & rest & Hevents & _ & _ & _ & Hauth).
  by exists c, rest.
Defined.

(** ** The inactivity timer, from mount to logout *)
Section TimerLifecycle.
Context {User : Type}.
Variable JSON_parse : string → option User.
Variable JSON_stringify : User → string.
Implicit Types (s : AuthContext.State User) (w : World).

Lemma active_reachable s w :
  AuthContext.active JSON_parse JSON_stringify s w →
  AuthContext.reachable JSON_parse JSON_stringify s w.
Proof.
  induction 1 as [w r Hfresh ->|s w type r _ IH ->|s w dt r _ IH Hdt ->
                 |s w u r _ IH ->|s w arrivals r _ IH ->
                 |s w w' _ IH Helse].
  - by apply (AuthContext.reach_mount _ _ w).
  - by apply (AuthContext.reach_event _ _ s w type).
  - by apply (AuthContext.reach_advance _ _ s w dt).
  - by apply (AuthContext.reach_setUser _ _ s w u).
  - by apply (AuthContext.reach_logout _ _ s w arrivals).
  - by apply (AuthContext.reach_elsewhere _ _ s w).
Qed.

Lemma resetInactivityTimer_listeners s w :
  AuthContext.timer_tracked s w →
  listeners (world (AuthContext.resetInactivityTimer JSON_parse s w))
  = listeners w.
Proof.
  intros Htracked. rewrite (resetInactivityTimer_tracked _ _ _ Htracked).
  by destruct (AuthService.currentUser _ _).
Qed.

Lemma dispatchEvent_listeners type s w :
  AuthContext.timer_tracked s w →
  listeners (world (AuthContext.dispatchEvent JSON_parse type s w))
  = listeners w.
Proof.
  intros Htracked. unfold AuthContext.dispatchEvent.
  destruct (decide _); [|done]. rewrite handleActivity_run.
  destruct (AuthService.currentUser _ _) eqn:Hcurrent; [|done].
  by apply resetInactivityTimer_listeners.
Qed.

Lemma dispatchAll_listeners types s w :
  AuthContext.timer_tracked s w →
  listeners (world (AuthContext.dispatchAll JSON_parse types s w))
  = listeners w.
Proof.
  revert s w. induction types as [|type types IH]; intros s w Htracked;
    [done|].
  cbn [AuthContext.dispatchAll]. unfold mbind, M_bind.
  pose proof (dispatchEvent_keeps_tracked JSON_parse type s w Htracked)
    as Hstep.
  pose proof (dispatchEvent_listeners type s w Htracked) as Hsame.
  destruct (AuthContext.dispatchEvent _ _ _ _) as [[s1 w1] ev1].
  cbn in Hstep, Hsame. specialize (IH s1 w1 Hstep).
  destruct (AuthContext.dispatchAll _ _ _ _) as [[s2 w2] ev2].
  cbn in IH |- *. congruence.
Qed.

Lemma advance_listeners dt s w :
  AuthContext.timer_tracked s w →
  listeners (world (AuthContext.advance dt s w)) = listeners w.
Proof.
  intros [Hnil|(id & due & Hone & Href)].
  - by rewrite (advance_idle _ _ _ Hnil).
  - destruct (decide (due ≤ now w + dt)) as [Hdue|Hearly].
    + rewrite (advance_due _ _ _ _ _ Hone Hdue). cbn.
      by destruct (authService_logout_elsewhere
                     (set_now (now w + dt) (set_timers [] (next_timer w) w)))
        as (_ & _ & -> & _).
    + by rewrite (advance_early _ _ _ _ _ Hone Hearly).
Qed.

Lemma setUser_listeners u s w :
  AuthContext.timer_tracked s w →
  listeners (world (AuthContext.setUser JSON_parse JSON_stringify u s w))
  = listeners w.
Proof.
  intros Htracked. destruct u as [u|].
  - rewrite (setUser_some_run _ _ _ _ _ Htracked). cbv zeta.
    by destruct (AuthService.currentUser _ _).
  - by rewrite (setUser_none_run _ _ _ _ Htracked).
Qed.

Lemma logout_interleaved_listeners arrivals s w :
  AuthContext.timer_tracked s w →
  listeners (world (AuthContext.logout_interleaved JSON_parse JSON_stringify
                      arrivals s w))
  = listeners w.
Proof.
  intros Htracked. unfold AuthContext.logout_interleaved.
  unfold mbind at 1. unfold M_bind.
  rewrite (clearInactivityTimer_tracked _ _ Htracked).
  unfold mbind at 1. unfold M_bind.
  pose proof (dispatchAll_keeps_tracked JSON_parse arrivals
                (AuthContext.set_current None s)
                (set_timers [] (next_timer w) w) (tracked_none _ _ _))
    as Hduring.
  pose proof (dispatchAll_listeners arrivals
                (AuthContext.set_current None s)
                (set_timers [] (next_timer w) w) (tracked_none _ _ _))
    as Hsame.
  destruct (AuthContext.dispatchAll _ _ _ _) as [[s1 w1] ev1].
  cbn in Hduring, Hsame.
  unfold mbind at 1. unfold M_bind.
  pose proof (authService_logout_elsewhere w1) as Helse.
  destruct (AuthService.logout w1) as [[[] w2] ev2]. cbn in Helse.
  rewrite setUser_none_run by (by apply (tracked_elsewhere s1 w1)).
  cbn. destruct Helse as (_ & _ & -> & _). done.
Qed.

Lemma active_listeners s w :
  AuthContext.active JSON_parse JSON_stringify s w →
  listeners w = AuthContext.activityEvents.
Proof.
  intros Hactive.
  induction Hactive as [w r Hfresh ->|s w type r Hactive IH ->
                       |s w dt r Hactive IH Hdt ->
                       |s w u r Hactive IH ->|s w arrivals r Hactive IH ->
                       |s w w' Hactive IH Helse].
  - by apply mount_listeners.
  - rewrite dispatchEvent_listeners; [done|].
    by eapply reachable_tracked, active_reachable.
  - rewrite advance_listeners; [done|].
    by eapply reachable_tracked, active_reachable.
  - rewrite setUser_listeners; [done|].
    by eapply reachable_tracked, active_reachable.
  - rewrite logout_interleaved_listeners; [done|].
    by eapply reachable_tracked, active_reachable.
  - destruct Helse as (_ & _ & -> & _). done.
Qed.

Lemma advance_fires dt s w id due :
  timers w = [(id, due)] → due ≤ now w + dt →
  href (world (AuthContext.advance dt s w)) = Some "/login?reason=inactivity"
  ∧ AuthContext.session_cleared (world (AuthContext.advance dt s w))
  ∧ AuthContext.user (result (AuthContext.advance dt s w)) = None
  ∧ timers (world (AuthContext.advance dt s w)) = [].
Proof.
  intros Hone Hdue. rewrite (advance_due _ _ _ _ _ Hone Hdue). cbn.
  split; [done|]. split; [|split; [done|]].
  - apply session_cleared_set_href, authService_logout_cleared.
  - by destruct (authService_logout_elsewhere
                   (set_now (now w + dt) (set_timers [] (next_timer w) w)))
      as (-> & _).
Qed.

Lemma advance_waits dt s w id due :
  timers w = [(id, due)] → now w + dt < due →
  href (world (AuthContext.advance dt s w)) = href w
  ∧ timers (world (AuthContext.advance dt s w)) = [(id, due)]
  ∧ events (AuthContext.advance dt s w) = [].
Proof.
  intros Hone Hearly. by rewrite (advance_early _ _ _ id due Hone) by lia.
Qed.

(** C5.  The provider registers its activity handler for the five event
    types [mousedown], [keydown], [scroll], [touchstart] and [click], and
    mounting it with a user logged in arms the inactivity timer, due
    [INACTIVITY_TIMEOUT] later.  While the provider is mounted, whatever
    it has done since, the handler stays registered for these five types
    and each such event, with a user logged in, replaces the pending timer
    by a single one due [INACTIVITY_TIMEOUT] later; from then on nothing
    happens before that time has passed without an event, and when it has
    the user is logged out: the session is removed from storage and the
    page goes to the login route with the reason [inactivity].  In every
    state the provider can reach at most one timer is pending, the one
    the handle names, due within [INACTIVITY_TIMEOUT]; it logs the user
    out when its time has come and does nothing before.  After an
    explicit logout, also one during which activity events arrived, the
    handle is null and no timer is pending, so that no passage of time
    fires anything. *)
Theorem inactivity_timer_lifecycle s w :
  AuthContext.reachable JSON_parse JSON_stringify s w →
  (∀ w0, AuthContext.fresh w0 →
     let run := AuthContext.mount JSON_parse AuthContext.initialState w0 in
     listeners (world run) = AuthContext.activityEvents
     ∧ (AuthContext.logged_in JSON_parse w0 →
        AuthContext.inactivityTimerRef (result run)
        = Some (Pos.succ (next_timer w0))
        ∧ timers (world run)
          = [(Pos.succ (next_timer w0),
              now w0 + AuthContext.INACTIVITY_TIMEOUT)]
        ∧ ∀ dt, AuthContext.INACTIVITY_TIMEOUT ≤ dt →
            href (world (AuthContext.advance dt (result run) (world run)))
            = Some "/login?reason=inactivity"
            ∧ AuthContext.session_cleared
                (world (AuthContext.advance dt (result run) (world run))))
     ∧ (¬ AuthContext.logged_in JSON_parse w0 →
        AuthContext.inactivityTimerRef (result run) = None
        ∧ timers (world run) = []))
  ∧ (AuthContext.active JSON_parse JSON_stringify s w →
     listeners w = AuthContext.activityEvents
     ∧ ∀ type,
         type ∈ AuthContext.activityEvents →
         AuthContext.logged_in JSON_parse w →
         let run := AuthContext.dispatchEvent JSON_parse type s w in
         AuthContext.inactivityTimerRef (result run)
         = Some (Pos.succ (next_timer w))
         ∧ timers (world run)
           = [(Pos.succ (next_timer w),
               now w + AuthContext.INACTIVITY_TIMEOUT)]
         ∧ ∀ dt,
             (0 ≤ dt → dt < AuthContext.INACTIVITY_TIMEOUT →
              events (AuthContext.advance dt (result run) (world run)) = []
              ∧ timers (world (AuthContext.advance dt (result run)
                                 (world run)))
                = timers (world run))
             ∧ (AuthContext.INACTIVITY_TIMEOUT ≤ dt →
                href (world (AuthContext.advance dt (result run)
                               (world run)))
                = Some "/login?reason=inactivity"
                ∧ AuthContext.session_cleared
                    (world (AuthContext.advance dt (result run)
                              (world run)))
                ∧ AuthContext.user
                    (result (AuthContext.advance dt (result run)
                               (world run))) = None
                ∧ timers (world (AuthContext.advance dt (result run)
                                   (world run))) = []))
  ∧ (∀ type,
       type ∈ AuthContext.activityEvents → type ∈ listeners w →
       AuthContext.logged_in JSON_parse w →
       ∃ id,
         AuthContext.inactivityTimerRef
           (result (AuthContext.dispatchEvent JSON_parse type s w)) = Some id
         ∧ timers (world (AuthContext.dispatchEvent JSON_parse type s w))
           = [(id, now w + AuthContext.INACTIVITY_TIMEOUT)])
  ∧ (timers w = []
     ∨ ∃ id due,
         timers w = [(id, due)]
         ∧ AuthContext.inactivityTimerRef s = Some id
         ∧ now w < due ∧ due ≤ now w + AuthContext.INACTIVITY_TIMEOUT)
  ∧ (∀ id due dt,
       timers w = [(id, due)] →
       (due ≤ now w + dt →
        href (world (AuthContext.advance dt s w))
        = Some "/login?reason=inactivity"
        ∧ AuthContext.session_cleared (world (AuthContext.advance dt s w))
        ∧ AuthContext.user (result (AuthContext.advance dt s w)) = None
        ∧ timers (world (AuthContext.advance dt s w)) = [])
       ∧ (now w + dt < due →
          href (world (AuthContext.advance dt s w)) = href w
          ∧ timers (world (AuthContext.advance dt s w)) = [(id, due)]
          ∧ events (AuthContext.advance dt s w) = []))
  ∧ (∀ arrivals,
       let run :=
         AuthContext.logout_interleaved JSON_parse JSON_stringify arrivals
           s w in
       AuthContext.inactivityTimerRef (result run) = None
       ∧ timers (world run) = []
       ∧ AuthContext.session_cleared (world run)
       ∧ ∀ dt,
           events (AuthContext.advance dt (result run) (world run)) = []
           ∧ href (world (AuthContext.advance dt (result run) (world run)))
             = href (world run))
  ∧ (let run := AuthContext.logout JSON_parse JSON_stringify s w in
     AuthContext.inactivityTimerRef (result run) = None
     ∧ timers (world run) = []
     ∧ AuthContext.session_cleared (world run)
     ∧ ∀ dt,
         events (AuthContext.advance dt (result run) (world run)) = []
         ∧ href (world (AuthContext.advance dt (result run) (world run)))
           = href (world run)).
Proof.
  intros Hreach.
  pose proof (reachable_tracked _ _ _ _ Hreach) as Htracked.
  pose proof (reachable_within_timeout _ _ _ _ Hreach) as Hwithin.
  assert (∀ arrivals,
            let run :=
              AuthContext.logout_interleaved JSON_parse JSON_stringify
                arrivals s w in
            AuthContext.inactivityTimerRef (result run) = None
            ∧ timers (world run) = []
            ∧ AuthContext.session_cleared (world run)
            ∧ ∀ dt,
                events (AuthContext.advance dt (result run) (world run)) = []
                ∧ href (world (AuthContext.advance dt (result run)
                                 (world run)))
                  = href (world run)) as Hlogout.
  { intros arrivals run. subst run.
    destruct (logout_interleaved_run JSON_parse JSON_stringify arrivals s w
                Htracked)
      as (s' & w' & _ & ->).
    split; [done|]. split; [done|]. split.
    - apply (session_cleared_without_user
               (world (AuthService.logout w'))).
      apply authService_logout_cleared.
    - intros dt. by rewrite advance_idle. }
  split.
  { intros w0 [Hnil Hnone]. cbv zeta.
    split; [by apply mount_listeners|].
    rewrite (mount_run JSON_parse _ Hnil). split.
    - intros [u Hu]. rewrite Hu. cbn [result world fst snd].
      split; [done|]. split; [done|]. intros dt Hdt.
      match goal with
      | |- context [AuthContext.advance dt ?s1 ?w1] =>
          destruct (advance_fires dt s1 w1 (Pos.succ (next_timer w0))
                      (now w0 + AuthContext.INACTIVITY_TIMEOUT) eq_refl)
            as (Hhref & Hcleared & _); [cbn; lia|]
      end.
      by split.
    - intros Hout.
      destruct (AuthService.currentUser JSON_parse w0) as [u|] eqn:Hu.
      + destruct Hout. by exists u.
      + done. }
  split.
  { intros Hactive.
    pose proof (active_listeners _ _ Hactive) as Hlisteners.
    split; [done|]. intros type Htype Hlogged. cbv zeta.
    rewrite (dispatchEvent_resets JSON_parse _ _ _ Htracked)
      by (by rewrite ?Hlisteners).
    cbn [result world fst snd]. split; [done|]. split; [done|].
    intros dt. split.
    - intros Hdt Hshort.
      match goal with
      | |- context [AuthContext.advance dt ?s1 ?w1] =>
          destruct (advance_waits dt s1 w1 (Pos.succ (next_timer w))
                      (now w + AuthContext.INACTIVITY_TIMEOUT) eq_refl)
            as (_ & Htimers & Hevents); [cbn; lia|]
      end.
      by split.
    - intros Hlong.
      match goal with
      | |- context [AuthContext.advance dt ?s1 ?w1] =>
          apply (advance_fires dt s1 w1 (Pos.succ (next_timer w))
                   (now w + AuthContext.INACTIVITY_TIMEOUT) eq_refl)
      end.
      cbn. lia. }
  split.
  { intros type _ Hregistered Hlogged.
    rewrite (dispatchEvent_resets JSON_parse _ _ _ Htracked Hregistered
               Hlogged).
    by eexists. }
  split.
  { destruct Htracked as [Hnil|(id & due & Hone & Href)]; [by left|].
    right. exists id, due. split; [done|]. split; [done|].
    apply (Hwithin id due). rewrite Hone. apply list_elem_of_here. }
  split.
  { intros id due dt Hone. split.
    - by apply (advance_fires dt s w id due).
    - by apply (advance_waits dt s w id due). }
  split; [exact Hlogout|].
  rewrite logout_is_logout_interleaved. apply Hlogout.
Qed.
End TimerLifecycle.

Lemma inactivity_timer_lifecycle_witness :
  AuthContext.active accept_any same_text (result mounted) (world mounted)
  ∧ listeners (world mounted) = AuthContext.activityEvents
  ∧ timers (world mounted) = [(2%positive, 43200000)]
  ∧ timers (world (AuthContext.dispatchEvent accept_any "click"
                     (result mounted) (world mounted)))
    = [(3%positive, 43200000)]
  ∧ timers (world (AuthContext.logout accept_any same_text (result mounted)
                     (world mounted)))
    = [].
Proof.
  assert (AuthContext.active accept_any same_text (result mounted)
            (world mounted)) as Hactive.
  { by apply (AuthContext.active_mount accept_any same_text stale_page). }
  assert (AuthContext.reachable accept_any same_text (result mounted)
            (world mounted)) as Hreach.
  { by apply (AuthContext.reach_mount accept_any same_text stale_page). }
  destruct (inactivity_timer_lifecycle accept_any same_text _ _ Hreach)
    as (Hmount & Hevent & _ & _ & _ & _ & Hlogout).
  split; [exact Hactive|].
  destruct (Hmount stale_page ltac:(done)) as (_ & Harmed & _).
  destruct (Harmed ltac:(by eexists)) as (_ & Htimers & _).
  destruct (Hevent Hactive) as [Hlisteners Hreset].
  split; [exact Hlisteners|]. split; [exact Htimers|]. split.
  - destruct (Hreset "click") as (_ & Hclick & _).
    + apply (bool_decide_unpack _). vm_compute. exact I.
    + by eexists.
    + exact Hclick.
  - apply Hlogout.
Defined.
